(** * SKLL configuration and learner utilities: a shallow embedding

    This development embeds the functions of [skll/config/utils.py] and
    [skll/learner/utils.py] and proves the properties their specification
    states about them.

    Conventions of the embedding.
    - A Python call that may raise returns a [result]: [Ok v] or
      [Raise e] with the exception that the source raises.
    - An integer of a numpy array is a [Z]; the arithmetic of an integer
      array wraps around in the width of its element type, and the
      wrap-around is written out.
    - A float is the rational it represents or one of the IEEE special
      values (type [num]); the two zeros are not told apart.  Comparisons
      of floats are exact and are embedded.  The float arithmetic of
      numpy rounds: its elementwise operations, its mean and its standard
      deviation are a parameter ([float_arithmetic]), and a property that
      needs a fact of that arithmetic states it as a hypothesis.  The
      IEEE arithmetic of the standard library ([SpecFloat]) gives an
      instance for the examples.
    - Functions of numpy, scipy, scikit-learn, ruamel.yaml and the
      operating system that the source calls are either embedded from
      their documented behaviour or taken as parameters of a section. *)

From Stdlib Require Import Ascii String QArith Qround Qminmax SpecFloat.
From stdpp Require Import gmap strings list fin_maps sorting.

Local Open Scope string_scope.

(** ** Exceptions and results *)

Inductive exn :=
| ValueError (msg : string)
| TypeError (msg : string)
| IOError (errno : Z) (msg : string) (filename : string)
| KeyError
| IndexError
| AttributeError (attr : string).

Inductive result (A : Type) :=
| Ok (a : A)
| Raise (e : exn).
Arguments Ok {A} a.
Arguments Raise {A} e.

Definition bind {A B} (r : result A) (k : A -> result B) : result B :=
  match r with
  | Ok a => k a
  | Raise e => Raise e
  end.

Notation "'let*' x := r 'in' k" := (bind r (fun x => k))
  (at level 10, x name, r at level 100, k at level 200).

(** ** Floats *)

Inductive num :=
| Fin (q : Q)
| PosInf
| NegInf
| NaN.

Definition Qlt_bool (a b : Q) : bool := negb (Qle_bool b a).

Definition is_finite (x : num) : bool :=
  match x with Fin _ => true | _ => false end.

(** [a < b]; every comparison with a NaN is false. *)
Definition num_lt (a b : num) : bool :=
  match a, b with
  | NaN, _ | _, NaN => false
  | Fin x, Fin y => Qlt_bool x y
  | NegInf, NegInf => false
  | NegInf, _ => true
  | _, NegInf => false
  | PosInf, _ => false
  | Fin _, PosInf => true
  end.

(** [a == b]; a NaN is equal to nothing. *)
Definition num_eq (a b : num) : bool :=
  match a, b with
  | Fin x, Fin y => Qeq_bool x y
  | PosInf, PosInf | NegInf, NegInf => true
  | _, _ => false
  end.

(** The built-ins [min(a, b)] and [max(a, b)]: the first argument is kept
    unless the second is strictly smaller (larger). *)
Definition py_min2 (a b : num) : num := if num_lt b a then b else a.
Definition py_max2 (a b : num) : num := if num_lt a b then b else a.

(** [min(y)] and [max(y)] over a sequence of labels. *)
Definition py_min (y : list Q) : result Q :=
  match y with
  | [] => Raise (ValueError "min() arg is an empty sequence")
  | x :: l => Ok (fold_left (fun acc b => if Qlt_bool b acc then b else acc) l x)
  end.

Definition py_max (y : list Q) : result Q :=
  match y with
  | [] => Raise (ValueError "max() arg is an empty sequence")
  | x :: l => Ok (fold_left (fun acc b => if Qlt_bool acc b then b else acc) l x)
  end.

(** The float arithmetic of numpy that the learner utilities call, for
    one float type: the elementwise [+], [-], [*], [/], the remainder
    [np.mod(x, 1)], and the reductions [np.mean] and [np.std].  Each
    rounds its result to the type (and can overflow to an infinity), so
    none of them is the operation of the rationals. *)
Record float_arithmetic := {
  np_add : num -> num -> num;
  np_subtract : num -> num -> num;
  np_multiply : num -> num -> num;
  np_true_divide : num -> num -> num;
  np_mod1 : num -> num;
  np_mean : list num -> num;
  np_std : list num -> num
}.

(** ** Label values and label arrays *)

(** [numpy] element types.  The first two are the textual ones the
    resolver tests for, the next four the numeric ones it tests for;
    [np_other] stands for every element type in neither tuple
    (booleans, short or unsigned integers, half floats, ...). *)
Inductive dtype :=
| np_object | np_str
| np_int32 | np_int64 | np_float32 | np_float64
| np_other (name : string).

Inductive int_width := W32 | W64.
Inductive float_width := F32 | F64.

(** A numeric or textual array, as numpy makes it of an array-like
    argument: the Python integers [[1, 2, 3]] give an [int64] array, the
    floats [[4.0, 5.0, 6.0]] (and the empty list) a [float64] array, the
    strings [["a", "b"]] an array of text.  The integers of an array of
    width [w] are between the smallest and the largest integer of that
    width. *)
Inductive array :=
| Ints (w : int_width) (zs : list Z)
| Floats (w : float_width) (xs : list num)
| Texts (ss : list string).

(** An element of an array of Python objects: a number or a piece of
    text. *)
Inductive scalar :=
| SNum (q : Q)
| SStr (s : string).

(** A label array: an array of integers, floats or text, an array of
    Python objects, or an array of any other element type. *)
Inductive ndarray :=
| Typed (a : array)
| Objects (items : list scalar)
| Others (name : string) (items : list scalar).

(** [label_array.dtype.type] *)
Definition dtype_type (label_array : ndarray) : dtype :=
  match label_array with
  | Typed (Ints W32 _) => np_int32
  | Typed (Ints W64 _) => np_int64
  | Typed (Floats F32 _) => np_float32
  | Typed (Floats F64 _) => np_float64
  | Typed (Texts _) => np_str
  | Objects _ => np_object
  | Others name _ => np_other name
  end.

(** [issubclass(label_type, (np.object_, str))] *)
Definition is_textual (d : dtype) : bool :=
  match d with np_object | np_str => true | _ => false end.

(** [issubclass(label_type, (int, np.int32, np.int64, float, np.float32,
    np.float64))] *)
Definition is_numeric (d : dtype) : bool :=
  match d with
  | np_int32 | np_int64 | np_float32 | np_float64 => true
  | _ => false
  end.

(** ** [contiguous_ints_or_floats] *)

Definition bits (w : int_width) : Z :=
  match w with W32 => 32 | W64 => 64 end.

Definition min_int (w : int_width) : Z := - 2 ^ (bits w - 1).
Definition max_int (w : int_width) : Z := 2 ^ (bits w - 1) - 1.

(** The result of integer arithmetic in an array of width [w]: the
    two's-complement value of the exact result, silently wrapped. *)
Definition wrap (w : int_width) (z : Z) : Z :=
  (z - min_int w) mod 2 ^ bits w + min_int w.

(** [np.diff]: successive differences [a[i+1] - a[i]], for the
    subtraction of the array's element type. *)
Fixpoint np_diff {A} (subtract : A -> A -> A) (l : list A) : list A :=
  match l with
  | a :: (b :: _) as l' => subtract b a :: np_diff subtract l'
  | _ => []
  end.

Definition np_all (l : list bool) : bool := forallb id l.

(** [len(numbers)] *)
Definition len (numbers : array) : nat :=
  match numbers with
  | Ints _ zs => length zs
  | Floats _ xs => length xs
  | Texts ss => length ss
  end.

Section Contiguity.

(** The float arithmetic of numpy, for each float type. *)
Variable np : float_width -> float_arithmetic.

Definition contiguous_ints_or_floats (numbers : array) : result bool :=
  if (len numbers =? 0)%nat then Raise (ValueError "Input cannot be empty.")
  else
    match numbers with
    | Texts _ => Raise (TypeError "Input should only contain numbers.")
    | Ints w zs =>
        let ints_or_int_like_floats :=
          np_all (map (fun z => (z mod 1 =? 0)%Z) zs) in
        let contiguous :=
          np_all (map (fun d => (d =? 1)%Z)
                      (np_diff (fun b a => wrap w (b - a)) zs)) in
        Ok (ints_or_int_like_floats && contiguous)
    | Floats w xs =>
        let ints_or_int_like_floats :=
          np_all (map (fun x => num_eq (np_mod1 (np w) x) (Fin 0)) xs) in
        let contiguous :=
          np_all (map (fun d => num_eq d (Fin 1))
                      (np_diff (np_subtract (np w)) xs)) in
        Ok (ints_or_int_like_floats && contiguous)
    end.

End Contiguity.

(** ** Metric families *)

(** The metric-name sets of [skll.utils.constants], which the learner
    utilities import; their contents are not part of these two files, so
    they are a parameter of the resolvers. *)
Record metric_constants := {
  CLASSIFICATION_ONLY_METRICS : gset string;
  CORRELATION_METRICS : gset string;
  REGRESSION_ONLY_METRICS : gset string;
  UNWEIGHTED_KAPPA_METRICS : gset string;
  WEIGHTED_KAPPA_METRICS : gset string
}.

Definition get_acceptable_regression_metrics (mc : metric_constants)
  : gset string :=
  REGRESSION_ONLY_METRICS mc ∪ UNWEIGHTED_KAPPA_METRICS mc
    ∪ WEIGHTED_KAPPA_METRICS mc ∪ CORRELATION_METRICS mc.

(** The second branch is entered by arrays of the four numeric element
    types only, which are [Typed]; the last case of the inner match is
    there for totality. *)
Definition get_acceptable_classification_metrics
    (np : float_width -> float_arithmetic)
    (mc : metric_constants) (label_array : ndarray) : result (gset string) :=
  let acceptable_metrics :=
    CLASSIFICATION_ONLY_METRICS mc ∪ UNWEIGHTED_KAPPA_METRICS mc in
  let label_type := dtype_type label_array in
  if is_textual label_type then Ok acceptable_metrics
  else if is_numeric label_type then
    let acceptable_metrics := acceptable_metrics ∪ CORRELATION_METRICS mc in
    match label_array with
    | Typed numbers =>
        let* c := contiguous_ints_or_floats np numbers in
        if c then Ok (acceptable_metrics ∪ WEIGHTED_KAPPA_METRICS mc)
        else Ok acceptable_metrics
    | _ => Ok acceptable_metrics
    end
  else Ok acceptable_metrics.

(** ** The [rescaled] decorator: the class level *)

(** What the decorator reads and writes of a class: its attribute table.
    A method is the class's own ([Orig]) or one the decorator installs. *)
Inductive method :=
| Orig (name : string)
| rescaled_init
| rescaled_fit
| rescaled_predict
| rescaled_get_param_names.

Inductive attr :=
| AStr (s : string)
| ABool (b : bool)
| AMethod (m : method).

Definition getattr (cls : gmap string attr) (name : string) : result attr :=
  match cls !! name with
  | Some a => Ok a
  | None => Raise (AttributeError name)
  end.

Definition hasattr (cls : gmap string attr) (name : string) : bool :=
  bool_decide (is_Some (cls !! name)).

Definition attr_is_str (a : attr) (s : string) : bool :=
  match a with AStr s' => String.eqb s' s | _ => false end.

Definition rescaled (cls : gmap string attr) : result (gmap string attr) :=
  if hasattr cls "rescale" then Ok cls
  else
    let* orig_init := getattr cls "__init__" in
    let* orig_fit := getattr cls "fit" in
    let* orig_predict := getattr cls "predict" in
    let* ty := getattr cls "_estimator_type" in
    if attr_is_str ty "classifier" then
      Raise (ValueError "Classifiers cannot be rescaled. Only regressors can.")
    else
      let* _ := getattr cls "_get_param_names" in
      Ok (<["rescale" := ABool true]>
          (<["_get_param_names" := AMethod rescaled_get_param_names]>
          (<["predict" := AMethod rescaled_predict]>
          (<["fit" := AMethod rescaled_fit]>
          (<["__init__" := AMethod rescaled_init]> cls))))).

(** A class whose estimator type is ['classifier']. *)
Definition is_classifier_class (cls : gmap string attr) : Prop :=
  cls !! "_estimator_type" = Some (AStr "classifier").

(** ** The [rescaled] decorator: the installed [fit] and [predict] *)

Fixpoint mapM {A B} (f : A -> result B) (l : list A) : result (list B) :=
  match l with
  | [] => Ok []
  | a :: l' => let* b := f a in let* bs := mapM f l' in Ok (b :: bs)
  end.

Fixpoint filterM {A} (f : A -> result bool) (l : list A) : result (list A) :=
  match l with
  | [] => Ok []
  | a :: l' =>
      let* b := f a in
      let* r := filterM f l' in
      Ok (if b then a :: r else r)
  end.

Section Rescaled.

(** The decorated class: the state of an instance, the type of its
    inputs, and its own [fit] and [predict]. *)
Variable Est : Type.
Variable X : Type.
Variable orig_fit : Est -> X -> list Q -> result Est.
Variable orig_predict : Est -> X -> result (list num).

(** The float arithmetic of numpy on the predictions and the labels. *)
Variable np : float_arithmetic.

(** The text with which the interpreter refuses an operator between a
    number and [None]; it names the operator, given here, and the types
    of the two operands. *)
Variable none_operand : string -> string.

(** An instance of the decorated class: the instance of the original
    class and the attributes that the installed [__init__] adds. *)
Record rescaled_estimator := {
  base : Est;
  constrain : bool;
  rescale : bool;
  y_min : option Q;
  y_max : option Q;
  yhat_mean : option num;
  yhat_sd : option num;
  y_mean : option num;
  y_sd : option num
}.

Definition init (constrain rescale : bool) (b : Est) : rescaled_estimator :=
  {| base := b; constrain := constrain; rescale := rescale;
     y_min := None; y_max := None;
     yhat_mean := None; yhat_sd := None; y_mean := None; y_sd := None |}.

Definition set_base (self : rescaled_estimator) (b : Est) :=
  {| base := b; constrain := constrain self; rescale := rescale self;
     y_min := y_min self; y_max := y_max self;
     yhat_mean := yhat_mean self; yhat_sd := yhat_sd self;
     y_mean := y_mean self; y_sd := y_sd self |}.

Definition set_range (self : rescaled_estimator) (mn mx : Q) :=
  {| base := base self; constrain := constrain self; rescale := rescale self;
     y_min := Some mn; y_max := Some mx;
     yhat_mean := yhat_mean self; yhat_sd := yhat_sd self;
     y_mean := y_mean self; y_sd := y_sd self |}.

Definition set_moments (self : rescaled_estimator) (hm hs m s : num) :=
  {| base := base self; constrain := constrain self; rescale := rescale self;
     y_min := y_min self; y_max := y_max self;
     yhat_mean := Some hm; yhat_sd := Some hs;
     y_mean := Some m; y_sd := Some s |}.

(** The installed [fit].  A call that raises is abandoned as a whole: the
    attributes it had already written are not tracked. *)
Definition fit (self : rescaled_estimator) (x : X) (y : list Q)
  : result rescaled_estimator :=
  let* b := orig_fit (base self) x y in
  let self := set_base self b in
  let* self :=
    if constrain self then
      let* mn := py_min y in
      let* mx := py_max y in
      Ok (set_range self mn mx)
    else Ok self in
  let* self :=
    if rescale self then
      let* y_hat := orig_predict (base self) x in
      Ok (set_moments self (np_mean np y_hat) (np_std np y_hat)
            (np_mean np (map Fin y)) (np_std np (map Fin y)))
    else Ok self in
  Ok self.

(** An attribute as the operand of [operator]: while it is still [None]
    the operation on an element of the array raises [TypeError]. *)
Definition operand {A} (operator : string) (o : option A) : result A :=
  match o with
  | Some v => Ok v
  | None => Raise (TypeError (none_operand operator))
  end.

(** [(((r - yhat_mean) / yhat_sd) * y_sd) + y_mean] for one element. *)
Definition zscore_rescale (hm hs s m : num) (r : num) : num :=
  np_add np (np_multiply np (np_true_divide np (np_subtract np r hm) hs) s) m.

(** [max(y_min, min(y_max, pred))] *)
Definition clamp (mn mx : Q) (pred : num) : num :=
  py_max2 (Fin mn) (py_min2 (Fin mx) pred).

(** The installed [predict].  The operations on the array are taken
    element by element, so that on an empty array of predictions none of
    them is performed and nothing is raised; [min(y_max, pred)] compares
    with [pred < y_max] and [max(y_min, _)] with [_ > y_min]. *)
Definition predict (self : rescaled_estimator) (x : X) : result (list num) :=
  let* res := orig_predict (base self) x in
  let* res :=
    if rescale self then
      mapM (fun r =>
              let* hm := operand "-" (yhat_mean self) in
              let* hs := operand "/" (yhat_sd self) in
              let* s := operand "*" (y_sd self) in
              let* m := operand "+" (y_mean self) in
              Ok (zscore_rescale hm hs s m r)) res
    else Ok res in
  if constrain self then
    mapM (fun pred =>
            let* mx := operand "<" (y_max self) in
            let* mn := operand ">" (y_min self) in
            Ok (clamp mn mx pred)) res
  else Ok res.

End Rescaled.

Arguments base {Est} _.
Arguments constrain {Est} _.
Arguments rescale {Est} _.
Arguments y_min {Est} _.
Arguments y_max {Est} _.
Arguments yhat_mean {Est} _.
Arguments yhat_sd {Est} _.
Arguments y_mean {Est} _.
Arguments y_sd {Est} _.
Arguments init {Est} _ _ _.
Arguments fit {Est X} _ _ _ _ _ _.
Arguments predict {Est X} _ _ _ _ _.
Arguments operand _ {A} _ _.

(** ** Configuration utilities: [fix_json] *)

(** [s.startswith(p)] *)
Fixpoint startswith (s p : string) {struct p} : bool :=
  match p with
  | EmptyString => true
  | String c p' =>
      match s with
      | String d s' => (Ascii.eqb d c && startswith s' p')%bool
      | EmptyString => false
      end
  end.

(** [str.replace(old, new)] for a non-empty [old]: the occurrences of
    [old] are found from left to right and do not overlap.  [skip] counts
    the characters of an occurrence that are still to be dropped. *)
Fixpoint replace_from (old new : string) (skip : nat) (s : string) : string :=
  match s with
  | EmptyString => EmptyString
  | String c s' =>
      match skip with
      | S k => replace_from old new k s'
      | O =>
          if startswith s old
          then new +:+ replace_from old new (String.length old - 1) s'
          else String c (replace_from old new 0 s')
      end
  end.

Definition str_replace (old new s : string) : string :=
  replace_from old new 0 s.

Definition single_quote : string := String "039"%char EmptyString.
Definition double_quote : string := String "034"%char EmptyString.

Definition fix_json (json_string : string) : string :=
  let json_string := str_replace "True" "true" json_string in
  let json_string := str_replace "False" "false" json_string in
  let json_string := str_replace single_quote double_quote json_string in
  json_string.

(** ** Configuration utilities: [_parse_and_validate_metrics] *)

(** The values that [yaml.safe_load] builds. *)
Unset Elimination Schemes.
Inductive yaml :=
| YNull
| YBool (b : bool)
| YInt (z : Z)
| YFloat (q : Q)
| YStr (s : string)
| YList (l : list yaml)
| YDict (l : list (yaml * yaml)).
Set Elimination Schemes.

(** [type(v)] as [str.format] prints it. *)
Definition type_repr (v : yaml) : string :=
  match v with
  | YNull => "<class 'NoneType'>"
  | YBool _ => "<class 'bool'>"
  | YInt _ => "<class 'int'>"
  | YFloat _ => "<class 'float'>"
  | YStr _ => "<class 'str'>"
  | YList _ => "<class 'list'>"
  | YDict _ => "<class 'dict'>"
  end.

Definition yaml_is_str (s : string) (v : yaml) : bool :=
  match v with YStr s' => String.eqb s' s | _ => false end.

Section Metrics.

(** [yaml.safe_load] of ruamel.yaml, and [repr] of a list, as the
    libraries provide them. *)
Variable safe_load : string -> result yaml.
Variable list_repr : list yaml -> string.

(** The names registered in [sklearn.metrics.SCORERS]. *)
Variable SCORERS : gset string.

(** [metric not in SCORERS]: looking up a list or a dict, which cannot be
    hashed, raises [TypeError]. *)
Definition not_in_SCORERS (metric : yaml) : result bool :=
  match metric with
  | YStr s => Ok (bool_decide (s ∉ SCORERS))
  | YList _ => Raise (TypeError "unhashable type: 'list'")
  | YDict _ => Raise (TypeError "unhashable type: 'dict'")
  | _ => Ok true
  end.

Definition _parse_and_validate_metrics (metrics option_name : string)
  : result yaml :=
  let* metrics := safe_load (fix_json metrics) in
  match metrics with
  | YList l =>
      if existsb (yaml_is_str "mean_squared_error") l then
        Raise (ValueError
                 ("The metric " +:+ double_quote +:+ "mean_squared_error"
                  +:+ double_quote +:+ " is no longer supported."
                  +:+ " please use the metric " +:+ double_quote
                  +:+ "neg_mean_squared_error" +:+ double_quote
                  +:+ " instead."))
      else
        let* invalid_metrics := filterM not_in_SCORERS l in
        match invalid_metrics with
        | [] => Ok metrics
        | _ => Raise (ValueError ("Invalid metric(s) "
                                  +:+ list_repr invalid_metrics
                                  +:+ " specified for " +:+ option_name))
        end
  | _ => Raise (TypeError (option_name +:+ " should be a list, not a "
                           +:+ type_repr metrics +:+ "."))
  end.

End Metrics.

(** ** Configuration utilities: [locate_file] *)

(** [os.path] on a POSIX system. *)
Module posixpath.

Definition sep : Ascii.ascii := "/"%char.

Definition isabs (s : string) : bool := startswith s "/".

Definition endswith_sep (s : string) : bool :=
  match String.get (String.length s - 1) s with
  | Some c => Ascii.eqb c sep
  | None => false
  end.

(** [join(a, b)] for two components. *)
Definition join (a b : string) : string :=
  if startswith b "/" then b
  else if (String.eqb a "" || endswith_sep a)%bool then a +:+ b
  else a +:+ "/" +:+ b.

(** [path.split('/')]; [cur] is the component being read, reversed. *)
Fixpoint split_from (cur : list Ascii.ascii) (s : string) : list string :=
  match s with
  | EmptyString => [string_of_list_ascii (rev cur)]
  | String c s' =>
      if Ascii.eqb c sep
      then string_of_list_ascii (rev cur) :: split_from [] s'
      else split_from (c :: cur) s'
  end.

Definition split (s : string) : list string := split_from [] s.

(** ['/'.join(comps)] *)
Fixpoint join_sep (comps : list string) : string :=
  match comps with
  | [] => ""
  | [c] => c
  | c :: cs => c +:+ "/" +:+ join_sep cs
  end.

(** One turn of the loop of [normpath]; [new_comps] is kept reversed, its
    head being [new_comps[-1]]. *)
Definition norm_step (initial_slashes : nat) (new_comps : list string)
    (comp : string) : list string :=
  if (String.eqb comp "" || String.eqb comp ".")%bool then new_comps
  else if (negb (String.eqb comp "..")
           || (Nat.eqb initial_slashes 0 && bool_decide (new_comps = []))
           || match new_comps with
              | last :: _ => String.eqb last ".."
              | [] => false
              end)%bool
       then comp :: new_comps
       else match new_comps with
            | _ :: rest => rest
            | [] => new_comps
            end.

Fixpoint slashes (n : nat) : string :=
  match n with O => "" | S k => "/" +:+ slashes k end.

Definition normpath (path : string) : string :=
  if String.eqb path "" then "."
  else
    let initial_slashes :=
      if startswith path "/" then
        if (startswith path "//" && negb (startswith path "///"))%bool
        then 2%nat else 1%nat
      else 0%nat in
    let new_comps := fold_left (norm_step initial_slashes) (split path) [] in
    let path := slashes initial_slashes +:+ join_sep (rev new_comps) in
    if String.eqb path "" then "." else path.

End posixpath.

Definition ENOENT : Z := 2.

Section LocateFile.

(** [os.path.exists]: the state of the file system. *)
Variable path_exists : string -> bool.

Definition locate_file (file_path config_dir : string) : result string :=
  if String.eqb file_path "" then Ok ""
  else
    let path_to_check :=
      if posixpath.isabs file_path then file_path
      else posixpath.normpath (posixpath.join config_dir file_path) in
    let ans := path_exists path_to_check in
    if negb ans then Raise (IOError ENOENT "File does not exist" path_to_check)
    else Ok path_to_check.

End LocateFile.

(** ** Learner utilities: [Densifier] *)

(** A scipy sparse matrix in coordinate form: the shape and the stored
    entries [(row, column, value)]; entries at one position add up. *)
Record sparse := {
  shape : nat * nat;
  entries : list (nat * nat * Q)
}.

Definition entry_at (i j : nat) (es : list (nat * nat * Q)) : Q :=
  fold_left (fun acc e =>
               match e with
               | (r, c, v) => if (Nat.eqb r i && Nat.eqb c j)%bool
                              then (acc + v)%Q else acc
               end) es 0%Q.

(** [X.todense()] *)
Definition todense (m : sparse) : list (list Q) :=
  map (fun i => map (fun j => entry_at i j (entries m)) (seq 0 (snd (shape m))))
      (seq 0 (fst (shape m))).

(** The feature arrays a pipeline stage receives. *)
Inductive features :=
| SparseMatrix (m : sparse)
| DenseArray (m : list (list Q)).

(** A [Densifier] object; it has no parameter, only its identity. *)
Record Densifier := { densifier_id : nat }.

(** What the methods of a [Densifier] return. *)
Inductive stage_output :=
| OutEstimator (self : Densifier)
| OutMatrix (m : list (list Q)).

Module Densifier_methods.

Definition fit (self : Densifier) (X : features) (y : option (list Q))
  : result stage_output := Ok (OutEstimator self).

Definition fit_transform (self : Densifier) (X : features)
    (y : option (list Q)) : result stage_output := Ok (OutEstimator self).

Definition transform (self : Densifier) (X : features)
  : result stage_output :=
  match X with
  | SparseMatrix m => Ok (OutMatrix (todense m))
  | DenseArray _ => Raise (AttributeError "todense")
  end.

End Densifier_methods.

(** ** Learner utilities: [FilteredLeaveOneGroupOut] *)

Record FilteredLeaveOneGroupOut := {
  keep : gset string;
  example_ids : list string;
  _warned : bool;
  (** the messages sent to [self.logger.warning], latest first *)
  warnings : list string
}.

Definition filter_warning : string :=
  "Feature set contains IDs that are not in folds dictionary. Skipping those IDs.".

(** [[i for i in index if self.example_ids[i] in self.keep]]; an index
    beyond the list of example IDs raises [IndexError]. *)
Definition filter_index (self : FilteredLeaveOneGroupOut) (index : list nat)
  : result (list nat) :=
  filterM (fun i : nat =>
             match example_ids self !! i with
             | Some id => Ok (bool_decide (id ∈ keep self))
             | None => Raise IndexError
             end) index.

Definition warn (self : FilteredLeaveOneGroupOut) : FilteredLeaveOneGroupOut :=
  {| keep := keep self; example_ids := example_ids self;
     _warned := true; warnings := filter_warning :: warnings self |}.

(** What a generator has done when it stops: the pairs it yielded, the
    exception that ended it (if one did) and the object it ran on. *)
Record generated := {
  yielded : list (list nat * list nat);
  raised : option exn;
  final : FilteredLeaveOneGroupOut
}.

(** The body of [split], run over the pairs that the [split] of the
    super class yields. *)
Fixpoint split_over (self : FilteredLeaveOneGroupOut)
    (folds : list (list nat * list nat)) : generated :=
  match folds with
  | [] => {| yielded := []; raised := None; final := self |}
  | (train_index, test_index) :: rest =>
      let train_len := length train_index in
      let test_len := length test_index in
      match filter_index self train_index with
      | Raise e => {| yielded := []; raised := Some e; final := self |}
      | Ok train_index =>
          match filter_index self test_index with
          | Raise e => {| yielded := []; raised := Some e; final := self |}
          | Ok test_index =>
              let self :=
                if (negb (_warned self)
                    && (negb (train_len =? length train_index)%nat
                        || negb (test_len =? length test_index)%nat))%bool
                then warn self else self in
              let g := split_over self rest in
              {| yielded := (train_index, test_index) :: yielded g;
                 raised := raised g; final := final g |}
          end
      end
  end.

(** [LeaveOneGroupOut.split] of scikit-learn: one fold per distinct group,
    in increasing order of the groups; the test indices are the rows of
    the group, the train indices all other rows.  Fewer than two groups
    are refused. *)
Definition indices_where (p : Z -> bool) (groups : list Z) : list nat :=
  map fst (List.filter (fun ig => p (snd ig)) (combine (seq 0 (length groups)) groups)).

Fixpoint insert_sorted (g : Z) (l : list Z) : list Z :=
  match l with
  | [] => [g]
  | h :: t => if (g <? h)%Z then g :: l
              else if (g =? h)%Z then l else h :: insert_sorted g t
  end.

Definition np_unique_Z (l : list Z) : list Z := fold_right insert_sorted [] l.

Definition LeaveOneGroupOut_split (groups : list Z)
  : result (list (list nat * list nat)) :=
  let unique_groups := np_unique_Z groups in
  if (length unique_groups <=? 1)%nat then
    Raise (ValueError "The groups parameter contains fewer than 2 unique groups. LeaveOneGroupOut expects at least 2.")
  else
    Ok (map (fun g => (indices_where (fun x => negb (x =? g)%Z) groups,
                       indices_where (fun x => (x =? g)%Z) groups))
            unique_groups).

Definition FilteredLeaveOneGroupOut_split (self : FilteredLeaveOneGroupOut)
    (groups : list Z) : generated :=
  match LeaveOneGroupOut_split groups with
  | Raise e => {| yielded := []; raised := Some e; final := self |}
  | Ok folds => split_over self folds
  end.

(** ** Learner utilities: [train_and_score] *)

Section TrainAndScore.

(** Labels, example collections, predictions, scores and the part of a
    learner that these utilities do not look into. *)
Context {L : Type} `{Countable L}.
Variable Examples : Type.
Variable labels : Examples -> list L.
Variable Preds : Type.
Variable Score : Type.
Variable Model : Type.

(** The store of dictionary objects, and a learner: [label_dict] is a
    reference to a dictionary of the store, so that a write through any
    alias of it is seen by the learner. *)
Record world := {
  heap : gmap nat (gmap L nat);
  label_dict : nat;
  label_list : list L;
  is_classifier : bool;
  model : Model
}.

Definition set_heap (w : world) (h : gmap nat (gmap L nat)) : world :=
  {| heap := h; label_dict := label_dict w; label_list := label_list w;
     is_classifier := is_classifier w; model := model w |}.

(** The learner's mapping as a value: what [learner.label_dict] holds. *)
Definition learner_mapping (w : world) : option (gmap L nat) :=
  heap w !! label_dict w.

(** Computations that read and write the world and may raise. *)
Definition action (A : Type) : Type := world -> world * result A.

Definition ret {A} (a : A) : action A := fun w => (w, Ok a).

Definition throw {A} (e : exn) : action A := fun w => (w, Raise e).

Definition and_then {A B} (m : action A) (k : A -> action B) : action B :=
  fun w => match m w with
           | (w', Ok a) => k a w'
           | (w', Raise e) => (w', Raise e)
           end.

Definition lift {A} (r : result A) : action A := fun w => (w, r).

(** [Learner.train], [Learner.predict], [np.unique(...).tolist()] and
    [use_score_func] are defined elsewhere. *)
Variable train : Examples -> action unit.
Variable predict_examples : Examples -> action Preds.
Variable np_unique : list L -> list L.
Variable use_score_func : string -> list (L + nat) -> Preds -> result Score.

(** [{label: i for i, label in enumerate(l, start=n)}] *)
Fixpoint enumerate_dict (l : list L) (start : nat) (d : gmap L nat)
  : gmap L nat :=
  match l with
  | [] => d
  | label :: l' => enumerate_dict l' (S start) (<[label := start]> d)
  end.

(** [d.copy()]: a new dictionary object with the entries of [d]. *)
Definition dict_copy (ref : nat) : action nat :=
  fun w =>
    match heap w !! ref with
    | None => (w, Raise (AttributeError "label_dict"))
    | Some d =>
        let new := fresh (dom (heap w)) in
        (set_heap w (<[new := d]> (heap w)), Ok new)
    end.

(** [d.update(other)]: the entries of [other] are written into the
    object [d] refers to. *)
Definition dict_update (ref : nat) (other : gmap L nat) : action unit :=
  fun w =>
    match heap w !! ref with
    | None => (w, Raise (AttributeError "update"))
    | Some d => (set_heap w (<[ref := other ∪ d]> (heap w)), Ok tt)
    end.

(** [[d[label] for label in ls]] *)
Definition dict_getitems (ref : nat) (ls : list L) : action (list (L + nat)) :=
  fun w =>
    match heap w !! ref with
    | None => (w, Raise (AttributeError "__getitem__"))
    | Some d =>
        (w, mapM (fun label => match d !! label with
                               | Some i => Ok (inr i)
                               | None => Raise KeyError
                               end) ls)
    end.

Definition get {A} (f : world -> A) : action A := fun w => (w, Ok (f w)).

Notation "'do' x <- m ; k" := (and_then m (fun x => k))
  (at level 10, x name, m at level 100, k at level 200).

(** The three calls on the learner that open [train_and_score]. *)
Definition learner_calls (train_examples test_examples : Examples)
  : action (Preds * Preds) :=
  do _ <- train train_examples;
  do train_predictions <- predict_examples train_examples;
  do test_predictions <- predict_examples test_examples;
  ret (train_predictions, test_predictions).

Definition train_and_score (train_examples test_examples : Examples)
    (metric : string) : action (Score * Score) :=
  do _ <- train train_examples;
  do train_predictions <- predict_examples train_examples;
  do test_predictions <- predict_examples test_examples;
  do classifier <- get is_classifier;
  do train_test_labels <-
    (if classifier then
       let test_label_list := np_unique (labels test_examples) in
       do learner_label_list <- get label_list;
       let unseen_test_label_list :=
         List.filter (fun label => bool_decide (label ∉ learner_label_list))
                     test_label_list in
       let unseen_label_dict :=
         enumerate_dict unseen_test_label_list (length learner_label_list) ∅ in
       do learner_label_dict <- get label_dict;
       do train_and_test_label_dict <- dict_copy learner_label_dict;
       do _ <- dict_update train_and_test_label_dict unseen_label_dict;
       do train_labels <-
         dict_getitems train_and_test_label_dict (labels train_examples);
       do test_labels <-
         dict_getitems train_and_test_label_dict (labels test_examples);
       ret (train_labels, test_labels)
     else
       ret (map inl (labels train_examples), map inl (labels test_examples)));
  do train_score <-
    lift (use_score_func metric (fst train_test_labels) train_predictions);
  do test_score <-
    lift (use_score_func metric (snd train_test_labels) test_predictions);
  ret (train_score, test_score).

End TrainAndScore.

Arguments world L {_ _} Model.
Arguments action L {_ _} Model A.
Arguments heap {L _ _ Model} _.
Arguments label_dict {L _ _ Model} _.
Arguments label_list {L _ _ Model} _.
Arguments is_classifier {L _ _ Model} _.
Arguments model {L _ _ Model} _.
Arguments learner_mapping {L _ _ Model} _.
Arguments learner_calls {L _ _ Examples Preds Model} _ _ _ _ _.
Arguments train_and_score {L _ _ Examples} _ {Preds Score Model} _ _ _ _ _ _ _ _.

(** ** Vocabulary of the properties *)

(** The fractional part of [q] is zero: [q] is an integer. *)
Definition integer_valued (q : Q) : Prop := exists z : Z, Qeq q (inject_Z z).

(** A float that is an integer; an infinity and a NaN are not. *)
Definition integer_float (x : num) : Prop :=
  match x with Fin q => integer_valued q | _ => False end.

(** Every consecutive difference is exactly 1, in an array of integers
    and in an array of floats. *)
Definition unit_steps (zs : list Z) : Prop :=
  forall (i : nat) (a b : Z),
    zs !! i = Some a -> zs !! S i = Some b -> (b - a = 1)%Z.

Definition float_unit_steps (xs : list num) : Prop :=
  forall (i : nat) (a b : num),
    xs !! i = Some a -> xs !! S i = Some b ->
    exists p q : Q, a = Fin p /\ b = Fin q /\ Qeq (q - p) 1.

(** The integers are values of the element type of width [w]. *)
Definition in_range (w : int_width) (zs : list Z) : Prop :=
  Forall (fun z => (min_int w <= z <= max_int w)%Z) zs.

(** Sorted and without repetition, as the array of the unique labels
    is. *)
Definition increasing (zs : list Z) : Prop :=
  forall (i : nat) (a b : Z),
    zs !! i = Some a -> zs !! S i = Some b -> (a < b)%Z.

(** Every consecutive difference is 1 after the wrap-around of the width:
    it is exactly 1, or it is the step from the largest integer of the
    type to the smallest. *)
Definition wrapped_unit_steps (w : int_width) (zs : list Z) : Prop :=
  forall (i : nat) (a b : Z),
    zs !! i = Some a -> zs !! S i = Some b ->
    (b - a = 1)%Z \/ (a = max_int w /\ b = min_int w).

(** What IEEE arithmetic gives on an array [xs] of values of a float
    type: the remainder of an element by 1 is zero exactly when the
    element is an integer, and the rounded difference of two consecutive
    elements that are integers is 1 exactly when their difference is
    1. *)
Definition tests_exact_on (fa : float_arithmetic) (xs : list num) : Prop :=
  (forall x : num,
     x ∈ xs -> num_eq (np_mod1 fa x) (Fin 0) = true <-> integer_float x)
  /\ (forall (i : nat) (a b : num),
        xs !! i = Some a -> xs !! S i = Some b ->
        integer_float a -> integer_float b ->
        num_eq (np_subtract fa b a) (Fin 1) = true
        <-> exists p q : Q, a = Fin p /\ b = Fin q /\ Qeq (q - p) 1).

(** The binary64 values nearest to 1.1, 1.2 and 1.3. *)
Definition f1_1 : Q := 4953959590107546 # 4503599627370496.
Definition f1_2 : Q := 5404319552844595 # 4503599627370496.
Definition f1_3 : Q := 5854679515581645 # 4503599627370496.

(** A choice of metric families, for the examples. *)
Definition example_constants : metric_constants :=
  {| CLASSIFICATION_ONLY_METRICS := {["accuracy"; "f1_score_macro"]};
     CORRELATION_METRICS := {["pearson"; "spearman"; "kendall_tau"]};
     REGRESSION_ONLY_METRICS := {["r2"; "neg_mean_squared_error"]};
     UNWEIGHTED_KAPPA_METRICS := {["unweighted_kappa"]};
     WEIGHTED_KAPPA_METRICS :=
       {["linear_weighted_kappa"; "quadratic_weighted_kappa"]} |}.

(** The indices of [index] whose example ID is in the keep-set, in the
    order of [index]. *)
Definition kept_indices (keep : gset string) (example_ids : list string)
    (index : list nat) : list nat :=
  List.filter (fun i => match example_ids !! i with
                        | Some id => bool_decide (id ∈ keep)
                        | None => false
                        end) index.

(** Every index of every fold is a row of the data. *)
Definition folds_in_range (n_samples : nat) (folds : list (list nat * list nat))
  : Prop :=
  Forall (fun fold => Forall (fun i => (i < n_samples)%nat) (fst fold)
                      /\ Forall (fun i => (i < n_samples)%nat) (snd fold)) folds.

(** A classifier class that carries an attribute named [rescale]. *)
Definition classifier_with_rescale_attr : gmap string attr :=
  <["rescale" := ABool false]>
  (<["_estimator_type" := AStr "classifier"]>
  (<["predict" := AMethod (Orig "predict")]>
  (<["fit" := AMethod (Orig "fit")]>
  (<["__init__" := AMethod (Orig "__init__")]> ∅)))).

(** A plain classifier class. *)
Definition plain_classifier : gmap string attr :=
  <["_estimator_type" := AStr "classifier"]>
  (<["_get_param_names" := AMethod (Orig "_get_param_names")]>
  (<["predict" := AMethod (Orig "predict")]>
  (<["fit" := AMethod (Orig "fit")]>
  (<["__init__" := AMethod (Orig "__init__")]> ∅)))).

(** A path is normalized when [normpath] leaves it as it is. *)
Definition is_normalized (p : string) : Prop := posixpath.normpath p = p.

(** A file system in which every path exists. *)
Definition everything_exists : string -> bool := fun _ => true.

(** A loader that reads one document, and a registry with two names. *)
Definition example_safe_load (s : string) : result yaml :=
  if String.eqb s ("[" +:+ double_quote +:+ "accuracy" +:+ double_quote +:+ ", "
                   +:+ double_quote +:+ "f1" +:+ double_quote +:+ "]")
  then Ok (YList [YStr "accuracy"; YStr "f1"])
  else Raise (ValueError "could not parse").

Definition example_list_repr (l : list yaml) : string := "[...]".

Definition example_SCORERS : gset string := {["accuracy"; "f1"; "r2"]}.

(** [lo <= x <= hi] for a finite [x]. *)
Definition within (lo hi : Q) (x : num) : Prop :=
  exists q : Q, x = Fin q /\ (lo <= q)%Q /\ (q <= hi)%Q.

(** The IEEE arithmetic of the standard library as an instance of the
    float arithmetic, in the format with [prec] bits of precision and
    exponents below [emax].  A rational is entered by rounding it to the
    format, as a decimal literal is (the quotient of its numerator and
    denominator, exact when the denominator is a power of two). *)
Section IEEE.

Variable prec : Z.
Variable emax : Z.

Definition ieee_of_Z (z : Z) : spec_float := binary_normalize prec emax z 0 false.

Definition ieee_of_Q (q : Q) : spec_float :=
  let d := Zpos (Qden q) in
  if (Qnum q =? 0)%Z then S754_zero false
  else if (d =? 2 ^ Z.log2 d)%Z then
    binary_normalize prec emax (Qnum q) (- Z.log2 d) false
  else SFdiv prec emax (ieee_of_Z (Qnum q)) (ieee_of_Z d).

Definition ieee_of_num (x : num) : spec_float :=
  match x with
  | Fin q => ieee_of_Q q
  | PosInf => S754_infinity false
  | NegInf => S754_infinity true
  | NaN => S754_nan
  end.

Definition num_of_ieee (f : spec_float) : num :=
  match f with
  | S754_zero _ => Fin 0
  | S754_infinity s => if s then NegInf else PosInf
  | S754_nan => NaN
  | S754_finite s m e =>
      let v := if (0 <=? e)%Z then inject_Z (Zpos m * 2 ^ e)
               else Zpos m # Z.to_pos (2 ^ (- e)) in
      Fin (if s then - v else v)
  end.

Definition ieee_binary (op : spec_float -> spec_float -> spec_float)
    (a b : num) : num :=
  num_of_ieee (op (ieee_of_num a) (ieee_of_num b)).

Definition ieee_add : num -> num -> num := ieee_binary (SFadd prec emax).
Definition ieee_subtract : num -> num -> num := ieee_binary (SFsub prec emax).
Definition ieee_multiply : num -> num -> num := ieee_binary (SFmul prec emax).
Definition ieee_divide : num -> num -> num := ieee_binary (SFdiv prec emax).

Definition ieee_sqrt (x : num) : num :=
  num_of_ieee (SFsqrt prec emax (ieee_of_num x)).

(** The remainder by 1 of a finite [x] is the rounding of [x - floor x]. *)
Definition ieee_mod1 (x : num) : num :=
  match x with
  | Fin q => num_of_ieee (ieee_of_Q (q - inject_Z (Qfloor q)))
  | _ => NaN
  end.

(** The elements added in their order, as numpy adds an array of fewer
    than eight elements.  (It adds a longer array in pairs, which this
    instance does not follow; the examples have three elements.) *)
Definition ieee_sum (l : list num) : num :=
  match l with
  | [] => Fin 0
  | x :: l' => fold_left ieee_add l' x
  end.

Definition ieee_mean (l : list num) : num :=
  match l with
  | [] => NaN
  | _ => ieee_divide (ieee_sum l) (Fin (inject_Z (Z.of_nat (length l))))
  end.

(** [sqrt(mean(abs(x - mean(x))**2))] *)
Definition ieee_std (l : list num) : num :=
  let m := ieee_mean l in
  ieee_sqrt (ieee_mean (map (fun x => let d := ieee_subtract x m in
                                      ieee_multiply d d) l)).

Definition ieee : float_arithmetic :=
  {| np_add := ieee_add;
     np_subtract := ieee_subtract;
     np_multiply := ieee_multiply;
     np_true_divide := ieee_divide;
     np_mod1 := ieee_mod1;
     np_mean := ieee_mean;
     np_std := ieee_std |}.

End IEEE.

Definition binary32 : float_arithmetic := ieee 24 128.
Definition binary64 : float_arithmetic := ieee 53 1024.

(** The arithmetic of each float type. *)
Definition ieee_floats (w : float_width) : float_arithmetic :=
  match w with F32 => binary32 | F64 => binary64 end.

(** The text of CPython for an operator between a float and [None]. *)
Definition cpython_none_operand (operator : string) : string :=
  if String.eqb operator "<" || String.eqb operator ">" then
    "'" +:+ operator
    +:+ "' not supported between instances of 'float' and 'NoneType'"
  else
    "unsupported operand type(s) for " +:+ operator
    +:+ ": 'float' and 'NoneType'".

(** The value that the decimal literal [0.1] denotes. *)
Definition tenth : num := num_of_ieee (ieee_of_Q 53 1024 (1 # 10)).

(** An estimator that predicts its input and learns nothing. *)
Definition echo_fit (e : unit) (x : list num) (y : list Q) : result unit := Ok e.
Definition echo_predict (e : unit) (x : list num) : result (list num) := Ok x.

(** The values that [predict] has before it applies the constraints. *)
Definition unconstrained {Est : Type} (np : float_arithmetic)
    (none_operand : string -> string) (self : rescaled_estimator Est)
    (raw : list num) : result (list num) :=
  if rescale self then
    mapM (fun r =>
            let* hm := operand none_operand "-" (yhat_mean self) in
            let* hs := operand none_operand "/" (yhat_sd self) in
            let* s := operand none_operand "*" (y_sd self) in
            let* m := operand none_operand "+" (y_mean self) in
            Ok (zscore_rescale np hm hs s m r)) raw
  else Ok raw.

(** What IEEE arithmetic gives for a division by zero and for an
    operation on its result: a quotient by zero is an infinity or a NaN,
    and so are a product and a sum of which the first operand is. *)
Definition division_by_zero_not_finite (np : float_arithmetic) : Prop :=
  (forall (a : num) (sd : Q),
     Qeq sd 0 -> is_finite (np_true_divide np a (Fin sd)) = false)
  /\ (forall a b : num,
        is_finite a = false -> is_finite (np_multiply np a b) = false)
  /\ (forall a b : num,
        is_finite a = false -> is_finite (np_add np a b) = false).

(** The labels of the test examples that the learner has not seen, as
    [train_and_score] indexes them. *)
Definition unseen_labels {L : Type} `{Countable L}
    (np_unique : list L -> list L) (learner_label_list test_labels : list L)
  : gmap L nat :=
  enumerate_dict
    (List.filter (fun label => bool_decide (label ∉ learner_label_list))
                 (np_unique test_labels))
    (length learner_label_list) ∅.

(** A learner whose [train] makes its label list and its mapping of the
    labels of the training examples, in a dictionary of its own;
    examples are given by their labels. *)
Definition fitting_train (ex : list string) : action string unit unit :=
  fun w =>
    let new := fresh (dom (heap w)) in
    ({| heap := <[new := enumerate_dict (remove_dups ex) 0 ∅]> (heap w);
        label_dict := new;
        label_list := remove_dups ex;
        is_classifier := is_classifier w;
        model := model w |}, Ok tt).

(** A learner whose [train] and [predict] change nothing, with one known
    label; examples are given by their labels. *)
Definition idle_train (ex : list string) : action string unit unit :=
  fun w => (w, Ok tt).
Definition idle_predict (ex : list string) : action string unit unit :=
  fun w => (w, Ok tt).
Definition count_score (metric : string) (ls : list (string + nat)) (p : unit)
  : result nat := Ok (length ls).
Definition example_world : world string unit :=
  {| heap := {[ 0%nat := {[ "a" := 0%nat ]} ]};
     label_dict := 0%nat;
     label_list := ["a"];
     is_classifier := true;
     model := tt |}.

(** * Further vocabulary *)

(** The numbers are the run [z, z+1, z+2, ...] of consecutive integers,
    in an array of integers and in an array of floats. *)
Definition integer_run (z : Z) (zs : list Z) : Prop :=
  forall (i : nat) (a : Z), zs !! i = Some a -> a = (z + Z.of_nat i)%Z.

Definition float_run (z : Z) (xs : list num) : Prop :=
  forall (i : nat) (x : num),
    xs !! i = Some x ->
    exists q : Q, x = Fin q /\ Qeq q (inject_Z (z + Z.of_nat i)).

(** The message of the validator for the deprecated metric name. *)
Definition deprecated_metric_message : string :=
  "The metric " +:+ double_quote +:+ "mean_squared_error"
  +:+ double_quote +:+ " is no longer supported."
  +:+ " please use the metric " +:+ double_quote
  +:+ "neg_mean_squared_error" +:+ double_quote
  +:+ " instead.".

(** A loader for one document with a deprecated and an unhashable item. *)
Definition deprecated_safe_load (s : string) : result yaml :=
  Ok (YList [YList []; YStr "no_such_metric"; YStr "mean_squared_error"]).

(** A loader for one document with two names that are not registered. *)
Definition unregistered_safe_load (s : string) : result yaml :=
  Ok (YList [YStr "bogus"; YStr "accuracy"; YStr "nope"]).

(** [p in s] for two strings: [p] starts at some position of [s]. *)
Fixpoint str_contains (s p : string) : bool :=
  (startswith s p
   || match s with
      | EmptyString => false
      | String _ s' => str_contains s' p
      end)%bool.

(** [t] is [s] with some characters [a] turned into [b]. *)
Inductive char_swapped (a b : ascii) : string -> string -> Prop :=
| swapped_nil : char_swapped a b EmptyString EmptyString
| swapped_same (c : ascii) (s t : string) :
    char_swapped a b s t -> char_swapped a b (String c s) (String c t)
| swapped_swap (s t : string) :
    char_swapped a b s t -> char_swapped a b (String a s) (String b t).

(** Some index of some fold has an example ID outside the keep-set. *)
Definition drops_some (self : FilteredLeaveOneGroupOut)
    (folds : list (list nat * list nat)) : Prop :=
  exists (fold : list nat * list nat) (i : nat) (id : string),
    fold ∈ folds /\ i ∈ (fst fold ++ snd fold)%list
    /\ example_ids self !! i = Some id /\ id ∉ keep self.

(** A splitter over four examples that keeps two of them. *)
Definition example_splitter : FilteredLeaveOneGroupOut :=
  {| keep := {["A"; "C"]}; example_ids := ["A"; "B"; "C"; "D"];
     _warned := false; warnings := [] |}.

(** The names of the attributes that [rescaled] writes. *)
Definition rescaled_attrs : list string :=
  ["__init__"; "fit"; "predict"; "_get_param_names"; "rescale"].

(** A plain regressor class. *)
Definition plain_regressor : gmap string attr :=
  <["_estimator_type" := AStr "regressor"]>
  (<["_get_param_names" := AMethod (Orig "_get_param_names")]>
  (<["predict" := AMethod (Orig "predict")]>
  (<["fit" := AMethod (Orig "fit")]>
  (<["__init__" := AMethod (Orig "__init__")]> ∅)))).

(** The labels of [np_unique test_labels] that the learner does not
    know, in their order. *)
Definition unseen_list {L : Type} `{Countable L}
    (np_unique : list L -> list L) (learner_label_list test_labels : list L)
  : list L :=
  List.filter (fun label => bool_decide (label ∉ learner_label_list))
              (np_unique test_labels).

(** The indices of [ls] in the mapping [m], as [train_and_score] passes
    them to the scoring function. *)
Definition indices_in {L : Type} `{Countable L} (m : gmap L nat)
    (ls : list L) (idx : list (L + nat)) : Prop :=
  Forall2 (fun l i => exists k : nat, i = inr k /\ m !! l = Some k) ls idx.

(** A learner that knows the labels [a] and [b], before a test set that
    also has [c] and [d]. *)
Definition two_label_world : world string unit :=
  {| heap := {[ 7%nat := {[ "a" := 0%nat; "b" := 1%nat ]} ]};
     label_dict := 7%nat;
     label_list := ["a"; "b"];
     is_classifier := true;
     model := tt |}.

(** A learner that is not a classifier. *)
Definition regressor_world : world string unit :=
  {| heap := ∅;
     label_dict := 0%nat;
     label_list := [];
     is_classifier := false;
     model := tt |}.

(** * Further embeddings *)

(** ** Learner utilities: [SelectByMinCount] *)

(** A two-dimensional numpy array: its shape and its rows. *)
Record dense_array := {
  dense_shape : nat * nat;
  dense_rows : list (list Q)
}.

(** Every row has as many entries as the shape says, and there are as
    many rows as it says. *)
Definition well_shaped (a : dense_array) : Prop :=
  length (dense_rows a) = fst (dense_shape a)
  /\ Forall (fun row => length row = snd (dense_shape a)) (dense_rows a).

(** The training data of the selector: sparse or dense. *)
Inductive count_input :=
| CountSparse (m : sparse)
| CountDense (a : dense_array).

(** [X.shape[1]] *)
Definition n_columns (X : count_input) : nat :=
  match X with
  | CountSparse m => snd (shape m)
  | CountDense a => snd (dense_shape a)
  end.

(** The column indices of the nonzero entries of one row, in order. *)
Definition row_nonzero (row : list Q) : list nat :=
  map fst (List.filter (fun jv : nat * Q => negb (Qeq_bool (snd jv) 0))
                       (combine (seq 0 (length row)) row)).

(** [X.nonzero()[1].tolist()]: the column indices of the nonzero entries
    of a dense array, row by row. *)
Definition nonzero_columns (rows : list (list Q)) : list nat :=
  concat (map row_nonzero rows).

(** The column indices that [sp.find(X)] returns: those of the nonzero
    entries of the matrix, entries at one position added up. *)
Definition sp_find_columns (m : sparse) : list nat :=
  nonzero_columns (todense m).

Record SelectByMinCount := {
  min_count : Z;
  scores_ : option (list nat)
}.

(** [SelectByMinCount(min_count)] *)
Definition SelectByMinCount_init (min_count : Z) : SelectByMinCount :=
  {| min_count := min_count; scores_ := None |}.

(** [col_counts[i] += 1] *)
Definition increment (col_counts : list nat) (i : nat) : result (list nat) :=
  match col_counts !! i with
  | Some c => Ok (<[i := S c]> col_counts)
  | None => Raise IndexError
  end.

(** [for i in col_indices: col_counts[i] += 1] *)
Fixpoint count_indices (col_indices : list nat) (col_counts : list nat)
  : result (list nat) :=
  match col_indices with
  | [] => Ok col_counts
  | i :: rest =>
      let* col_counts := increment col_counts i in
      count_indices rest col_counts
  end.

Definition SelectByMinCount_fit (self : SelectByMinCount) (X : count_input)
  : result SelectByMinCount :=
  let col_counts := replicate (n_columns X) 0%nat in
  let col_indices :=
    match X with
    | CountSparse m => sp_find_columns m
    | CountDense a => nonzero_columns (dense_rows a)
    end in
  let* col_counts := count_indices col_indices col_counts in
  Ok {| min_count := min_count self; scores_ := Some col_counts |}.

Definition _get_support_mask (self : SelectByMinCount) : result (list bool) :=
  match scores_ self with
  | None => Raise (AttributeError "shape")
  | Some scores => Ok (map (fun c => (min_count self <=? Z.of_nat c)%Z) scores)
  end.

(** The rows that the selector sees. *)
Definition input_rows (X : count_input) : list (list Q) :=
  match X with
  | CountSparse m => todense m
  | CountDense a => dense_rows a
  end.

(** The number of rows with a nonzero entry in column [j]. *)
Definition column_count (j : nat) (rows : list (list Q)) : nat :=
  length (List.filter (fun row => match row !! j with
                                  | Some v => negb (Qeq_bool v 0)
                                  | None => false
                                  end) rows).

(** Three examples over two features; the second feature occurs once. *)
Definition example_counts : dense_array :=
  {| dense_shape := (3%nat, 2%nat);
     dense_rows := [[1; 0]; [2; 5]; [0 # 3; 0]]%Q |}.

(** How often [j] occurs in a list of indices. *)
Definition occurrences (j : nat) (l : list nat) : nat :=
  length (List.filter (Nat.eqb j) l).

(** The data are well formed: a dense array is well shaped (a sparse
    matrix is so by what [todense] does). *)
Definition well_formed_input (X : count_input) : Prop :=
  match X with
  | CountSparse _ => True
  | CountDense a => well_shaped a
  end.

(** ** Configuration utilities: [load_cv_folds] *)

(** Exceptions beyond those above, and the results that can hold them. *)
Inductive exception :=
| Builtin (e : exn)
| StopIteration
| RuntimeError (msg : string).

Inductive outcome (A : Type) :=
| Returns (a : A)
| Raises (e : exception).
Arguments Returns {A} a.
Arguments Raises {A} e.

(** What [float(s)] returns: a NaN, or a float that is equal to
    itself. *)
Inductive float_value (F : Type) :=
| nan
| number (f : F).
Arguments nan {F}.
Arguments number {F} f.

(** The keys of the dictionary: a string, a float, or a NaN.  A NaN is
    equal to no float, itself included, so a dictionary finds a key that
    is a NaN by the identity of the object only; [float] makes a new
    object at every call, so the NaN made for a row is a key of its own.
    It is named by the number of the row. *)
Definition fold_id (F : Type) : Type := (string + (F + nat))%type.
Definition str_key {F : Type} (s : string) : fold_id F := inl s.
Definition float_key {F : Type} (f : F) : fold_id F := inr (inl f).
Definition nan_key {F : Type} (row : nat) : fold_id F := inr (inr row).

Section LoadFolds.

(** The floats that [float()] makes of strings, NaN apart, with their
    equality. *)
Context {F : Type} `{Countable F}.

(** [float(s)]: [None] stands for its [ValueError]. *)
Variable py_float : string -> option (float_value F).

(** [open(folds_file)] read through [csv.reader]: the rows of the file,
    or the error of [open]. *)
Variable read_csv : string -> result (list (list string)).

Definition float_error (id : string) : exception :=
  Builtin (ValueError ("You set ids_to_floats to true, but ID " +:+ id
                       +:+ " could not be converted to float")).

(** The key that [float(id)] is in row [n]. *)
Definition key_of_float (n : nat) (v : float_value F) : fold_id F :=
  match v with
  | nan => nan_key n
  | number f => float_key f
  end.

(** The body of the loop over the rows after the header; [n] is the
    number of the row. *)
Fixpoint load_rows (ids_to_floats : bool) (rows : list (list string))
    (n : nat) (res : gmap (fold_id F) string)
  : outcome (gmap (fold_id F) string) :=
  match rows with
  | [] => Returns res
  | row :: rest =>
      if ids_to_floats then
        match row !! 0%nat with
        | None => Raises (Builtin IndexError)
        | Some id =>
            match py_float id with
            | None => Raises (float_error id)
            | Some v =>
                match row !! 1%nat with
                | None => Raises (Builtin IndexError)
                | Some fold =>
                    load_rows ids_to_floats rest (S n)
                      (<[key_of_float n v := fold]> res)
                end
            end
        end
      else
        match row !! 1%nat with
        | None => Raises (Builtin IndexError)
        | Some fold =>
            match row !! 0%nat with
            | None => Raises (Builtin IndexError)
            | Some id =>
                load_rows ids_to_floats rest (S n) (<[str_key id := fold]> res)
            end
        end
  end.

Definition load_cv_folds (folds_file : string) (ids_to_floats : bool)
  : outcome (gmap (fold_id F) string) :=
  match read_csv folds_file with
  | Raise e => Raises (Builtin e)
  | Ok [] => Raises StopIteration
  | Ok (_ :: rows) => load_rows ids_to_floats rows 0 ∅
  end.

End LoadFolds.

(** The key under which row [n] is stored. *)
Definition fold_key {F : Type} (py_float : string -> option (float_value F))
    (ids_to_floats : bool) (n : nat) (id : string) : option (fold_id F) :=
  if ids_to_floats then key_of_float n <$> py_float id
  else Some (str_key id).

(** The rows after position [i] do not have the key [key]. *)
Definition last_with_key {F : Type}
    (py_float : string -> option (float_value F))
    (b : bool) (rows : list (list string)) (i : nat) (key : fold_id F)
  : Prop :=
  forall (i' : nat) (row' : list string) (id' : string),
    (i < i')%nat -> rows !! i' = Some row' -> row' !! 0%nat = Some id' ->
    fold_key py_float b i' id' <> Some key.

(** A folds file and a parser of the decimal numbers in it. *)
Definition example_folds_file (name : string) : result (list (list string)) :=
  Ok [["id"; "fold"]; ["1"; "a"]; ["2"; "b"]; ["1"; "c"]].

Definition example_float (s : string) : option (float_value Z) :=
  if String.eqb s "1" then Some (number 1%Z)
  else if String.eqb s "1.0" then Some (number 1%Z)
  else if String.eqb s "2" then Some (number 2%Z)
  else if String.eqb s "nan" then Some nan
  else None.

(** ** Configuration utilities: [_munge_featureset_name] *)

(** A featureset: a name, or a collection of names. *)
Inductive featureset :=
| FeaturesetName (s : string)
| FeaturesetNames (l : list string).

(** The order of Python on strings: lexicographic on the characters. *)
Definition str_le (a b : string) : Prop := String.leb a b = true.

#[global] Instance str_le_dec : RelDecision str_le :=
  fun a b => decide (String.leb a b = true).

(** [sorted(l)]: the sort of Python is a stable merge of runs. *)
Definition sorted (l : list string) : list string := merge_sort str_le l.

(** [sep.join(l)] *)
Fixpoint str_join (sep : string) (l : list string) : string :=
  match l with
  | [] => ""
  | [s] => s
  | s :: rest => s +:+ sep +:+ str_join sep rest
  end.

Definition _munge_featureset_name (fs : featureset) : string :=
  match fs with
  | FeaturesetName s => s
  | FeaturesetNames l => str_join "+" (sorted l)
  end.

(** ** Learner utilities: [load_custom_learner] *)

(** [s[:n]] and [s[n:]] *)
Fixpoint str_take (n : nat) (s : string) : string :=
  match n, s with
  | S k, String c s' => String c (str_take k s')
  | _, _ => EmptyString
  end.

Fixpoint str_drop (n : nat) (s : string) : string :=
  match n, s with
  | S k, String _ s' => str_drop k s'
  | _, _ => s
  end.

(** [s.endswith(suffix)] *)
Definition endswith (s suffix : string) : bool :=
  ((String.length suffix <=? String.length s)%nat
   && String.eqb (str_drop (String.length s - String.length suffix) s) suffix)%bool.

(** [os.path.basename(p)]: what follows the last ['/'] of [p]. *)
Fixpoint basename (p : string) : string :=
  match p with
  | EmptyString => EmptyString
  | String c p' =>
      if str_contains p' "/" then basename p'
      else if Ascii.eqb c "/" then p' else p
  end.

(** [s.rstrip('/')] *)
Fixpoint rstrip_sep (s : string) : string :=
  match s with
  | EmptyString => EmptyString
  | String c s' =>
      match rstrip_sep s' with
      | EmptyString => if Ascii.eqb c "/" then EmptyString else String c EmptyString
      | t => String c t
      end
  end.

(** [os.path.dirname(p)]: what precedes the basename, without its
    trailing slashes unless it consists of slashes only. *)
Definition dirname (p : string) : string :=
  let head := str_take (String.length p - String.length (basename p)) p in
  match rstrip_sep head with
  | EmptyString => head
  | stripped => stripped
  end.

(** [os.path.abspath(p)] in the working directory [cwd]. *)
Definition abspath (cwd p : string) : string :=
  posixpath.normpath (if posixpath.isabs p then p else posixpath.join cwd p).

Section CustomLearner.

(** The objects that modules hold. *)
Variable Obj : Type.

(** What the function touches of the interpreter: [sys.path] and
    [sys.modules], a module being the table of its attributes. *)
Record interpreter := {
  sys_path : list string;
  sys_modules : gmap string (gmap string Obj)
}.

(** [os.getcwd()] and [importlib.import_module]. *)
Variable cwd : string.
Variable import_module : string -> interpreter -> interpreter * result unit.

Definition sys_path_append (dir : string) (st : interpreter) : interpreter :=
  {| sys_path := sys_path st ++ [dir]; sys_modules := sys_modules st |}.

(** The path is [None] or a string. *)
Definition load_custom_learner (custom_learner_path : option string)
    (custom_learner_name : string) (st : interpreter)
  : interpreter * result Obj :=
  match custom_learner_path with
  | None | Some EmptyString =>
      (st, Raise (ValueError ("custom_learner_path was not set and learner "
                              +:+ custom_learner_name +:+ " was not found.")))
  | Some path =>
      if negb (endswith path ".py") then
        (st, Raise (ValueError ("custom_learner_path must end in .py ("
                                +:+ path +:+ ")")))
      else
        let b := basename path in
        let custom_learner_module_name := str_take (String.length b - 3) b in
        let st := sys_path_append (dirname (abspath cwd path)) st in
        match import_module custom_learner_module_name st with
        | (st, Raise e) => (st, Raise e)
        | (st, Ok _) =>
            match sys_modules st !! custom_learner_module_name with
            | None => (st, Raise KeyError)
            | Some module =>
                match module !! custom_learner_name with
                | None => (st, Raise (AttributeError custom_learner_name))
                | Some learner => (st, Ok learner)
                end
            end
        end
  end.

End CustomLearner.

Arguments sys_path {Obj} _.
Arguments sys_modules {Obj} _.
Arguments sys_path_append {Obj} _ _.
Arguments load_custom_learner {Obj} _ _ _ _ _.

(** An interpreter with one module on its path already, and an import
    that finds the module [my_learner] with one class in it. *)
Definition example_interpreter : interpreter nat :=
  {| sys_path := ["/usr/lib/python3"]; sys_modules := ∅ |}.

Definition example_import (name : string) (st : interpreter nat)
  : interpreter nat * result unit :=
  if String.eqb name "my_learner" then
    ({| sys_path := sys_path st;
        sys_modules := <[name := {[ "MyLearner" := 7%nat ]}]> (sys_modules st) |},
     Ok tt)
  else (st, Raise (ValueError "No module named that")).

(** ** The [rescaled] decorator: the installed [_get_param_names] *)

(** What [inspect.getargspec] tells of a function: the names of its
    positional parameters and the name of its [*args] parameter, if it
    has one; for an object that is no Python function it raises
    [TypeError], and for a function with keyword-only parameters or
    annotations [ValueError]. *)
Inductive argspec :=
| ArgSpec (args : list string) (varargs : option string)
| NotAFunction
| HasKeywordOnly.

(** [args.pop(0)], for its effect on [args]. *)
Definition pop_first (args : list string) : outcome (list string) :=
  match args with
  | [] => Raises (Builtin IndexError)
  | _ :: rest => Returns rest
  end.

Definition varargs_message : string :=
  "scikit-learn estimators should always specify their parameters in the signature of their init (no varargs).".

(** [orig_init] is the constructor of the class before the decoration
    (or its [deprecated_original]), [class_x_init] the constructor of
    the class the method is called on. *)
Definition keyword_only_error : exception :=
  Builtin (ValueError "Function has keyword-only parameters or annotations, use inspect.signature() API which can support them").

Definition _get_param_names (orig_init class_x_init : argspec)
  : outcome (list string) :=
  let args :=
    match orig_init with
    | NotAFunction => Returns []
    | HasKeywordOnly => Raises keyword_only_error
    | ArgSpec args (Some _) => Raises (RuntimeError varargs_message)
    | ArgSpec args None => pop_first args
    end in
  match args with
  | Raises e => Raises e
  | Returns args =>
      match class_x_init with
      | NotAFunction =>
          Raises (Builtin (TypeError "unsupported callable"))
      | HasKeywordOnly => Raises keyword_only_error
      | ArgSpec rescale_args _ =>
          match pop_first rescale_args with
          | Raises e => Raises e
          | Returns rescale_args => Returns (sorted (args ++ rescale_args))
          end
      end
  end.

(** The signature of the constructor that [rescaled] installs. *)
Definition rescaled_init_spec : argspec :=
  ArgSpec ["self"; "constrain"; "rescale"] None.

(** * Properties *)

(** ** The contiguity check *)

Lemma np_all_map {A} (f : A -> bool) (l : list A) :
  np_all (map f l) = true <-> Forall (fun a => f a = true) l.
Proof.
  unfold np_all. induction l as [|a l IH]; simpl.
  - split; [constructor | reflexivity].
  - unfold id at 1. rewrite andb_true_iff, IH, Forall_cons. reflexivity.
Qed.

(** The test holds of every difference exactly when it holds of the
    difference of every two consecutive elements. *)
Lemma np_diff_all {A} (subtract : A -> A -> A) (test : A -> bool) (l : list A) :
  np_all (map test (np_diff subtract l)) = true
  <-> forall (i : nat) (a b : A),
        l !! i = Some a -> l !! S i = Some b -> test (subtract b a) = true.
Proof.
  unfold np_all. induction l as [|a [|b l] IH].
  - simpl. split; [intros _ i a b Ha; destruct i; discriminate Ha | reflexivity].
  - simpl. split; [intros _ i x y _ Hy; destruct i; discriminate Hy | reflexivity].
  - change (np_diff subtract (a :: b :: l))
      with (subtract b a :: np_diff subtract (b :: l)).
    cbn [map forallb]. unfold id at 1.
    rewrite andb_true_iff, IH. split.
    + intros [E Hl] [|i] x y Hx Hy.
      * cbn in Hx, Hy. injection Hx as <-. injection Hy as <-. exact E.
      * exact (Hl i x y Hx Hy).
    + intros Hl. split.
      * exact (Hl 0%nat a b eq_refl eq_refl).
      * intros i x y Hx Hy. exact (Hl (S i) x y Hx Hy).
Qed.

(** A wrapped difference of two integers of the type is 1 when the
    difference is 1, and when it is the step from the largest to the
    smallest integer; in no other case. *)
Lemma wrap_one (w : int_width) (a b : Z) :
  (min_int w <= a <= max_int w)%Z -> (min_int w <= b <= max_int w)%Z ->
  (wrap w (b - a) =? 1)%Z = true
  <-> (b - a = 1)%Z \/ (a = max_int w /\ b = min_int w).
Proof.
  rewrite Z.eqb_eq. unfold wrap, min_int, max_int.
  destruct w; unfold bits.
  - replace (2 ^ (32 - 1))%Z with 2147483648%Z by reflexivity.
    replace (2 ^ 32)%Z with 4294967296%Z by reflexivity.
    intros Ha Hb. Z.to_euclidean_division_equations. lia.
  - replace (2 ^ (64 - 1))%Z with 9223372036854775808%Z by reflexivity.
    replace (2 ^ 64)%Z with 18446744073709551616%Z by reflexivity.
    intros Ha Hb. Z.to_euclidean_division_equations. lia.
Qed.

Section ContiguityProperties.

Variable np : float_width -> float_arithmetic.

Lemma contiguous_empty (numbers : array) :
  len numbers = 0%nat ->
  contiguous_ints_or_floats np numbers
  = Raise (ValueError "Input cannot be empty.").
Proof.
  intros E. unfold contiguous_ints_or_floats. rewrite E. reflexivity.
Qed.

Lemma contiguous_text (ss : list string) :
  ss <> [] ->
  contiguous_ints_or_floats np (Texts ss)
  = Raise (TypeError "Input should only contain numbers.").
Proof. intros Hne. destruct ss; [contradiction | reflexivity]. Qed.

(** On integers of the type the answer is that of the wrapped
    differences. *)
Lemma contiguous_on_ints (w : int_width) (zs : list Z) :
  zs <> [] -> in_range w zs ->
  exists answer : bool,
    contiguous_ints_or_floats np (Ints w zs) = Ok answer
    /\ (answer = true <-> wrapped_unit_steps w zs).
Proof.
  intros Hne Hrange. eexists. split.
  - unfold contiguous_ints_or_floats. destruct zs; [contradiction | reflexivity].
  - rewrite andb_true_iff, np_all_map,
      (np_diff_all (fun b a => wrap w (b - a)) (fun d => (d =? 1)%Z)).
    unfold in_range in Hrange. rewrite Forall_lookup in Hrange.
    unfold wrapped_unit_steps. split.
    + intros [_ Hs] i a b Ha Hb.
      apply (wrap_one w a b); eauto.
    + intros Hs. split.
      * apply Forall_forall. intros z _. now rewrite Z.mod_1_r.
      * intros i a b Ha Hb. apply (wrap_one w a b); eauto.
Qed.

(** On a sorted array of integers of the type no difference wraps. *)
Lemma increasing_no_wrap (w : int_width) (zs : list Z) :
  in_range w zs -> increasing zs ->
  wrapped_unit_steps w zs <-> unit_steps zs.
Proof.
  intros Hrange Hinc. unfold in_range in Hrange.
  rewrite Forall_lookup in Hrange. split.
  - intros Hs i a b Ha Hb. destruct (Hs i a b Ha Hb) as [E|[Ea Eb]]; [exact E|].
    pose proof (Hinc i a b Ha Hb). pose proof (Hrange _ _ Ha).
    pose proof (Hrange _ _ Hb). lia.
  - intros Hs i a b Ha Hb. left. exact (Hs i a b Ha Hb).
Qed.

(** On floats the answer is that of the two tests, which IEEE arithmetic
    decides as the rationals do. *)
Lemma contiguous_on_floats (w : float_width) (xs : list num) :
  xs <> [] -> tests_exact_on (np w) xs ->
  exists answer : bool,
    contiguous_ints_or_floats np (Floats w xs) = Ok answer
    /\ (answer = true <-> Forall integer_float xs /\ float_unit_steps xs).
Proof.
  intros Hne [Hmod Hsub]. eexists. split.
  - unfold contiguous_ints_or_floats. destruct xs; [contradiction | reflexivity].
  - rewrite andb_true_iff, np_all_map,
      (np_diff_all (np_subtract (np w)) (fun d => num_eq d (Fin 1))).
    rewrite !Forall_forall. unfold float_unit_steps. split.
    + intros [Hi Hs].
      assert (Hint : forall x, x ∈ xs -> integer_float x)
        by (intros x Hx; apply Hmod; [exact Hx | exact (Hi x Hx)]).
      split; [exact Hint|]. intros i a b Ha Hb.
      apply (Hsub i a b Ha Hb).
      * apply Hint. eapply list_elem_of_lookup_2, Ha.
      * apply Hint. eapply list_elem_of_lookup_2, Hb.
      * exact (Hs i a b Ha Hb).
    + intros [Hint Hs]. split.
      * intros x Hx. apply Hmod; [exact Hx | exact (Hint x Hx)].
      * intros i a b Ha Hb. apply (Hsub i a b Ha Hb).
        -- apply Hint. eapply list_elem_of_lookup_2, Ha.
        -- apply Hint. eapply list_elem_of_lookup_2, Hb.
        -- exact (Hs i a b Ha Hb).
Qed.

(** C3: the [int64] array of the largest and the smallest integer of the
    type is not contiguous, its one difference being [1 - 2^64], and
    [contiguous_ints_or_floats] returns [True] on it: [np.diff]
    subtracts in the width of the array, where that difference wraps
    around to 1. *)
Theorem contiguous_ints_or_floats_wraps :
  contiguous_ints_or_floats np
    (Ints W64 [9223372036854775807; -9223372036854775808]%Z) = Ok true
  /\ in_range W64 [9223372036854775807; -9223372036854775808]%Z
  /\ ~ unit_steps [9223372036854775807; -9223372036854775808]%Z.
Proof.
  split; [reflexivity|]. split.
  - repeat constructor; discriminate.
  - intros Hs. specialize (Hs 0%nat _ _ eq_refl eq_refl). discriminate Hs.
Qed.

End ContiguityProperties.

(** The tests of IEEE arithmetic on the floats 4, 5 and 6. *)
Lemma tests_exact_on_4_5_6 : tests_exact_on binary64 [Fin 4; Fin 5; Fin 6].
Proof.
  split.
  - intros x Hx.
    assert (Hc : x = Fin 4 \/ x = Fin 5 \/ x = Fin 6).
    { repeat (apply elem_of_cons in Hx as [-> | Hx]; [tauto|]). inversion Hx. }
    destruct Hc as [-> | [-> | ->]]; (split; [intros _ | intros _; reflexivity]).
    + exists 4%Z. reflexivity.
    + exists 5%Z. reflexivity.
    + exists 6%Z. reflexivity.
  - intros [|[|[|i]]] a b Ha Hb _ _; try discriminate Hb;
      injection Ha as <-; injection Hb as <-;
      (split; [intros _ | intros _; reflexivity]).
    + exists 4%Q, 5%Q. repeat split; reflexivity.
    + exists 5%Q, 6%Q. repeat split; reflexivity.
Qed.

(** The examples of the documentation, in binary64 arithmetic. *)
Lemma contiguous_examples :
  contiguous_ints_or_floats ieee_floats (Ints W64 [1; 2; 3]%Z) = Ok true
  /\ contiguous_ints_or_floats ieee_floats (Floats F64 [Fin 4; Fin 5; Fin 6])
     = Ok true
  /\ contiguous_ints_or_floats ieee_floats
       (Floats F64 [Fin f1_1; Fin f1_2; Fin f1_3]) = Ok false
  /\ contiguous_ints_or_floats ieee_floats (Floats F64 [])
     = Raise (ValueError "Input cannot be empty.")
  /\ contiguous_ints_or_floats ieee_floats (Texts ["a"; "b"])
     = Raise (TypeError "Input should only contain numbers.").
Proof. repeat split; vm_compute; reflexivity. Qed.

(** ** The metric compatibility resolver *)




(** ** The [rescaled] decorator refuses classifiers *)

(** C6: a classifier class that has an attribute named [rescale] is
    handed back by the decorator as it is, and nothing is raised: the
    test [hasattr(cls, 'rescale')], meant for a class that has already
    been decorated, comes before the test for classifiers. *)
Theorem rescaled_classifier_with_rescale_attr :
  is_classifier_class classifier_with_rescale_attr
  /\ rescaled classifier_with_rescale_attr = Ok classifier_with_rescale_attr.
Proof. split; vm_compute; reflexivity. Qed.

(** X30: applied to a classifier class (with [__init__], [fit] and
    [predict], as every estimator class has) that has no attribute named
    [rescale], the decorator raises [ValueError], and it does so in the
    decoration itself: no decorated class is returned. *)
Theorem rescaled_classifier_raises (cls : gmap string attr) :
  is_classifier_class cls ->
  is_Some (cls !! "__init__") ->
  is_Some (cls !! "fit") ->
  is_Some (cls !! "predict") ->
  cls !! "rescale" = None ->
  rescaled cls
  = Raise (ValueError "Classifiers cannot be rescaled. Only regressors can.").
Proof.
  intros Hc [i Hi] [f Hf] [p Hp] Hr. unfold rescaled, hasattr, getattr.
  rewrite Hr, Hi, Hf, Hp, Hc. reflexivity.
Qed.

Lemma rescaled_classifier_raises_witness :
  rescaled plain_classifier
  = Raise (ValueError "Classifiers cannot be rescaled. Only regressors can.").
Proof.
  apply (rescaled_classifier_raises plain_classifier).
  - reflexivity.
  - eexists; reflexivity.
  - eexists; reflexivity.
  - eexists; reflexivity.
  - reflexivity.
Defined.

(** ** [Densifier] *)

(** C9: whatever [X] and [y] are, [fit_transform] returns the
    [Densifier] itself; [transform] on a sparse [X] returns the dense
    matrix, so [fit_transform] does not return what [transform] does. *)
Theorem Densifier_fit_transform_returns_self
    (self : Densifier) (X : features) (y : option (list Q)) :
  Densifier_methods.fit_transform self X y = Ok (OutEstimator self)
  /\ (forall m : sparse,
        Densifier_methods.transform self (SparseMatrix m)
        = Ok (OutMatrix (todense m)))
  /\ Densifier_methods.fit_transform self X y
     <> Densifier_methods.transform self X.
Proof.
  split; [reflexivity|]. split; [reflexivity|].
  destruct X; discriminate.
Qed.

(** ** The filtered group-holdout splitter *)

Lemma filter_index_kept (self : FilteredLeaveOneGroupOut) (index l : list nat) :
  filter_index self index = Ok l ->
  l = kept_indices (keep self) (example_ids self) index.
Proof.
  unfold filter_index, kept_indices. revert l.
  induction index as [|i index IH]; intros l; simpl.
  - now intros [= <-].
  - destruct (example_ids self !! i) as [id|]; simpl; [|discriminate].
    destruct (filterM _ index) as [r|e]; simpl; [|discriminate].
    intros [= <-]. rewrite (IH r eq_refl). reflexivity.
Qed.

Lemma filter_index_in_range (self : FilteredLeaveOneGroupOut) (index : list nat) :
  Forall (fun i => (i < length (example_ids self))%nat) index ->
  filter_index self index
  = Ok (kept_indices (keep self) (example_ids self) index).
Proof.
  unfold filter_index, kept_indices.
  induction 1 as [|i index Hi _ IH]; simpl; [reflexivity|].
  destruct (lookup_lt_is_Some_2 _ _ Hi) as [id ->]. simpl.
  rewrite IH. reflexivity.
Qed.

Lemma split_over_yielded (folds : list (list nat * list nat)) :
  forall (self : FilteredLeaveOneGroupOut) (k : nat) (pair : list nat * list nat),
    yielded (split_over self folds) !! k = Some pair ->
    exists train_index test_index,
      folds !! k = Some (train_index, test_index)
      /\ pair = (kept_indices (keep self) (example_ids self) train_index,
                 kept_indices (keep self) (example_ids self) test_index).
Proof.
  induction folds as [|[tr te] rest IH]; intros self k pair; simpl.
  - intros Hk. destruct k; discriminate Hk.
  - destruct (filter_index self tr) as [tr'|e] eqn:Htr;
      [|intros Hk; destruct k; discriminate Hk].
    destruct (filter_index self te) as [te'|e] eqn:Hte;
      [|intros Hk; destruct k; discriminate Hk].
    simpl. destruct k as [|k]; simpl.
    + intros [= <-]. exists tr, te. split; [reflexivity|].
      now rewrite (filter_index_kept _ _ _ Htr), (filter_index_kept _ _ _ Hte).
    + intros Hk. apply IH in Hk as (a & b & Hf & ->).
      exists a, b. split; [exact Hf|].
      match goal with |- context [if ?c then _ else _] => destruct c end;
        reflexivity.
Qed.

Lemma split_over_in_range (folds : list (list nat * list nat)) :
  forall self : FilteredLeaveOneGroupOut,
    folds_in_range (length (example_ids self)) folds ->
    raised (split_over self folds) = None
    /\ yielded (split_over self folds)
       = map (fun fold =>
                (kept_indices (keep self) (example_ids self) (fst fold),
                 kept_indices (keep self) (example_ids self) (snd fold)))
             folds.
Proof.
  induction folds as [|[tr te] rest IH]; intros self Hr; simpl.
  - split; reflexivity.
  - apply Forall_cons in Hr as [[Htr Hte] Hr]. simpl in Htr, Hte.
    rewrite (filter_index_in_range _ _ Htr), (filter_index_in_range _ _ Hte).
    simpl.
    match goal with |- context [split_over ?s rest] =>
      assert (Hs : keep s = keep self /\ example_ids s = example_ids self)
        by (destruct (_ && _)%bool; split; reflexivity);
      destruct Hs as [Hk He]; specialize (IH s);
      rewrite He, Hk in IH; destruct (IH Hr) as [-> ->]
    end.
    split; reflexivity.
Qed.

(** C8: every pair that the filtered splitter yields is the pair of the
    underlying split at the same position, each index list reduced to
    the indices whose example ID is in the keep-set, in their order; when
    all indices of the underlying split are rows of the data, every pair
    of the underlying split is yielded so and nothing is raised.  With
    example IDs [A,B,C,D] and keep-set {A,C}, train [0,1] / test [2,3]
    becomes train [0] / test [2]. *)
Theorem FilteredLeaveOneGroupOut_split_filters
    (self : FilteredLeaveOneGroupOut) (folds : list (list nat * list nat)) :
  (forall (k : nat) (pair : list nat * list nat),
     yielded (split_over self folds) !! k = Some pair ->
     exists train_index test_index,
       folds !! k = Some (train_index, test_index)
       /\ pair = (kept_indices (keep self) (example_ids self) train_index,
                  kept_indices (keep self) (example_ids self) test_index))
  /\ (folds_in_range (length (example_ids self)) folds ->
      raised (split_over self folds) = None
      /\ yielded (split_over self folds)
         = map (fun fold =>
                  (kept_indices (keep self) (example_ids self) (fst fold),
                   kept_indices (keep self) (example_ids self) (snd fold)))
               folds)
  /\ yielded (split_over
                {| keep := {["A"; "C"]}; example_ids := ["A"; "B"; "C"; "D"];
                   _warned := false; warnings := [] |}
                [([0; 1], [2; 3])])
     = [([0], [2])].
Proof.
  split; [apply split_over_yielded|].
  split; [apply split_over_in_range|].
  vm_compute. reflexivity.
Qed.

Lemma FilteredLeaveOneGroupOut_split_filters_witness :
  let self := {| keep := {["A"; "C"]}; example_ids := ["A"; "B"; "C"; "D"];
                 _warned := false; warnings := [] |} in
  let folds := [([2; 3], [0; 1]); ([0; 1], [2; 3])] in
  LeaveOneGroupOut_split [1; 1; 2; 2]%Z = Ok folds
  /\ raised (split_over self folds) = None
  /\ yielded (split_over self folds) = [([2], [0]); ([0], [2])].
Proof.
  intros self folds. split; [reflexivity|].
  destruct (proj1 (proj2 (FilteredLeaveOneGroupOut_split_filters self folds)))
    as [Hraised Hyielded].
  - unfold folds_in_range. simpl. repeat constructor.
  - split; [exact Hraised|]. rewrite Hyielded. vm_compute. reflexivity.
Defined.

(** ** [locate_file] *)

(** C5: given the absolute path [/a/../b], which exists, [locate_file]
    returns it as it was given; the normalized path is [/b].  A path is
    normalized only when it is relative. *)
Theorem locate_file_absolute_not_normalized :
  locate_file everything_exists "/a/../b" "/conf" = Ok "/a/../b"
  /\ posixpath.normpath "/a/../b" = "/b"
  /\ ~ is_normalized "/a/../b".
Proof.
  split; [reflexivity|]. split; [vm_compute; reflexivity|].
  unfold is_normalized. intros E. vm_compute in E. discriminate E.
Qed.

(** ** The metric validator *)

Lemma existsb_deprecated (names : list string) :
  "mean_squared_error" ∉ names ->
  existsb (yaml_is_str "mean_squared_error") (map YStr names) = false.
Proof.
  induction names as [|n names IH]; intros Hn; simpl; [reflexivity|].
  apply not_elem_of_cons in Hn as [Hne Hn]. rewrite (IH Hn).
  destruct (String.eqb_spec n "mean_squared_error"); [congruence | reflexivity].
Qed.

Lemma filterM_registered (SCORERS : gset string) (names : list string) :
  Forall (fun n => n ∈ SCORERS) names ->
  filterM (not_in_SCORERS SCORERS) (map YStr names) = Ok [].
Proof.
  induction 1 as [|n names Hn _ IH]; simpl; [reflexivity|].
  rewrite IH. simpl. rewrite bool_decide_eq_false_2; [reflexivity|].
  intros Hnot. exact (Hnot Hn).
Qed.

(** C4: when the configuration text parses (after [fix_json]) to a list
    of metric names that are all in the registry and do not include
    [mean_squared_error], the validator returns that list itself: the
    same names in the same order, as a list. *)
Theorem _parse_and_validate_metrics_returns_list
    (safe_load : string -> result yaml) (list_repr : list yaml -> string)
    (SCORERS : gset string) (metrics option_name : string)
    (names : list string) :
  safe_load (fix_json metrics) = Ok (YList (map YStr names)) ->
  Forall (fun n => n ∈ SCORERS) names ->
  "mean_squared_error" ∉ names ->
  _parse_and_validate_metrics safe_load list_repr SCORERS metrics option_name
  = Ok (YList (map YStr names)).
Proof.
  intros Hload Hreg Hdep. unfold _parse_and_validate_metrics.
  rewrite Hload. simpl.
  rewrite (existsb_deprecated names Hdep), (filterM_registered _ _ Hreg).
  reflexivity.
Qed.

Lemma _parse_and_validate_metrics_returns_list_witness :
  _parse_and_validate_metrics example_safe_load example_list_repr
    example_SCORERS "['accuracy', 'f1']" "objectives"
  = Ok (YList (map YStr ["accuracy"; "f1"])).
Proof.
  apply (_parse_and_validate_metrics_returns_list
           example_safe_load example_list_repr example_SCORERS
           "['accuracy', 'f1']" "objectives" ["accuracy"; "f1"]).
  - reflexivity.
  - repeat constructor; apply (bool_decide_unpack _); vm_compute; exact I.
  - apply (bool_decide_unpack _). vm_compute. exact I.
Defined.

(** ** The installed [fit] and [predict]: constraining *)

Lemma Qlt_bool_iff (a b : Q) : Qlt_bool a b = true <-> (a < b)%Q.
Proof.
  unfold Qlt_bool. rewrite negb_true_iff. split.
  - intros E. apply Qnot_le_lt. intros Hle.
    apply Qle_bool_iff in Hle. congruence.
  - intros Hlt. destruct (Qle_bool b a) eqn:E; [|reflexivity].
    apply Qle_bool_iff in E. exfalso. exact (Qlt_not_le _ _ Hlt E).
Qed.

Lemma Qlt_bool_false (a b : Q) : Qlt_bool a b = false <-> (b <= a)%Q.
Proof.
  unfold Qlt_bool. rewrite negb_false_iff. apply Qle_bool_iff.
Qed.

Lemma fold_min_spec (l : list Q) :
  forall acc : Q,
    let r := fold_left (fun acc b => if Qlt_bool b acc then b else acc) l acc in
    r ∈ acc :: l /\ (r <= acc)%Q /\ Forall (fun q => (r <= q)%Q) l.
Proof.
  induction l as [|b l IH]; intros acc; simpl.
  - split; [left|]. split; [apply Qle_refl | constructor].
  - destruct (Qlt_bool b acc) eqn:E.
    + destruct (IH b) as (Hin & Hle & Hall).
      apply Qlt_bool_iff in E. split; [right; exact Hin|]. split.
      * apply Qlt_le_weak. eapply Qle_lt_trans; eassumption.
      * constructor; assumption.
    + destruct (IH acc) as (Hin & Hle & Hall).
      apply Qlt_bool_false in E. split.
      * apply elem_of_cons in Hin as [->|Hin]; [left | right; right; exact Hin].
      * split; [exact Hle|]. constructor; [|exact Hall].
        eapply Qle_trans; eassumption.
Qed.

Lemma fold_max_spec (l : list Q) :
  forall acc : Q,
    let r := fold_left (fun acc b => if Qlt_bool acc b then b else acc) l acc in
    r ∈ acc :: l /\ (acc <= r)%Q /\ Forall (fun q => (q <= r)%Q) l.
Proof.
  induction l as [|b l IH]; intros acc; simpl.
  - split; [left|]. split; [apply Qle_refl | constructor].
  - destruct (Qlt_bool acc b) eqn:E.
    + destruct (IH b) as (Hin & Hle & Hall).
      apply Qlt_bool_iff in E. split; [right; exact Hin|]. split.
      * apply Qlt_le_weak. eapply Qlt_le_trans; eassumption.
      * constructor; assumption.
    + destruct (IH acc) as (Hin & Hle & Hall).
      apply Qlt_bool_false in E. split.
      * apply elem_of_cons in Hin as [->|Hin]; [left | right; right; exact Hin].
      * split; [exact Hle|]. constructor; [|exact Hall].
        eapply Qle_trans; eassumption.
Qed.

(** [min(y)] is an element of [y] below every element of [y]. *)
Lemma py_min_spec (y : list Q) (mn : Q) :
  py_min y = Ok mn -> mn ∈ y /\ Forall (fun q => (mn <= q)%Q) y.
Proof.
  destruct y as [|x l]; [discriminate|]. intros [= <-].
  destruct (fold_min_spec l x) as (Hin & Hle & Hall).
  split; [exact Hin | constructor; assumption].
Qed.

Lemma py_max_spec (y : list Q) (mx : Q) :
  py_max y = Ok mx -> mx ∈ y /\ Forall (fun q => (q <= mx)%Q) y.
Proof.
  destruct y as [|x l]; [discriminate|]. intros [= <-].
  destruct (fold_max_spec l x) as (Hin & Hle & Hall).
  split; [exact Hin | constructor; assumption].
Qed.

Lemma py_min_le_py_max (y : list Q) (mn mx : Q) :
  py_min y = Ok mn -> py_max y = Ok mx -> (mn <= mx)%Q.
Proof.
  intros Hmn Hmx. apply py_min_spec in Hmn as [_ Hall].
  apply py_max_spec in Hmx as [Hin _].
  rewrite Forall_forall in Hall. exact (Hall mx Hin).
Qed.

(** Clamping puts every value, the IEEE special values included, into
    the range. *)
Lemma clamp_within (mn mx : Q) (pred : num) :
  (mn <= mx)%Q -> within mn mx (clamp mn mx pred).
Proof.
  intros Hle. unfold clamp, py_max2, py_min2, within.
  destruct pred as [p| | |]; simpl.
  - destruct (Qlt_bool p mx) eqn:E1; simpl.
    + destruct (Qlt_bool mn p) eqn:E2.
      * exists p. apply Qlt_bool_iff in E1, E2.
        split; [reflexivity|]. split; apply Qlt_le_weak; assumption.
      * exists mn. split; [reflexivity|]. split; [apply Qle_refl | exact Hle].
    + destruct (Qlt_bool mn mx) eqn:E2.
      * exists mx. split; [reflexivity|]. split; [exact Hle | apply Qle_refl].
      * exists mn. split; [reflexivity|]. split; [apply Qle_refl | exact Hle].
  - destruct (Qlt_bool mn mx) eqn:E2.
    + exists mx. split; [reflexivity|]. split; [exact Hle | apply Qle_refl].
    + exists mn. split; [reflexivity|]. split; [apply Qle_refl | exact Hle].
  - exists mn. split; [reflexivity|]. split; [apply Qle_refl | exact Hle].
  - destruct (Qlt_bool mn mx) eqn:E2.
    + exists mx. split; [reflexivity|]. split; [exact Hle | apply Qle_refl].
    + exists mn. split; [reflexivity|]. split; [apply Qle_refl | exact Hle].
Qed.

(** A prediction above the range is replaced by the upper end itself. *)
Lemma clamp_above (mn mx p : Q) :
  (mn < mx)%Q -> (mx < p)%Q -> clamp mn mx (Fin p) = Fin mx.
Proof.
  intros Hs Hlt. unfold clamp, py_max2, py_min2. simpl.
  assert (E1 : Qlt_bool p mx = false)
    by (apply Qlt_bool_false, Qlt_le_weak, Hlt).
  rewrite E1. simpl. apply Qlt_bool_iff in Hs. now rewrite Hs.
Qed.

Section RescaledProperties.

Context {Est X : Type}.
Variable orig_fit : Est -> X -> list Q -> result Est.
Variable orig_predict : Est -> X -> result (list num).
Variable np : float_arithmetic.
Variable none_operand : string -> string.

(** What a [fit] that returns has recorded. *)
Lemma fit_records (self self' : rescaled_estimator Est) (x : X) (y : list Q) :
  fit orig_fit orig_predict np self x y = Ok self' ->
  constrain self' = constrain self
  /\ rescale self' = rescale self
  /\ (constrain self = true ->
      exists mn mx, py_min y = Ok mn /\ py_max y = Ok mx
                    /\ y_min self' = Some mn /\ y_max self' = Some mx)
  /\ (rescale self = true ->
      exists y_hat, orig_predict (base self') x = Ok y_hat
                    /\ yhat_mean self' = Some (np_mean np y_hat)
                    /\ yhat_sd self' = Some (np_std np y_hat)
                    /\ y_mean self' = Some (np_mean np (map Fin y))
                    /\ y_sd self' = Some (np_std np (map Fin y))).
Proof.
  unfold fit. destruct (orig_fit (base self) x y) as [b|e]; [|discriminate].
  simpl. destruct (constrain self) eqn:Hc.
  - destruct (py_min y) as [mn|e]; [|discriminate]. simpl.
    destruct (py_max y) as [mx|e]; [|discriminate]. simpl.
    destruct (rescale self) eqn:Hr.
    + destruct (orig_predict b x) as [y_hat|e] eqn:Hp; [|discriminate].
      simpl. intros [= <-]. simpl. repeat split; try assumption.
      * intros _. exists mn, mx. repeat split.
      * intros _. exists y_hat. repeat split. exact Hp.
    + simpl. intros [= <-]. simpl. repeat split; try assumption.
      * intros _. exists mn, mx. repeat split.
      * discriminate.
  - simpl. destruct (rescale self) eqn:Hr.
    + destruct (orig_predict b x) as [y_hat|e] eqn:Hp; [|discriminate].
      simpl. intros [= <-]. simpl. repeat split; try assumption.
      * discriminate.
      * intros _. exists y_hat. repeat split. exact Hp.
    + simpl. intros [= <-]. simpl. repeat split; try assumption; discriminate.
Qed.

Lemma mapM_clamp (mn mx : Q) (res : list num) :
  mapM (fun pred =>
          let* hi := operand none_operand "<" (Some mx) in
          let* lo := operand none_operand ">" (Some mn) in
          Ok (clamp lo hi pred)) res
  = Ok (map (clamp mn mx) res).
Proof.
  induction res as [|r res IH]; simpl; [reflexivity|].
  simpl in IH. rewrite IH. reflexivity.
Qed.

Lemma mapM_rescale (hm hs s m : num) (raw : list num) :
  mapM (fun r =>
          let* a := operand none_operand "-" (Some hm) in
          let* b := operand none_operand "/" (Some hs) in
          let* c := operand none_operand "*" (Some s) in
          let* d := operand none_operand "+" (Some m) in
          Ok (zscore_rescale np a b c d r)) raw
  = Ok (map (zscore_rescale np hm hs s m) raw).
Proof.
  induction raw as [|r raw IH]; simpl; [reflexivity|].
  simpl in IH. rewrite IH. reflexivity.
Qed.

Lemma predict_constrained (self : rescaled_estimator Est) (x : X)
    (raw : list num) (mn mx : Q) :
  constrain self = true ->
  y_min self = Some mn -> y_max self = Some mx ->
  orig_predict (base self) x = Ok raw ->
  predict orig_predict np none_operand self x
  = let* res := unconstrained np none_operand self raw in
    Ok (map (clamp mn mx) res).
Proof.
  intros Hc Hmn Hmx Hraw. unfold predict, unconstrained.
  rewrite Hraw, Hc, Hmn, Hmx. simpl.
  destruct (rescale self); simpl.
  - destruct (mapM _ raw); simpl; [apply mapM_clamp | reflexivity].
  - apply mapM_clamp.
Qed.

Lemma predict_unconstrained (self : rescaled_estimator Est) (x : X)
    (raw : list num) :
  constrain self = false ->
  orig_predict (base self) x = Ok raw ->
  predict orig_predict np none_operand self x
  = unconstrained np none_operand self raw.
Proof.
  intros Hc Hraw. unfold predict, unconstrained. rewrite Hraw, Hc. simpl.
  destruct (rescale self); simpl; [|reflexivity].
  destruct (mapM _ raw); reflexivity.
Qed.

(** After a [fit] with [rescale=True] the values before the constraints
    are the rescaled raw predictions. *)
Lemma unconstrained_rescaled (self : rescaled_estimator Est)
    (raw : list num) (hm hs s m : num) :
  rescale self = true ->
  yhat_mean self = Some hm -> yhat_sd self = Some hs ->
  y_sd self = Some s -> y_mean self = Some m ->
  unconstrained np none_operand self raw
  = Ok (map (zscore_rescale np hm hs s m) raw).
Proof.
  intros Hr Hhm Hhs Hs Hm. unfold unconstrained.
  rewrite Hr, Hhm, Hhs, Hs, Hm. apply mapM_rescale.
Qed.

Lemma unconstrained_after_fit (self self' : rescaled_estimator Est) (x : X)
    (y : list Q) (raw : list num) :
  fit orig_fit orig_predict np self x y = Ok self' ->
  exists res, unconstrained np none_operand self' raw = Ok res
              /\ length res = length raw.
Proof.
  intros Hfit. destruct (fit_records _ _ _ _ Hfit) as (_ & Hr & _ & Hres).
  destruct (rescale self') eqn:E.
  - destruct (Hres (eq_sym Hr)) as (y_hat & _ & Hhm & Hhs & Hm & Hs).
    rewrite (unconstrained_rescaled self' raw _ _ _ _ E Hhm Hhs Hs Hm).
    eexists. split; [reflexivity|]. now rewrite length_map.
  - exists raw. unfold unconstrained. rewrite E. split; reflexivity.
Qed.

(** C2: after a [fit] on labels [y] of an instance made with
    [constrain=True], [predict] returns one value for each raw
    prediction, and every value lies between [min(y)] and [max(y)],
    whatever the [rescale] flag is; with [rescale=False], labels of
    minimum 0 and maximum 10 and a raw prediction of 15, it returns the
    maximum itself, 10. *)
Theorem predict_within_training_range
    (self self' : rescaled_estimator Est) (x x' : X) (y : list Q)
    (raw : list num) :
  constrain self = true ->
  fit orig_fit orig_predict np self x y = Ok self' ->
  orig_predict (base self') x' = Ok raw ->
  exists (mn mx : Q) (res : list num),
    py_min y = Ok mn /\ py_max y = Ok mx
    /\ predict orig_predict np none_operand self' x' = Ok res
    /\ length res = length raw
    /\ Forall (within mn mx) res
    /\ (rescale self = false ->
        forall p : Q,
          Qeq mn 0 -> Qeq mx 10 -> Qeq p 15 -> raw = [Fin p] ->
          res = [Fin mx]).
Proof.
  intros Hc Hfit Hraw.
  destruct (fit_records _ _ _ _ Hfit) as (Hc' & Hr' & Hrange & _).
  destruct (Hrange Hc) as (mn & mx & Hmn & Hmx & Hymin & Hymax).
  rewrite Hc in Hc'.
  destruct (unconstrained_after_fit _ _ _ _ raw Hfit) as (res & Hres & Hlen).
  exists mn, mx, (map (clamp mn mx) res).
  split; [exact Hmn|]. split; [exact Hmx|].
  split; [rewrite (predict_constrained _ _ _ _ _ Hc' Hymin Hymax Hraw), Hres;
          reflexivity|].
  split; [now rewrite length_map|].
  split.
  - apply Forall_map, Forall_forall. intros r _.
    apply clamp_within, (py_min_le_py_max y); assumption.
  - intros Hr p E0 E10 E15 ->.
    unfold unconstrained in Hres. rewrite Hr', Hr in Hres.
    injection Hres as <-. simpl. f_equal.
    apply clamp_above; rewrite ?E0, ?E10, ?E15; reflexivity.
Qed.

End RescaledProperties.

Lemma predict_within_training_range_witness :
  exists (mn mx : Q) (res : list num),
    py_min [3; 0; 10; 7]%Q = Ok mn /\ py_max [3; 0; 10; 7]%Q = Ok mx
    /\ predict echo_predict binary64 cpython_none_operand
         {| base := tt; constrain := true; rescale := false;
            y_min := Some 0%Q; y_max := Some 10%Q;
            yhat_mean := None; yhat_sd := None;
            y_mean := None; y_sd := None |} [Fin 15] = Ok res
    /\ length res = length [Fin 15]
    /\ Forall (within mn mx) res
    /\ (rescale (init true false tt) = false ->
        forall p : Q,
          Qeq mn 0 -> Qeq mx 10 -> Qeq p 15 -> [Fin 15] = [Fin p] ->
          res = [Fin mx]).
Proof.
  apply (predict_within_training_range echo_fit echo_predict binary64
           cpython_none_operand
           (init true false tt) _ [Fin 1; Fin 2] [Fin 15] [3; 0; 10; 7]%Q
           [Fin 15]).
  - reflexivity.
  - reflexivity.
  - reflexivity.
Defined.

(** ** The installed [predict]: rescaling divides by the recorded SD *)

(** The IEEE arithmetic of the standard library gives an infinity or a
    NaN for a division by zero, and for a product or a sum of which the
    first operand is one. *)
Lemma ieee_division_by_zero (prec emax : Z) :
  division_by_zero_not_finite (ieee prec emax).
Proof.
  split; [|split].
  - intros a sd E. simpl. unfold ieee_divide, ieee_binary.
    assert (Hz : ieee_of_num prec emax (Fin sd) = S754_zero false).
    { simpl. unfold ieee_of_Q. unfold Qeq in E. simpl in E.
      replace (Qnum sd) with 0%Z by lia. reflexivity. }
    rewrite Hz. destruct (ieee_of_num prec emax a) as [s|s| |s m e];
      try destruct s; reflexivity.
  - intros a b Ha. simpl. unfold ieee_multiply, ieee_binary.
    destruct a as [q| | |]; [discriminate Ha| | |]; simpl;
      destruct (ieee_of_num prec emax b) as [s|s| |s m e];
      try destruct s; reflexivity.
  - intros a b Ha. simpl. unfold ieee_add, ieee_binary.
    destruct a as [q| | |]; [discriminate Ha| | |]; simpl;
      destruct (ieee_of_num prec emax b) as [s|s| |s m e];
      try destruct s; reflexivity.
Qed.

Lemma zscore_zero_sd (np : float_arithmetic) (hm s m r : num) (sd : Q) :
  division_by_zero_not_finite np ->
  Qeq sd 0 -> is_finite (zscore_rescale np hm (Fin sd) s m r) = false.
Proof.
  intros (Hdiv & Hmul & Hadd) E. unfold zscore_rescale.
  apply Hadd, Hmul, Hdiv, E.
Qed.

(** Against C10 as stated: training predictions that are all equal do
    not make the division ill-defined.  For the three training
    predictions [0.1, 0.1, 0.1] the mean is rounded to the next float
    above 0.1, so that [fit] records the standard deviation [2^-56], not
    zero, and [predict] divides by it and returns finite values. *)
Lemma rescale_constant_predictions_nonzero_sd :
  exists (self' : rescaled_estimator unit) (sd : Q) (res : list num),
    Forall (fun r => r = tenth) [tenth; tenth; tenth]
    /\ fit echo_fit echo_predict binary64 (init true true tt)
         [tenth; tenth; tenth] [1; 2; 3]%Q = Ok self'
    /\ yhat_sd self' = Some (Fin sd)
    /\ Qeq sd (1 # 72057594037927936) /\ ~ Qeq sd 0
    /\ predict echo_predict binary64 cpython_none_operand self'
         [tenth; Fin 5] = Ok res
    /\ Forall (fun r => is_finite r = true) res.
Proof.
  eexists _, _, _. split; [repeat constructor|].
  split; [vm_compute; reflexivity|].
  split; [reflexivity|].
  split; [reflexivity|].
  split; [discriminate|].
  split; [vm_compute; reflexivity|].
  repeat constructor.
Qed.

Section RescalingProperties.

Context {Est X : Type}.
Variable orig_fit : Est -> X -> list Q -> result Est.
Variable orig_predict : Est -> X -> result (list num).
Variable np : float_arithmetic.
Variable none_operand : string -> string.

(** C10 (amended): after a [fit] with [rescale=True], [predict] divides
    every raw prediction (less the recorded mean) by the recorded
    standard deviation of the training predictions, which is what
    [np.std] gave for them, whatever it is: with [constrain=False] it
    returns the rescaled values, with [constrain=True] it clamps them
    afterwards.  The division is well-defined only when the recorded
    deviation is not zero: when it is zero no rescaled value is a finite
    number.  That is reached with training predictions that are all
    equal: the three predictions [2.0, 2.0, 2.0] record the deviation
    zero in binary64 arithmetic. *)
Theorem rescale_divides_by_unguarded_sd
    (self self' : rescaled_estimator Est) (x : X) (y : list Q) :
  division_by_zero_not_finite np ->
  rescale self = true ->
  fit orig_fit orig_predict np self x y = Ok self' ->
  (exists (y_hat : list num) (hm hs s m : num),
     orig_predict (base self') x = Ok y_hat
     /\ hs = np_std np y_hat
     /\ yhat_mean self' = Some hm /\ yhat_sd self' = Some hs
     /\ y_sd self' = Some s /\ y_mean self' = Some m
     /\ forall (x' : X) (raw : list num),
          orig_predict (base self') x' = Ok raw ->
          let rescaled_values :=
            map (fun r => np_add np
                            (np_multiply np
                               (np_true_divide np (np_subtract np r hm) hs) s)
                            m) raw in
          (constrain self = false ->
           predict orig_predict np none_operand self' x' = Ok rescaled_values)
          /\ (constrain self = true ->
              exists mn mx : Q,
                y_min self' = Some mn /\ y_max self' = Some mx
                /\ predict orig_predict np none_operand self' x'
                   = Ok (map (clamp mn mx) rescaled_values))
          /\ (forall sd : Q,
                hs = Fin sd -> Qeq sd 0 ->
                Forall (fun v => is_finite v = false) rescaled_values))
  /\ (exists fitted : rescaled_estimator unit,
        fit echo_fit echo_predict binary64 (init true true tt)
          [Fin 2; Fin 2; Fin 2] [1; 2; 3]%Q = Ok fitted
        /\ yhat_sd fitted = Some (Fin 0)).
Proof.
  intros Hieee Hr Hfit. split; [|eexists; split; vm_compute; reflexivity].
  destruct (fit_records _ _ _ _ _ _ _ Hfit) as (Hc' & Hr' & Hrange & Hres).
  destruct (Hres Hr) as (y_hat & Hy_hat & Hhm & Hhs & Hm & Hs).
  rewrite Hr in Hr'.
  exists y_hat, (np_mean np y_hat), (np_std np y_hat),
    (np_std np (map Fin y)), (np_mean np (map Fin y)).
  split; [exact Hy_hat|]. split; [reflexivity|].
  repeat (split; [assumption|]).
  intros x' raw Hraw rescaled_values.
  pose proof (unconstrained_rescaled np none_operand self' raw _ _ _ _
                Hr' Hhm Hhs Hs Hm) as Hu.
  split; [|split].
  - intros Hc. rewrite Hc in Hc'.
    rewrite (predict_unconstrained _ _ _ _ _ _ Hc' Hraw). exact Hu.
  - intros Hc. destruct (Hrange Hc) as (mn & mx & _ & _ & Hymin & Hymax).
    rewrite Hc in Hc'. exists mn, mx.
    split; [exact Hymin|]. split; [exact Hymax|].
    rewrite (predict_constrained _ _ _ _ _ _ _ _ Hc' Hymin Hymax Hraw), Hu.
    reflexivity.
  - intros sd Esd Hz. apply Forall_map, Forall_forall. intros r _.
    rewrite Esd. exact (zscore_zero_sd np _ _ _ r sd Hieee Hz).
Qed.

End RescalingProperties.

Lemma rescale_divides_by_unguarded_sd_witness :
  exists (fitted : rescaled_estimator unit) (rescaled_values : list num)
         (mn mx : Q),
    fit echo_fit echo_predict binary64 (init true true tt)
      [Fin 2; Fin 2; Fin 2] [1; 2; 3]%Q = Ok fitted
    /\ yhat_sd fitted = Some (np_std binary64 [Fin 2; Fin 2; Fin 2])
    /\ np_std binary64 [Fin 2; Fin 2; Fin 2] = Fin 0
    /\ Forall (fun v => is_finite v = false) rescaled_values
    /\ predict echo_predict binary64 cpython_none_operand fitted
         [Fin 2; Fin 5; Fin 1] = Ok (map (clamp mn mx) rescaled_values).
Proof.
  destruct (rescale_divides_by_unguarded_sd echo_fit echo_predict binary64
              cpython_none_operand (init true true tt)
              {| base := tt; constrain := true; rescale := true;
                 y_min := Some 1%Q; y_max := Some 3%Q;
                 yhat_mean := Some (np_mean binary64 [Fin 2; Fin 2; Fin 2]);
                 yhat_sd := Some (np_std binary64 [Fin 2; Fin 2; Fin 2]);
                 y_mean := Some (np_mean binary64 (map Fin [1; 2; 3]%Q));
                 y_sd := Some (np_std binary64 (map Fin [1; 2; 3]%Q)) |}
              [Fin 2; Fin 2; Fin 2] [1; 2; 3]%Q
              (ieee_division_by_zero 53 1024) eq_refl eq_refl)
    as [(y_hat & hm & hs & s & m & Hy & Ehs & Hhm & Hhs & Hs & Hm & Hp) _].
  destruct (Hp [Fin 2; Fin 5; Fin 1] [Fin 2; Fin 5; Fin 1] eq_refl)
    as (_ & Hclamped & Hzero).
  destruct (Hclamped eq_refl) as (mn & mx & _ & _ & Hpredict).
  assert (Ey : y_hat = [Fin 2; Fin 2; Fin 2])
    by (injection Hy as Ey; symmetry; exact Ey).
  assert (E0 : np_std binary64 [Fin 2; Fin 2; Fin 2] = Fin 0)
    by (vm_compute; reflexivity).
  eexists _, _, mn, mx. split; [reflexivity|]. split; [reflexivity|].
  split; [exact E0|]. split; [|exact Hpredict].
  apply (Hzero 0%Q); [rewrite Ehs, Ey; exact E0 | reflexivity].
Defined.

(** ** [train_and_score] leaves the learner's mapping alone *)

Section TrainAndScoreProperties.

Context {L : Type} `{Countable L}.
Context {Examples Preds Score Model : Type}.
Variable labels : Examples -> list L.
Variable train : Examples -> action L Model unit.
Variable predict_examples : Examples -> action L Model Preds.
Variable np_unique : list L -> list L.
Variable use_score_func : string -> list (L + nat) -> Preds -> result Score.

(** The world that [train_and_score] leaves is the one that the calls on
    the learner left, or that world with one more dictionary: the copy
    with the unseen labels. *)
Lemma train_and_score_world (train_examples test_examples : Examples)
    (metric : string) (w : world L Model) :
  let w1 := fst (learner_calls train predict_examples
                   train_examples test_examples w) in
  let w' := fst (train_and_score labels train predict_examples np_unique
                   use_score_func train_examples test_examples metric w) in
  w' = w1
  \/ exists d : gmap L nat,
       learner_mapping w1 = Some d
       /\ w' = set_heap Model w1
                 (<[fresh (dom (heap w1)) :=
                      unseen_labels np_unique (label_list w1)
                        (labels test_examples) ∪ d]> (heap w1)).
Proof.
  intros w1 w'. subst w1 w'.
  unfold train_and_score, learner_calls, and_then.
  destruct (train train_examples w) as [wa [[]|e]]; [|left; reflexivity].
  destruct (predict_examples train_examples wa) as [wb [p1|e]];
    [|left; reflexivity].
  destruct (predict_examples test_examples wb) as [wc [p2|e]];
    [|left; reflexivity].
  unfold get, ret, lift, dict_copy, dict_update, dict_getitems,
    learner_mapping. simpl.
  destruct (is_classifier wc).
  - destruct (heap wc !! label_dict wc) as [d|] eqn:Hd;
      [|left; reflexivity].
    right. exists d. split; [reflexivity|].
    simpl. rewrite lookup_insert_eq. simpl. rewrite lookup_insert_eq.
    rewrite insert_insert_eq. fold (unseen_labels np_unique (label_list wc)
                                      (labels test_examples)).
    destruct (mapM _ (labels train_examples)); simpl; [|reflexivity].
    rewrite lookup_insert_eq.
    destruct (mapM _ (labels test_examples)); simpl; [|reflexivity].
    destruct (use_score_func metric _ p1); [|reflexivity].
    destruct (use_score_func metric _ p2); reflexivity.
  - left. simpl.
    destruct (use_score_func metric _ p1); [|reflexivity].
    destruct (use_score_func metric _ p2); reflexivity.
Qed.

(** C7 (amended): the statements of [train_and_score] itself never
    write to the learner's label mapping.  The learner's reference to
    its mapping, and every dictionary that exists when the calls on the
    learner return (the mapping and any alias of it among them), are
    after [train_and_score] what they were then; the unseen labels go
    into a copy, a dictionary that did not exist before.  So the mapping
    after the call is the one that [train] and [predict] of the learner
    left, and it is the mapping of before the call when they keep it. *)
Theorem train_and_score_keeps_label_dict
    (train_examples test_examples : Examples) (metric : string)
    (w : world L Model) :
  let w1 := fst (learner_calls train predict_examples
                   train_examples test_examples w) in
  let w' := fst (train_and_score labels train predict_examples np_unique
                   use_score_func train_examples test_examples metric w) in
  label_dict w' = label_dict w1
  /\ label_list w' = label_list w1
  /\ (forall ref : nat,
        ref ∈ dom (heap w1) -> heap w' !! ref = heap w1 !! ref)
  /\ learner_mapping w' = learner_mapping w1
  /\ (forall ref : nat,
        heap w' !! ref <> heap w1 !! ref ->
        heap w1 !! ref = None
        /\ exists d : gmap L nat,
             learner_mapping w1 = Some d
             /\ heap w' !! ref
                = Some (unseen_labels np_unique (label_list w1)
                          (labels test_examples) ∪ d))
  /\ ((forall (ex : Examples) (v : world L Model),
         learner_mapping (fst (train ex v)) = learner_mapping v) ->
      (forall (ex : Examples) (v : world L Model),
         learner_mapping (fst (predict_examples ex v)) = learner_mapping v) ->
      learner_mapping w' = learner_mapping w).
Proof.
  intros w1 w'.
  assert (Hframe : label_dict w' = label_dict w1
                   /\ label_list w' = label_list w1
                   /\ (forall ref : nat, ref ∈ dom (heap w1) ->
                                         heap w' !! ref = heap w1 !! ref)
                   /\ (forall ref : nat,
                         heap w' !! ref <> heap w1 !! ref ->
                         heap w1 !! ref = None
                         /\ exists d : gmap L nat,
                              learner_mapping w1 = Some d
                              /\ heap w' !! ref
                                 = Some (unseen_labels np_unique (label_list w1)
                                           (labels test_examples) ∪ d))).
  { destruct (train_and_score_world train_examples test_examples metric w)
      as [E | (d & Hd & E)]; fold w1 w' in E |- *.
    - rewrite E. split; [reflexivity|]. split; [reflexivity|].
      split; [reflexivity|]. intros ref Hne. now destruct Hne.
    - fold w1 in Hd. rewrite E. simpl.
      pose proof (is_fresh (dom (heap w1))) as Hfresh.
      split; [reflexivity|]. split; [reflexivity|]. split.
      + intros ref Hin. apply lookup_insert_ne. intros <-. exact (Hfresh Hin).
      + intros ref Hne.
        destruct (decide (fresh (dom (heap w1)) = ref)) as [<-|Hne'].
        * split; [now apply not_elem_of_dom|].
          exists d. split; [exact Hd | apply lookup_insert_eq].
        * rewrite lookup_insert_ne in Hne by exact Hne'. now destruct Hne. }
  destruct Hframe as (Hdict & Hlist & Hold & Hnew).
  assert (Hmap : learner_mapping w' = learner_mapping w1).
  { unfold learner_mapping. rewrite Hdict.
    destruct (heap w1 !! label_dict w1) as [d|] eqn:Hd.
    - rewrite <- Hd. apply Hold, elem_of_dom. now exists d.
    - destruct (heap w' !! label_dict w1) as [d'|] eqn:Hd'; [|reflexivity].
      destruct (Hnew (label_dict w1)) as (_ & d & Hsome & _);
        [congruence|].
      unfold learner_mapping in Hsome. congruence. }
  repeat (split; [assumption|]).
  intros Htrain Hpredict. rewrite Hmap. subst w1.
  unfold learner_calls, and_then.
  pose proof (Htrain train_examples w) as H1.
  destruct (train train_examples w) as [wa [[]|e]]; [|exact H1].
  pose proof (Hpredict train_examples wa) as H2.
  destruct (predict_examples train_examples wa) as [wb [p1|e]];
    [|simpl in *; congruence].
  pose proof (Hpredict test_examples wb) as H3.
  destruct (predict_examples test_examples wb) as [wc [p2|e]];
    simpl in *; congruence.
Qed.

End TrainAndScoreProperties.

(** Against C7 as stated: with a learner whose [train] makes its mapping
    of the training labels, the mapping after [train_and_score] is not
    the mapping of before the call. *)
Lemma train_and_score_train_remaps :
  learner_mapping example_world = Some {[ "a" := 0%nat ]}
  /\ (exists d : gmap string nat,
        learner_mapping
          (fst (train_and_score id fitting_train idle_predict remove_dups
                  count_score ["x"; "y"; "y"] ["x"; "z"] "accuracy"
                  example_world)) = Some d
        /\ d !! "x" = Some 0%nat /\ d !! "y" = Some 1%nat
        /\ d !! "z" = None /\ d !! "a" = None)
  /\ learner_mapping
       (fst (train_and_score id fitting_train idle_predict remove_dups
               count_score ["x"; "y"; "y"] ["x"; "z"] "accuracy"
               example_world))
     <> learner_mapping example_world.
Proof.
  split; [reflexivity|]. split.
  - eexists. split; [reflexivity|]. repeat split; vm_compute; reflexivity.
  - intros E.
    assert (Ha : learner_mapping example_world ≫= (.!! "a") = Some 0%nat)
      by reflexivity.
    rewrite <- E in Ha. vm_compute in Ha. discriminate Ha.
Qed.

Lemma train_and_score_keeps_label_dict_witness :
  learner_mapping
    (fst (train_and_score id fitting_train idle_predict remove_dups
            count_score ["x"; "y"; "y"] ["x"; "z"] "accuracy" example_world))
  = learner_mapping
      (fst (learner_calls fitting_train idle_predict
              ["x"; "y"; "y"] ["x"; "z"] example_world))
  /\ learner_mapping
       (fst (train_and_score id idle_train idle_predict remove_dups count_score
               ["a"; "a"] ["a"; "b"] "accuracy" example_world))
     = learner_mapping example_world.
Proof.
  split.
  - apply (train_and_score_keeps_label_dict id fitting_train idle_predict
             remove_dups count_score ["x"; "y"; "y"] ["x"; "z"] "accuracy"
             example_world).
  - apply (train_and_score_keeps_label_dict id idle_train idle_predict
             remove_dups count_score ["a"; "a"] ["a"; "b"] "accuracy"
             example_world).
    + intros ex v. reflexivity.
    + intros ex v. reflexivity.
Defined.

(** * Further properties of the utilities *)

(** ** The contiguity check, case by case *)

Lemma unit_steps_run (zs : list Z) :
  zs <> [] -> unit_steps zs <-> exists z : Z, integer_run z zs.
Proof.
  intros Hne. split.
  - intros Hsteps. destruct zs as [|z0 zs]; [contradiction|].
    exists z0. intros i. induction i as [|i IH]; intros a Ha.
    + injection Ha as <-. lia.
    + destruct (lookup_lt_is_Some_2 (z0 :: zs) i) as [p Hp].
      { apply lookup_lt_Some in Ha. lia. }
      pose proof (Hsteps i p a Hp Ha). pose proof (IH p Hp). lia.
  - intros [z Hrun] i a b Ha Hb.
    rewrite (Hrun i a Ha), (Hrun (S i) b Hb). lia.
Qed.

Lemma float_steps_run (xs : list num) :
  xs <> [] ->
  Forall integer_float xs /\ float_unit_steps xs
  <-> exists z : Z, float_run z xs.
Proof.
  intros Hne. split.
  - intros [Hint Hsteps]. destruct xs as [|x0 xs]; [contradiction|].
    apply Forall_cons in Hint as [H0 _].
    destruct x0 as [q0| | |]; try contradiction. destruct H0 as [z Hz].
    exists z. intros i. induction i as [|i IH]; intros x Hx.
    + injection Hx as <-. exists q0. split; [reflexivity|].
      rewrite Hz, Z.add_0_r. reflexivity.
    + destruct (lookup_lt_is_Some_2 (Fin q0 :: xs) i) as [a Ha].
      { apply lookup_lt_Some in Hx. lia. }
      destruct (Hsteps i a x Ha Hx) as (p & q & -> & -> & Hstep).
      destruct (IH (Fin p) Ha) as (p' & [= <-] & Hp).
      exists q. split; [reflexivity|].
      rewrite Nat2Z.inj_succ. unfold Z.succ.
      rewrite Z.add_assoc, inject_Z_plus, <- Hp, <- Hstep. simpl. ring.
  - intros [z Hrun]. split.
    + apply Forall_lookup. intros i x Hx.
      destruct (Hrun i x Hx) as (q & -> & Hq). eexists. exact Hq.
    + intros i a b Ha Hb.
      destruct (Hrun i a Ha) as (p & -> & Hp).
      destruct (Hrun (S i) b Hb) as (q & -> & Hq).
      exists p, q. split; [reflexivity|]. split; [reflexivity|].
      rewrite Hp, Hq, Nat2Z.inj_succ. unfold Z.succ.
      rewrite !inject_Z_plus. simpl. ring.
Qed.

(** X1: what the contiguity check answers.  It raises [ValueError] on
    an empty array and [TypeError] on an array of text that is not
    empty.  On an array of integers of the type that is not empty it
    answers true exactly when every consecutive difference is 1 or is
    the step from the largest integer of the type to the smallest, which
    wraps around to 1; so on a sorted array of integers it answers true
    exactly when the array is a run [z, z+1, z+2, ...] of consecutive
    integers.  On an array of floats that is not empty, and on which
    IEEE arithmetic decides the two tests, it answers true exactly when
    the array is such a run. *)
Theorem contiguous_iff_integer_run (np : float_width -> float_arithmetic) :
  (forall numbers : array,
     len numbers = 0%nat ->
     contiguous_ints_or_floats np numbers
     = Raise (ValueError "Input cannot be empty."))
  /\ (forall ss : list string,
        ss <> [] ->
        contiguous_ints_or_floats np (Texts ss)
        = Raise (TypeError "Input should only contain numbers."))
  /\ (forall (w : int_width) (zs : list Z),
        zs <> [] -> in_range w zs ->
        (contiguous_ints_or_floats np (Ints w zs) = Ok true
         <-> wrapped_unit_steps w zs)
        /\ (contiguous_ints_or_floats np (Ints w zs) = Ok false
            <-> ~ wrapped_unit_steps w zs)
        /\ (increasing zs ->
            contiguous_ints_or_floats np (Ints w zs) = Ok true
            <-> exists z : Z, integer_run z zs))
  /\ (forall (w : float_width) (xs : list num),
        xs <> [] -> tests_exact_on (np w) xs ->
        (contiguous_ints_or_floats np (Floats w xs) = Ok true
         <-> exists z : Z, float_run z xs)
        /\ (contiguous_ints_or_floats np (Floats w xs) = Ok false
            <-> ~ exists z : Z, float_run z xs)).
Proof.
  split; [exact (contiguous_empty np)|]. split; [exact (contiguous_text np)|].
  split.
  - intros w zs Hne Hrange.
    destruct (contiguous_on_ints np w zs Hne Hrange) as (answer & -> & Hiff).
    assert (Htrue : Ok answer = Ok true <-> wrapped_unit_steps w zs).
    { rewrite <- Hiff. split; [now intros [= ->] | now intros ->]. }
    split; [exact Htrue|]. split.
    + rewrite <- Hiff. destruct answer.
      * split; [discriminate | intros Hn; now destruct Hn].
      * split; [intros _; discriminate | reflexivity].
    + intros Hinc. rewrite Htrue, (increasing_no_wrap w zs Hrange Hinc).
      exact (unit_steps_run zs Hne).
  - intros w xs Hne Htests.
    destruct (contiguous_on_floats np w xs Hne Htests)
      as (answer & -> & Hiff).
    rewrite (float_steps_run xs Hne) in Hiff. split.
    + rewrite <- Hiff. split; [now intros [= ->] | now intros ->].
    + rewrite <- Hiff. destruct answer.
      * split; [discriminate | intros Hn; now destruct Hn].
      * split; [intros _; discriminate | reflexivity].
Qed.

Lemma contiguous_iff_integer_run_witness :
  (contiguous_ints_or_floats ieee_floats (Floats F64 [Fin 4; Fin 5; Fin 6])
   = Ok true
   <-> exists z : Z, float_run z [Fin 4; Fin 5; Fin 6])
  /\ (contiguous_ints_or_floats ieee_floats (Ints W32 [7; 8; 9]%Z) = Ok true
      <-> wrapped_unit_steps W32 [7; 8; 9]%Z).
Proof.
  split.
  - apply (proj2 (proj2 (proj2 (contiguous_iff_integer_run ieee_floats)))
             F64 [Fin 4; Fin 5; Fin 6]).
    + discriminate.
    + exact tests_exact_on_4_5_6.
  - apply (proj1 (proj2 (proj2 (contiguous_iff_integer_run ieee_floats)))
             W32 [7; 8; 9]%Z).
    + discriminate.
    + repeat constructor; discriminate.
Defined.

(** ** The resolvers together *)

(** X2: whatever set the classification resolver returns contains the
    classification-only and the unweighted-agreement metrics, contains
    nothing outside these, the correlation and the weighted-agreement
    metrics, and apart from the classification-only metrics holds only
    metrics that are acceptable for regression. *)
Theorem classification_metrics_bounds
    (np : float_width -> float_arithmetic)
    (mc : metric_constants) (label_array : ndarray) (S : gset string) :
  get_acceptable_classification_metrics np mc label_array = Ok S ->
  CLASSIFICATION_ONLY_METRICS mc ∪ UNWEIGHTED_KAPPA_METRICS mc ⊆ S
  /\ S ⊆ CLASSIFICATION_ONLY_METRICS mc ∪ UNWEIGHTED_KAPPA_METRICS mc
         ∪ CORRELATION_METRICS mc ∪ WEIGHTED_KAPPA_METRICS mc
  /\ S ∖ CLASSIFICATION_ONLY_METRICS mc
     ⊆ get_acceptable_regression_metrics mc.
Proof.
  unfold get_acceptable_classification_metrics,
    get_acceptable_regression_metrics.
  destruct (is_textual _); [intros [= <-]; set_solver|].
  destruct (is_numeric _); [|intros [= <-]; set_solver].
  destruct label_array as [numbers|items|name items];
    [|intros [= <-]; set_solver..].
  destruct (contiguous_ints_or_floats _ _) as [[|]|e]; simpl;
    [intros [= <-]; set_solver | intros [= <-]; set_solver | discriminate].
Qed.

Lemma classification_metrics_bounds_witness :
  let S := CLASSIFICATION_ONLY_METRICS example_constants
           ∪ UNWEIGHTED_KAPPA_METRICS example_constants
           ∪ CORRELATION_METRICS example_constants in
  S ∖ CLASSIFICATION_ONLY_METRICS example_constants
  ⊆ get_acceptable_regression_metrics example_constants.
Proof.
  intros S.
  apply (classification_metrics_bounds ieee_floats example_constants
           (Typed (Floats F64 [Fin 1; Fin 3])) S).
  reflexivity.
Defined.

(** ** The metric validator: what it accepts and what it refuses *)

Lemma filterM_not_in_SCORERS_nil (SCORERS : gset string) (l : list yaml) :
  filterM (not_in_SCORERS SCORERS) l = Ok [] ->
  exists names : list string,
    l = map YStr names /\ Forall (fun n => n ∈ SCORERS) names.
Proof.
  induction l as [|v l IH]; simpl.
  - intros _. exists []. split; [reflexivity | constructor].
  - destruct (not_in_SCORERS SCORERS v) as [b|e] eqn:Hv; [|discriminate].
    simpl. destruct (filterM _ l) as [r|e]; [|discriminate]. simpl.
    destruct b; [discriminate|]. intros [= ->].
    destruct (IH eq_refl) as (names & -> & Hall).
    destruct v as [| | | |s| |]; try discriminate Hv.
    injection Hv as Hv. apply bool_decide_eq_false in Hv.
    exists (s :: names). split; [reflexivity|].
    constructor; [|exact Hall].
    destruct (decide (s ∈ SCORERS)); [assumption | contradiction].
Qed.

Lemma existsb_deprecated_false (names : list string) :
  existsb (yaml_is_str "mean_squared_error") (map YStr names) = false ->
  "mean_squared_error" ∉ names.
Proof.
  induction names as [|n names IH]; simpl; [intros _; apply not_elem_of_nil|].
  intros E. apply orb_false_iff in E as [En E].
  apply not_elem_of_cons. split; [|exact (IH E)].
  intros <-. rewrite String.eqb_refl in En. discriminate En.
Qed.

(** X3: whatever the validator returns is the list that was parsed, and
    it is a list of names that are all registered, none of them
    [mean_squared_error]. *)
Theorem _parse_and_validate_metrics_sound
    (safe_load : string -> result yaml) (list_repr : list yaml -> string)
    (SCORERS : gset string) (metrics option_name : string) (v : yaml) :
  _parse_and_validate_metrics safe_load list_repr SCORERS metrics option_name
  = Ok v ->
  safe_load (fix_json metrics) = Ok v
  /\ exists names : list string,
       v = YList (map YStr names)
       /\ Forall (fun n => n ∈ SCORERS) names
       /\ "mean_squared_error" ∉ names.
Proof.
  unfold _parse_and_validate_metrics.
  destruct (safe_load (fix_json metrics)) as [parsed|e]; [|discriminate].
  simpl. destruct parsed as [| | | | |l|]; try discriminate.
  destruct (existsb _ l) eqn:Hdep; [discriminate|].
  destruct (filterM _ l) as [[|bad rest]|e] eqn:Hf; simpl; try discriminate.
  intros [= <-]. split; [reflexivity|].
  destruct (filterM_not_in_SCORERS_nil _ _ Hf) as (names & -> & Hall).
  exists names. split; [reflexivity|]. split; [exact Hall|].
  now apply existsb_deprecated_false.
Qed.

Lemma _parse_and_validate_metrics_sound_witness :
  exists names : list string,
    YList [YStr "accuracy"; YStr "f1"] = YList (map YStr names)
    /\ Forall (fun n => n ∈ example_SCORERS) names
    /\ "mean_squared_error" ∉ names.
Proof.
  apply (_parse_and_validate_metrics_sound example_safe_load
           example_list_repr example_SCORERS "['accuracy', 'f1']"
           "objectives" (YList [YStr "accuracy"; YStr "f1"])).
  reflexivity.
Defined.

Lemma existsb_deprecated_true (l : list yaml) :
  YStr "mean_squared_error" ∈ l ->
  existsb (yaml_is_str "mean_squared_error") l = true.
Proof.
  induction l as [|v l IH]; intros Hin; [inversion Hin|].
  apply elem_of_cons in Hin as [<-|Hin]; simpl.
  - reflexivity.
  - rewrite (IH Hin). apply orb_true_r.
Qed.

(** X4: a parsed list that contains [mean_squared_error] is refused
    with the message that names the replacement, whatever else the list
    holds: unregistered names and items that are not names do not change
    the error. *)
Theorem _parse_and_validate_metrics_deprecated
    (safe_load : string -> result yaml) (list_repr : list yaml -> string)
    (SCORERS : gset string) (metrics option_name : string) (l : list yaml) :
  safe_load (fix_json metrics) = Ok (YList l) ->
  YStr "mean_squared_error" ∈ l ->
  _parse_and_validate_metrics safe_load list_repr SCORERS metrics option_name
  = Raise (ValueError deprecated_metric_message).
Proof.
  intros Hload Hin. unfold _parse_and_validate_metrics.
  rewrite Hload. simpl. rewrite (existsb_deprecated_true l Hin). reflexivity.
Qed.

Lemma _parse_and_validate_metrics_deprecated_witness :
  _parse_and_validate_metrics deprecated_safe_load example_list_repr
    example_SCORERS "[[], no_such_metric, mean_squared_error]" "objectives"
  = Raise (ValueError deprecated_metric_message).
Proof.
  apply (_parse_and_validate_metrics_deprecated deprecated_safe_load
           example_list_repr example_SCORERS
           "[[], no_such_metric, mean_squared_error]" "objectives"
           [YList []; YStr "no_such_metric"; YStr "mean_squared_error"]).
  - reflexivity.
  - apply elem_of_cons; right. apply elem_of_cons; right.
    apply elem_of_cons; left. reflexivity.
Defined.

Lemma filterM_unregistered (SCORERS : gset string) (names : list string) :
  filterM (not_in_SCORERS SCORERS) (map YStr names)
  = Ok (map YStr (List.filter (fun n => bool_decide (n ∉ SCORERS)) names)).
Proof.
  induction names as [|n names IH]; simpl; [reflexivity|].
  rewrite IH. simpl. destruct (bool_decide (n ∉ SCORERS)); reflexivity.
Qed.

(** X5: a parsed list of names without [mean_squared_error] in which
    some name is not registered is refused with a [ValueError] whose
    message lists the unregistered names, all of them and only them, in
    the order of the list. *)
Theorem _parse_and_validate_metrics_invalid
    (safe_load : string -> result yaml) (list_repr : list yaml -> string)
    (SCORERS : gset string) (metrics option_name : string)
    (names : list string) (bad : string) :
  safe_load (fix_json metrics) = Ok (YList (map YStr names)) ->
  "mean_squared_error" ∉ names ->
  bad ∈ names -> bad ∉ SCORERS ->
  _parse_and_validate_metrics safe_load list_repr SCORERS metrics option_name
  = Raise (ValueError
             ("Invalid metric(s) "
              +:+ list_repr
                    (map YStr (List.filter (fun n => bool_decide (n ∉ SCORERS))
                                           names))
              +:+ " specified for " +:+ option_name)).
Proof.
  intros Hload Hdep Hin Hbad. unfold _parse_and_validate_metrics.
  rewrite Hload. simpl.
  rewrite (existsb_deprecated names Hdep), filterM_unregistered. simpl.
  assert (Hf : bad ∈ List.filter (fun n => bool_decide (n ∉ SCORERS)) names).
  { apply list_elem_of_In, filter_In. split; [now apply list_elem_of_In|].
    now apply bool_decide_eq_true. }
  destruct (List.filter _ names); [inversion Hf | reflexivity].
Qed.

Lemma _parse_and_validate_metrics_invalid_witness :
  _parse_and_validate_metrics unregistered_safe_load example_list_repr
    example_SCORERS "[bogus, accuracy, nope]" "objectives"
  = Raise (ValueError
             ("Invalid metric(s) "
              +:+ example_list_repr [YStr "bogus"; YStr "nope"]
              +:+ " specified for objectives")).
Proof.
  apply (_parse_and_validate_metrics_invalid unregistered_safe_load
           example_list_repr example_SCORERS "[bogus, accuracy, nope]"
           "objectives" ["bogus"; "accuracy"; "nope"] "nope").
  - reflexivity.
  - apply (bool_decide_unpack _). vm_compute. exact I.
  - apply (bool_decide_unpack _). vm_compute. exact I.
  - apply (bool_decide_unpack _). vm_compute. exact I.
Defined.

(** ** [locate_file] returns only paths that exist *)

(** X6: a path that [locate_file] returns exists, unless no path was
    asked for, when the empty string is returned; and for an absolute
    path the base directory plays no part. *)
Theorem locate_file_sound
    (path_exists : string -> bool) (file_path config_dir p : string) :
  locate_file path_exists file_path config_dir = Ok p ->
  ((file_path = "" /\ p = "") \/ path_exists p = true)
  /\ (posixpath.isabs file_path = true ->
      p = file_path
      /\ forall other_dir : string,
           locate_file path_exists file_path other_dir = Ok p).
Proof.
  unfold locate_file. destruct (String.eqb_spec file_path "") as [->|Hne].
  - intros [= <-]. split; [left; split; reflexivity | discriminate].
  - destruct (posixpath.isabs file_path) eqn:Habs.
    + destruct (path_exists file_path) eqn:He; [|discriminate].
      simpl. intros [= <-]. split; [right; exact He|].
      intros _. split; reflexivity.
    + destruct (path_exists _) eqn:He; [|discriminate].
      simpl. intros [= <-]. split; [right; exact He | discriminate].
Qed.

Lemma locate_file_sound_witness :
  "/data/train.jsonlines" = "/data/train.jsonlines"
  /\ forall other_dir : string,
       locate_file everything_exists "/data/train.jsonlines" other_dir
       = Ok "/data/train.jsonlines".
Proof.
  apply (locate_file_sound everything_exists "/data/train.jsonlines"
           "/home/exp" "/data/train.jsonlines").
  - reflexivity.
  - reflexivity.
Defined.

(** ** [fix_json] *)

Lemma startswith_app (s p : string) :
  startswith s p = true <-> exists post, s = p +:+ post.
Proof.
  revert s. induction p as [|c p IH]; intros s; simpl.
  - split; [intros _; exists s; reflexivity | reflexivity].
  - destruct s as [|d s]; [split; [discriminate | intros [post E]; discriminate E]|].
    rewrite andb_true_iff, Ascii.eqb_eq, IH. split.
    + intros [-> [post ->]]. exists post. reflexivity.
    + intros [post E]. injection E as -> ->. split; [reflexivity|].
      exists post. reflexivity.
Qed.

(** [str_contains] is the occurrence of a substring. *)
Lemma str_contains_spec (s p : string) :
  str_contains s p = true <-> exists pre post, s = pre +:+ p +:+ post.
Proof.
  induction s as [|c s IH]; simpl.
  - rewrite orb_false_r, startswith_app. split.
    + intros [post E]. exists EmptyString, post. exact E.
    + intros (pre & post & E). destruct pre; [now exists post | discriminate E].
  - rewrite orb_true_iff, startswith_app, IH. split.
    + intros [[post E] | (pre & post & ->)].
      * exists EmptyString, post. exact E.
      * exists (String c pre), post. reflexivity.
    + intros (pre & post & E). destruct pre as [|d pre].
      * left. exists post. exact E.
      * right. injection E as -> ->. exists pre, post. reflexivity.
Qed.

Lemma replace_from_skip (old new pre post : string) :
  replace_from old new (String.length pre) (pre +:+ post)
  = replace_from old new 0 post.
Proof.
  induction pre as [|c pre IH]; simpl; [reflexivity | exact IH].
Qed.

Lemma str_replace_match (old new post : string) :
  old <> EmptyString ->
  str_replace old new (old +:+ post) = new +:+ str_replace old new post.
Proof.
  intros Hne. destruct old as [|a rest]; [contradiction|].
  assert (Hs : startswith (String a (rest +:+ post)) (String a rest) = true)
    by (apply startswith_app; exists post; reflexivity).
  unfold str_replace.
  change (String a rest +:+ post) with (String a (rest +:+ post)).
  cbn [replace_from]. rewrite Hs.
  replace (String.length (String a rest) - 1)%nat with (String.length rest)
    by (simpl; lia).
  now rewrite replace_from_skip.
Qed.

Lemma str_replace_no_match (old new : string) (c : ascii) (s : string) :
  startswith (String c s) old = false ->
  str_replace old new (String c s) = String c (str_replace old new s).
Proof.
  intros E. unfold str_replace. cbn [replace_from]. now rewrite E.
Qed.

Lemma string_length_app (s t : string) :
  String.length (s +:+ t) = (String.length s + String.length t)%nat.
Proof. induction s as [|c s IH]; simpl; [reflexivity | now rewrite IH]. Qed.

(** Induction on strings by their length. *)
Lemma string_length_ind (P : string -> Prop) :
  (forall s, (forall t, (String.length t < String.length s)%nat -> P t) -> P s) ->
  forall s, P s.
Proof.
  intros Hstep s.
  assert (Hall : forall n t, (String.length t < n)%nat -> P t).
  { induction n as [|n IH]; intros t Hlt; [lia|].
    apply Hstep. intros u Hu. apply IH. lia. }
  exact (Hall (S (String.length s)) s (Nat.lt_succ_diag_r _)).
Qed.

Lemma char_swapped_refl (a b : ascii) (s : string) : char_swapped a b s s.
Proof. induction s; constructor; assumption. Qed.

Lemma char_swapped_app (a b : ascii) (p s t : string) :
  char_swapped a b s t -> char_swapped a b (p +:+ s) (p +:+ t).
Proof. intros Hst. induction p; simpl; [exact Hst | now constructor]. Qed.

(** Replacing [a rest] by [b rest] only turns some [a] into [b]. *)
Lemma str_replace_swaps (a b : ascii) (rest : string) :
  forall s : string,
    char_swapped a b s (str_replace (String a rest) (String b rest) s).
Proof.
  induction s as [s IH] using string_length_ind.
  destruct (startswith s (String a rest)) eqn:E.
  - apply startswith_app in E as [post ->].
    rewrite str_replace_match by discriminate. simpl.
    apply swapped_swap, char_swapped_app, IH.
    simpl. rewrite string_length_app. lia.
  - destruct s as [|c s]; [constructor|].
    rewrite str_replace_no_match by exact E.
    apply swapped_same, IH. simpl. lia.
Qed.

Lemma swapped_startswith (a b : ascii) (p : string) :
  b ∉ list_ascii_of_string p ->
  forall s t : string,
    char_swapped a b s t -> startswith t p = true -> startswith s p = true.
Proof.
  induction p as [|c p IH]; intros Hb s t Hst; [reflexivity|].
  simpl in Hb. apply not_elem_of_cons in Hb as [Hbc Hb].
  destruct Hst as [|d s t Hst|s t Hst]; simpl; [discriminate| |].
  - rewrite !andb_true_iff. intros [Hd Hp]. split; [exact Hd|].
    exact (IH Hb s t Hst Hp).
  - rewrite andb_true_iff. intros [Hd _].
    apply Ascii.eqb_eq in Hd. congruence.
Qed.

(** Turning [a] into [b] creates no occurrence of a string without [b]. *)
Lemma swapped_contains (a b : ascii) (p s t : string) :
  b ∉ list_ascii_of_string p ->
  char_swapped a b s t -> str_contains s p = false -> str_contains t p = false.
Proof.
  intros Hb Hst. induction Hst as [|c s t Hst IH|s t Hst IH].
  - trivial.
  - cbn [str_contains]. rewrite !orb_false_iff. intros [Hs Hrest].
    split; [|exact (IH Hrest)].
    destruct (startswith (String c t) p) eqn:E; [|reflexivity].
    rewrite <- Hs. symmetry.
    exact (swapped_startswith a b p Hb _ _ (swapped_same a b c s t Hst) E).
  - cbn [str_contains]. rewrite !orb_false_iff. intros [Hs Hrest].
    split; [|exact (IH Hrest)].
    destruct (startswith (String b t) p) eqn:E; [|reflexivity].
    rewrite <- Hs. symmetry.
    exact (swapped_startswith a b p Hb _ _ (swapped_swap a b s t Hst) E).
Qed.

Lemma char_swapped_length (a b : ascii) (s t : string) :
  char_swapped a b s t -> String.length s = String.length t.
Proof. induction 1; simpl; congruence. Qed.

Lemma contains_after_prefix (a : ascii) (rest pre t : string) :
  a ∉ list_ascii_of_string pre ->
  str_contains t (String a rest) = false ->
  str_contains (pre +:+ t) (String a rest) = false.
Proof.
  intros Hpre Ht. induction pre as [|c pre IH]; [exact Ht|].
  simpl in Hpre. apply not_elem_of_cons in Hpre as [Hc Hpre].
  change (String c pre +:+ t) with (String c (pre +:+ t)).
  cbn [str_contains startswith]. rewrite (IH Hpre), orb_false_r.
  destruct (Ascii.eqb_spec c a) as [->|_]; [contradiction | reflexivity].
Qed.

(** After the replacement no occurrence of the replaced string is left,
    when the two strings differ in their first character only and that
    character does not come back in them. *)
Lemma str_replace_removes (a b : ascii) (rest : string) :
  a <> b ->
  a ∉ list_ascii_of_string rest -> b ∉ list_ascii_of_string rest ->
  forall s : string,
    str_contains (str_replace (String a rest) (String b rest) s)
                 (String a rest) = false.
Proof.
  intros Hab Ha Hb. induction s as [s IH] using string_length_ind.
  destruct (startswith s (String a rest)) eqn:E.
  - apply startswith_app in E as [post ->].
    rewrite str_replace_match by discriminate.
    apply contains_after_prefix.
    + simpl. apply not_elem_of_cons. split; [exact Hab | exact Ha].
    + apply IH. simpl. rewrite string_length_app. lia.
  - destruct s as [|c s]; [reflexivity|].
    rewrite str_replace_no_match by exact E.
    cbn [str_contains]. rewrite (IH s) by (simpl; lia).
    rewrite orb_false_r.
    destruct (startswith (String c (str_replace _ _ s)) (String a rest)) eqn:E2;
      [|reflexivity].
    rewrite <- E. symmetry.
    refine (swapped_startswith a b (String a rest) _ _ _ _ E2).
    + simpl. apply not_elem_of_cons. split; [congruence | exact Hb].
    + apply swapped_same, str_replace_swaps.
Qed.

Lemma str_replace_absent (old new s : string) :
  str_contains s old = false -> str_replace old new s = s.
Proof.
  induction s as [|c s IH]; [reflexivity|].
  cbn [str_contains]. rewrite orb_false_iff. intros [E Hs].
  rewrite str_replace_no_match by exact E. now rewrite (IH Hs).
Qed.

Lemma contains_char (a : ascii) (s : string) :
  str_contains s (String a EmptyString) = false
  <-> a ∉ list_ascii_of_string s.
Proof.
  induction s as [|c s IH]; simpl.
  - split; [intros _; apply not_elem_of_nil | reflexivity].
  - rewrite not_elem_of_cons, <- IH, orb_false_iff, andb_true_r.
    destruct (Ascii.eqb_spec c a) as [->|Hne]; split.
    + intros [E _]. discriminate E.
    + intros [E _]. contradiction.
    + intros [_ Hs]. split; [congruence | exact Hs].
    + intros [_ Hs]. split; [reflexivity | exact Hs].
Qed.

Ltac not_in_chars :=
  simpl; repeat (apply not_elem_of_cons; split; [discriminate|]);
  apply not_elem_of_nil.

Lemma fix_json_free (json_string : string) :
  str_contains (fix_json json_string) "True" = false
  /\ str_contains (fix_json json_string) "False" = false
  /\ str_contains (fix_json json_string) single_quote = false.
Proof.
  unfold fix_json.
  set (s1 := str_replace "True" "true" json_string).
  set (s2 := str_replace "False" "false" s1).
  assert (H1 : str_contains s1 "True" = false)
    by (apply str_replace_removes; [discriminate | not_in_chars | not_in_chars]).
  assert (H2 : str_contains s2 "False" = false)
    by (apply str_replace_removes; [discriminate | not_in_chars | not_in_chars]).
  assert (H21 : str_contains s2 "True" = false).
  { refine (swapped_contains "F" "f" "True" s1 s2 _ _ H1);
      [not_in_chars | apply str_replace_swaps]. }
  split; [|split].
  - refine (swapped_contains "039" "034" "True" s2 _ _ _ H21);
      [not_in_chars | apply (str_replace_swaps "039" "034" "")].
  - refine (swapped_contains "039" "034" "False" s2 _ _ _ H2);
      [not_in_chars | apply (str_replace_swaps "039" "034" "")].
  - apply (str_replace_removes "039" "034" "");
      [discriminate | not_in_chars | not_in_chars].
Qed.

(** X7: the string that [fix_json] returns has the length of its
    argument and contains no [True], no [False] and no single quote:
    every occurrence has been replaced and the replacements create no new
    one. *)
Theorem fix_json_normalizes (json_string : string) :
  String.length (fix_json json_string) = String.length json_string
  /\ (forall pre post : string,
        fix_json json_string <> pre +:+ "True" +:+ post)
  /\ (forall pre post : string,
        fix_json json_string <> pre +:+ "False" +:+ post)
  /\ "039"%char ∉ list_ascii_of_string (fix_json json_string).
Proof.
  destruct (fix_json_free json_string) as (HT & HF & Hq).
  split; [|split; [|split]].
  - unfold fix_json.
    rewrite <- (char_swapped_length _ _ _ _
                  (str_replace_swaps "039" "034" "" _)),
      <- (char_swapped_length _ _ _ _ (str_replace_swaps "F" "f" "alse" _)).
    symmetry. apply (char_swapped_length "T" "t"), str_replace_swaps.
  - intros pre post E.
    assert (Hc : str_contains (fix_json json_string) "True" = true)
      by (apply str_contains_spec; now exists pre, post).
    congruence.
  - intros pre post E.
    assert (Hc : str_contains (fix_json json_string) "False" = true)
      by (apply str_contains_spec; now exists pre, post).
    congruence.
  - apply contains_char. exact Hq.
Qed.

(** X8: [fix_json] is idempotent, and the strings it leaves as they are
    are exactly those without [True], [False] and single quote. *)
Theorem fix_json_idempotent (json_string : string) :
  fix_json (fix_json json_string) = fix_json json_string
  /\ (fix_json json_string = json_string
      <-> str_contains json_string "True" = false
          /\ str_contains json_string "False" = false
          /\ str_contains json_string single_quote = false).
Proof.
  assert (Hfix : forall s,
             str_contains s "True" = false ->
             str_contains s "False" = false ->
             str_contains s single_quote = false -> fix_json s = s).
  { intros s HT HF Hq. unfold fix_json.
    rewrite (str_replace_absent "True" "true" s HT),
      (str_replace_absent "False" "false" s HF).
    exact (str_replace_absent single_quote double_quote s Hq). }
  split.
  - destruct (fix_json_free json_string) as (HT & HF & Hq).
    now apply Hfix.
  - split.
    + intros E. rewrite <- E. apply fix_json_free.
    + intros (HT & HF & Hq). now apply Hfix.
Qed.

(** ** The filtered splitter: its warning and its state *)

Lemma split_over_state (folds : list (list nat * list nat)) :
  forall self : FilteredLeaveOneGroupOut,
    let g := split_over self folds in
    keep (final g) = keep self
    /\ example_ids (final g) = example_ids self
    /\ (_warned self = true -> final g = self)
    /\ (_warned self = false ->
        (final g = self \/ final g = warn self)).
Proof.
  induction folds as [|[tr te] rest IH]; intros self; simpl.
  - repeat split; try reflexivity. intros _. now left.
  - destruct (filter_index self tr) as [tr'|e];
      [|simpl; repeat split; try reflexivity; intros _; now left].
    destruct (filter_index self te) as [te'|e];
      [|simpl; repeat split; try reflexivity; intros _; now left].
    simpl. destruct (_warned self) eqn:Hw; simpl.
    + destruct (IH self) as (Hk & He & Hfix & _).
      repeat split; try assumption.
      * intros _. apply Hfix, Hw.
      * discriminate.
    + match goal with |- context [split_over ?s rest] => destruct (IH s) as (Hk & He & Hfix & Hstep) end.
      destruct (_ || _)%bool; simpl in *.
      * repeat split; try assumption; try discriminate.
        intros _. right. now apply Hfix.
      * repeat split; try assumption; try discriminate.
        intros _. apply Hstep, Hw.
Qed.

(** X9: a run of the filtered splitter never changes the keep-set or
    the list of example IDs; it logs at most one warning; and on an
    object that has already warned it logs nothing and leaves the object
    as it is, so the warning is given once however many folds and runs
    filter something. *)
Theorem FilteredLeaveOneGroupOut_warns_once
    (self : FilteredLeaveOneGroupOut) (folds : list (list nat * list nat)) :
  let g := split_over self folds in
  keep (final g) = keep self
  /\ example_ids (final g) = example_ids self
  /\ (warnings (final g) = warnings self
      \/ (_warned self = false /\ _warned (final g) = true
          /\ warnings (final g) = filter_warning :: warnings self))
  /\ (_warned self = true -> final g = self)
  /\ (forall more : list (list nat * list nat),
        _warned (final g) = true ->
        final (split_over (final g) more) = final g).
Proof.
  intros g. destruct (split_over_state folds self) as (Hk & He & Hfix & Hstep).
  fold g in Hk, He, Hfix, Hstep.
  split; [exact Hk|]. split; [exact He|]. split; [|split; [exact Hfix|]].
  - destruct (_warned self) eqn:Hw.
    + left. now rewrite Hfix.
    + destruct (Hstep eq_refl) as [-> | ->]; [now left|].
      right. repeat split.
  - intros more Hw.
    now apply (split_over_state more (final g)).
Qed.

Lemma kept_indices_length (ks : gset string) (ids : list string) (l : list nat) :
  (length (kept_indices ks ids l) <= length l)%nat
  /\ (length (kept_indices ks ids l) = length l
      <-> Forall (fun i => exists id, ids !! i = Some id /\ id ∈ ks) l)
  /\ (Forall (fun i => (i < length ids)%nat) l ->
      length (kept_indices ks ids l) <> length l ->
      exists i id, i ∈ l /\ ids !! i = Some id /\ id ∉ ks).
Proof.
  unfold kept_indices. induction l as [|i l (Hle & Hiff & Hex)]; simpl.
  - split; [lia|]. split; [split; [constructor | reflexivity]|].
    intros _ Hne. contradiction.
  - destruct (ids !! i) as [id|] eqn:Hid.
    + destruct (bool_decide (id ∈ ks)) eqn:Hk; simpl.
      * apply bool_decide_eq_true in Hk.
        split; [lia|]. split.
        -- rewrite Forall_cons, <- Hiff. split.
           ++ intros E. split; [exists id; now split | lia].
           ++ intros [_ E]. lia.
        -- intros Hr Hne. apply Forall_cons in Hr as [_ Hr].
           destruct (Hex Hr) as (j & jd & Hj & Hjd & Hnot); [lia|].
           exists j, jd. split; [now right | now split].
      * apply bool_decide_eq_false in Hk.
        split; [lia|]. split.
        -- split; [lia|]. intros Hall. apply Forall_cons in Hall as [[x [Hx Hin]] _].
           congruence.
        -- intros _ _. exists i, id. split; [left | now split].
    + split; [lia|]. split.
      * split; [lia|]. intros Hall.
        apply Forall_cons in Hall as [[x [Hx _]] _]. congruence.
      * intros Hr _. apply Forall_cons in Hr as [Hi _].
        apply lookup_lt_is_Some_2 in Hi as [x Hx]. congruence.
Qed.

Lemma not_dropped_length (ks : gset string) (ids : list string) (l : list nat) :
  (forall i id, i ∈ l -> ids !! i = Some id -> id ∈ ks) ->
  Forall (fun i => (i < length ids)%nat) l ->
  length (kept_indices ks ids l) = length l.
Proof.
  intros Hall Hr. apply kept_indices_length, Forall_forall.
  intros i Hi. rewrite Forall_forall in Hr.
  destruct (lookup_lt_is_Some_2 ids i (Hr i Hi)) as [id Hid].
  exists id. split; [exact Hid | exact (Hall i id Hi Hid)].
Qed.

(** X10: when every index of the underlying folds is a row of the data
    and the splitter has not warned yet, it warns (once, with the fixed
    message) exactly when some index of some fold has an example ID
    outside the keep-set; otherwise the run leaves the splitter as it
    is. *)
Theorem FilteredLeaveOneGroupOut_warns_iff_dropped
    (folds : list (list nat * list nat)) (self : FilteredLeaveOneGroupOut) :
  folds_in_range (length (example_ids self)) folds ->
  _warned self = false ->
  (drops_some self folds -> final (split_over self folds) = warn self)
  /\ (~ drops_some self folds -> final (split_over self folds) = self).
Proof.
  revert self. induction folds as [|[tr te] rest IH]; intros self Hr Hw.
  - split; [|reflexivity]. intros (fold & i & id & Hin & _). inversion Hin.
  - apply Forall_cons in Hr as [[Htr Hte] Hr]. simpl in Htr, Hte.
    cbn [split_over].
    rewrite (filter_index_in_range _ _ Htr), (filter_index_in_range _ _ Hte).
    cbn [final]. rewrite Hw. cbn [negb andb].
    set (ks := keep self). set (ids := example_ids self).
    destruct (negb (length tr =? length (kept_indices ks ids tr))%nat
              || negb (length te =? length (kept_indices ks ids te))%nat)%bool
      eqn:Hchanged.
    + assert (Hfinal : final (split_over (warn self) rest) = warn self)
        by (now apply (split_over_state rest (warn self))).
      split; [intros _; exact Hfinal|].
      intros Hno. exfalso. apply Hno.
      apply orb_true_iff in Hchanged as [E|E];
        apply negb_true_iff, Nat.eqb_neq in E.
      * destruct (proj2 (proj2 (kept_indices_length ks ids tr)) Htr)
          as (i & id & Hi & Hid & Hnot); [lia|].
        exists (tr, te), i, id. split; [left|].
        split; [apply elem_of_app; now left | now split].
      * destruct (proj2 (proj2 (kept_indices_length ks ids te)) Hte)
          as (i & id & Hi & Hid & Hnot); [lia|].
        exists (tr, te), i, id. split; [left|].
        split; [apply elem_of_app; now right | now split].
    + apply orb_false_iff in Hchanged as [E1 E2].
      apply negb_false_iff, Nat.eqb_eq in E1, E2.
      destruct (IH self Hr Hw) as [Hyes Hno].
      assert (Hhead : forall i id, i ∈ (tr ++ te)%list ->
                                   ids !! i = Some id -> id ∈ ks).
      { intros i id Hi Hid. apply elem_of_app in Hi as [Hi|Hi].
        - symmetry in E1. apply kept_indices_length in E1.
          rewrite Forall_forall in E1. destruct (E1 i Hi) as (x & Hx & Hin).
          congruence.
        - symmetry in E2. apply kept_indices_length in E2.
          rewrite Forall_forall in E2. destruct (E2 i Hi) as (x & Hx & Hin).
          congruence. }
      split.
      * intros (fold & i & id & Hin & Hi & Hid & Hnot).
        apply Hyes. apply elem_of_cons in Hin as [->|Hin].
        -- exfalso. exact (Hnot (Hhead i id Hi Hid)).
        -- exists fold, i, id. repeat split; assumption.
      * intros Hnone. apply Hno. intros (fold & i & id & Hin & Hrest).
        apply Hnone. exists fold, i, id. split; [now right | exact Hrest].
Qed.

Lemma FilteredLeaveOneGroupOut_warns_iff_dropped_witness :
  final (split_over example_splitter [([2; 3], [0; 1]); ([0; 1], [2; 3])])
  = warn example_splitter.
Proof.
  apply (FilteredLeaveOneGroupOut_warns_iff_dropped
           [([2; 3], [0; 1]); ([0; 1], [2; 3])] example_splitter).
  - unfold folds_in_range. simpl. repeat constructor.
  - reflexivity.
  - exists ([2; 3], [0; 1]), 3%nat, "D".
    split; [left|]. split; [simpl; do 1 right; left|].
    split; [reflexivity|].
    apply (bool_decide_unpack _). vm_compute. exact I.
Defined.

(** X11: every index in a pair that the filtered splitter yields comes
    from the list at the same place of the underlying pair and is the
    row of an example whose ID is in the keep-set. *)
Theorem FilteredLeaveOneGroupOut_yields_kept
    (self : FilteredLeaveOneGroupOut) (folds : list (list nat * list nat))
    (k : nat) (train_index test_index raw_train raw_test : list nat) :
  yielded (split_over self folds) !! k = Some (train_index, test_index) ->
  folds !! k = Some (raw_train, raw_test) ->
  (forall i : nat,
     i ∈ train_index ->
     i ∈ raw_train
     /\ exists id, example_ids self !! i = Some id /\ id ∈ keep self)
  /\ (forall i : nat,
        i ∈ test_index ->
        i ∈ raw_test
        /\ exists id, example_ids self !! i = Some id /\ id ∈ keep self).
Proof.
  intros Hy Hf.
  destruct (split_over_yielded folds self k _ Hy) as (a & b & Hab & E).
  rewrite Hf in Hab. injection Hab as <- <-. injection E as -> ->.
  assert (Hkept : forall l i,
             i ∈ kept_indices (keep self) (example_ids self) l <->
             i ∈ l /\ exists id, example_ids self !! i = Some id
                                 /\ id ∈ keep self).
  { intros l i. unfold kept_indices.
    rewrite list_elem_of_In, filter_In, <- list_elem_of_In.
    split; intros [Hi Hp]; (split; [exact Hi|]).
    - destruct (example_ids self !! i) as [id|]; [|discriminate].
      exists id. split; [reflexivity | now apply bool_decide_eq_true in Hp].
    - destruct Hp as (id & -> & Hin). now apply bool_decide_eq_true. }
  split; intros i Hi; now apply Hkept.
Qed.

Lemma FilteredLeaveOneGroupOut_yields_kept_witness :
  2%nat ∈ [2%nat; 3%nat]
  /\ exists id, example_ids example_splitter !! 2%nat = Some id
                /\ id ∈ keep example_splitter.
Proof.
  apply (proj1 (FilteredLeaveOneGroupOut_yields_kept example_splitter
                  [([2; 3], [0; 1]); ([0; 1], [2; 3])] 0
                  [2%nat] [0%nat] [2; 3]%nat [0; 1]%nat eq_refl eq_refl)).
  apply elem_of_cons. left. reflexivity.
Defined.

(** ** The [rescaled] decorator: decorating twice, and what is kept *)

(** X12: a class that [rescaled] returns is returned as it is when it is
    decorated again; it has the attribute [rescale], and apart from the
    five attributes that the decorator writes it has the attributes of
    the class that was given. *)
Theorem rescaled_idempotent (cls cls' : gmap string attr) :
  rescaled cls = Ok cls' ->
  rescaled cls' = Ok cls'
  /\ hasattr cls' "rescale" = true
  /\ (forall name : string,
        name ∉ rescaled_attrs -> cls' !! name = cls !! name)
  /\ (hasattr cls "rescale" = false ->
      cls' !! "fit" = Some (AMethod rescaled_fit)
      /\ cls' !! "predict" = Some (AMethod rescaled_predict)
      /\ cls' !! "__init__" = Some (AMethod rescaled_init)
      /\ cls' !! "rescale" = Some (ABool true)).
Proof.
  unfold rescaled. destruct (hasattr cls "rescale") eqn:Hr.
  - intros [= <-]. rewrite Hr.
    split; [reflexivity|]. split; [reflexivity|].
    split; [reflexivity | discriminate].
  - destruct (getattr cls "__init__"); [|discriminate]. simpl.
    destruct (getattr cls "fit"); [|discriminate]. simpl.
    destruct (getattr cls "predict"); [|discriminate]. simpl.
    destruct (getattr cls "_estimator_type") as [ty|]; [|discriminate]. simpl.
    destruct (attr_is_str ty "classifier"); [discriminate|].
    destruct (getattr cls "_get_param_names"); [|discriminate]. simpl.
    intros [= <-].
    assert (Hhas : hasattr
                     (<["rescale":=ABool true]>
                        (<["_get_param_names":=AMethod rescaled_get_param_names]>
                           (<["predict":=AMethod rescaled_predict]>
                              (<["fit":=AMethod rescaled_fit]>
                                 (<["__init__":=AMethod rescaled_init]> cls)))))
                     "rescale" = true).
    { unfold hasattr. apply bool_decide_eq_true.
      rewrite lookup_insert_eq. now eexists. }
    rewrite Hhas. split; [reflexivity|]. split; [reflexivity|]. split.
    + intros name Hname. unfold rescaled_attrs in Hname.
      rewrite !not_elem_of_cons in Hname.
      destruct Hname as (H1 & H2 & H3 & H4 & H5 & _).
      rewrite !lookup_insert_ne by congruence. reflexivity.
    + intros _. repeat split.
      * rewrite !lookup_insert_ne by discriminate. apply lookup_insert_eq.
      * rewrite !lookup_insert_ne by discriminate. apply lookup_insert_eq.
      * rewrite !lookup_insert_ne by discriminate. apply lookup_insert_eq.
      * apply lookup_insert_eq.
Qed.

Lemma rescaled_idempotent_witness :
  exists cls' : gmap string attr,
    rescaled plain_regressor = Ok cls'
    /\ rescaled cls' = Ok cls'
    /\ cls' !! "_estimator_type" = Some (AStr "regressor").
Proof.
  eexists. split; [reflexivity|].
  destruct (rescaled_idempotent plain_regressor _ eq_refl)
    as (Hagain & _ & Hkeep & _).
  split; [exact Hagain|].
  rewrite Hkeep; [reflexivity|].
  apply (bool_decide_unpack _). vm_compute. exact I.
Defined.

(** ** The installed [fit] and [predict]: further behaviour *)

Lemma clamp_finite (mn mx q : Q) :
  (mn <= mx)%Q ->
  exists q' : Q,
    clamp mn mx (Fin q) = Fin q' /\ Qeq q' (Qmax mn (Qmin mx q)).
Proof.
  intros Hle. unfold clamp, py_max2, py_min2. simpl.
  destruct (Qlt_bool q mx) eqn:E1; simpl.
  - apply Qlt_bool_iff in E1.
    assert (Emin : Qeq (Qmin mx q) q) by (apply Q.min_r, Qlt_le_weak, E1).
    destruct (Qlt_bool mn q) eqn:E2.
    + apply Qlt_bool_iff in E2. exists q. split; [reflexivity|].
      rewrite Emin. symmetry. apply Q.max_r, Qlt_le_weak, E2.
    + apply Qlt_bool_false in E2. exists mn. split; [reflexivity|].
      rewrite Emin. symmetry. apply Q.max_l, E2.
  - apply Qlt_bool_false in E1.
    assert (Emin : Qeq (Qmin mx q) mx) by (apply Q.min_l, E1).
    destruct (Qlt_bool mn mx) eqn:E2.
    + exists mx. split; [reflexivity|].
      rewrite Emin. symmetry. apply Q.max_r, Hle.
    + apply Qlt_bool_false in E2. exists mn. split; [reflexivity|].
      rewrite Emin. symmetry. apply Q.max_l, E2.
Qed.

Section RescaledBehaviour.

Context {Est X : Type}.
Variable orig_fit : Est -> X -> list Q -> result Est.
Variable orig_predict : Est -> X -> result (list num).
Variable np : float_arithmetic.
Variable none_operand : string -> string.

(** X13: an instance made with [constrain=False] and [rescale=False] is
    a transparent wrapper: its [fit] succeeds exactly when the original
    [fit] does, records no statistics, and afterwards its [predict]
    returns what the original [predict] returns on the fitted
    estimator. *)
Theorem rescaled_flags_off_transparent (b : Est) (x x' : X) (y : list Q) :
  (forall e : exn,
     orig_fit b x y = Raise e ->
     fit orig_fit orig_predict np (init false false b) x y = Raise e)
  /\ (forall b' : Est,
        orig_fit b x y = Ok b' ->
        exists self' : rescaled_estimator Est,
          fit orig_fit orig_predict np (init false false b) x y = Ok self'
          /\ base self' = b'
          /\ y_min self' = None /\ y_max self' = None
          /\ yhat_mean self' = None /\ yhat_sd self' = None
          /\ y_mean self' = None /\ y_sd self' = None
          /\ predict orig_predict np none_operand self' x'
             = orig_predict b' x').
Proof.
  split.
  - intros e He. unfold fit. simpl. rewrite He. reflexivity.
  - intros b' Hb. unfold fit. simpl. rewrite Hb. simpl.
    eexists. split; [reflexivity|]. simpl.
    repeat (split; [reflexivity|]).
    unfold predict. simpl. destruct (orig_predict b' x'); reflexivity.
Qed.

(** X14: the statistics are [None] until [fit] has recorded them.  On
    an instance that was never fitted, when the original [predict]
    returns at least one value, [predict] raises a [TypeError]: with
    [rescale=True] the one of the subtraction of [None] from a
    prediction, and with [rescale=False] and [constrain=True] the one of
    the comparison of a prediction with [None] in [min]; when the
    original [predict] returns no value it raises nothing and returns
    the empty array.  A [fit] with [constrain=True] on an empty sequence
    of labels raises the [ValueError] of [min]. *)
Theorem rescaled_unfitted_errors
    (c r : bool) (b : Est) (x : X) (p : num) (raw : list num) :
  (orig_predict b x = Ok (p :: raw) ->
   r = true ->
   predict orig_predict np none_operand (init c r b) x
   = Raise (TypeError (none_operand "-")))
  /\ (orig_predict b x = Ok (p :: raw) ->
      r = false -> c = true ->
      predict orig_predict np none_operand (init c r b) x
      = Raise (TypeError (none_operand "<")))
  /\ (orig_predict b x = Ok [] ->
      predict orig_predict np none_operand (init c r b) x = Ok [])
  /\ (forall b' : Est,
        orig_fit b x [] = Ok b' ->
        exists msg : string,
          fit orig_fit orig_predict np (init true r b) x []
          = Raise (ValueError msg)).
Proof.
  split; [|split; [|split]].
  - intros Hraw ->. unfold predict. simpl. rewrite Hraw. reflexivity.
  - intros Hraw -> ->. unfold predict. simpl. rewrite Hraw. reflexivity.
  - intros Hraw. unfold predict. simpl. rewrite Hraw.
    destruct r, c; reflexivity.
  - intros b' Hb. unfold fit. simpl. rewrite Hb. eexists. reflexivity.
Qed.

(** X15: after a [fit] with [constrain=True] and [rescale=False],
    [predict] returns for a finite raw prediction [q] the number
    [max(min(y), min(max(y), q))]: a prediction inside the range of the
    training labels is returned as it is, one outside is replaced by the
    nearer end of the range. *)
Theorem predict_clamps_finite
    (self self' : rescaled_estimator Est) (x x' : X) (y qs : list Q) :
  constrain self = true ->
  rescale self = false ->
  fit orig_fit orig_predict np self x y = Ok self' ->
  orig_predict (base self') x' = Ok (map Fin qs) ->
  exists (mn mx : Q) (res : list Q),
    py_min y = Ok mn /\ py_max y = Ok mx
    /\ predict orig_predict np none_operand self' x' = Ok (map Fin res)
    /\ Forall2 (fun q q' => Qeq q' (Qmax mn (Qmin mx q))) qs res.
Proof.
  intros Hc Hr Hfit Hraw.
  destruct (fit_records _ _ _ _ _ _ _ Hfit) as (Hc' & Hr' & Hrange & _).
  destruct (Hrange Hc) as (mn & mx & Hmn & Hmx & Hymin & Hymax).
  rewrite Hc in Hc'. rewrite Hr in Hr'.
  pose proof (py_min_le_py_max y mn mx Hmn Hmx) as Hle.
  assert (Hres : exists res : list Q,
             map (clamp mn mx) (map Fin qs) = map Fin res
             /\ Forall2 (fun q q' => Qeq q' (Qmax mn (Qmin mx q))) qs res).
  { clear Hraw. induction qs as [|q qs' IH].
    - exists []. split; [reflexivity | constructor].
    - destruct IH as (res & E & Hall).
      destruct (clamp_finite mn mx q Hle) as (q' & Eq & Hq').
      exists (q' :: res). split; [simpl; now rewrite Eq, E|].
      now constructor. }
  destruct Hres as (res & E & Hall).
  exists mn, mx, res. split; [exact Hmn|]. split; [exact Hmx|].
  split; [|exact Hall].
  rewrite (predict_constrained _ _ _ _ _ _ _ _ Hc' Hymin Hymax Hraw).
  unfold unconstrained. rewrite Hr'. simpl. now rewrite E.
Qed.

End RescaledBehaviour.

Lemma rescaled_unfitted_errors_witness :
  predict echo_predict binary64 cpython_none_operand (init true true tt)
    [Fin 3]
  = Raise (TypeError (cpython_none_operand "-"))
  /\ predict echo_predict binary64 cpython_none_operand (init true false tt)
       [Fin 3]
     = Raise (TypeError (cpython_none_operand "<")).
Proof.
  split.
  - apply (proj1 (rescaled_unfitted_errors echo_fit echo_predict binary64
                    cpython_none_operand true true tt [Fin 3] (Fin 3) []));
      reflexivity.
  - apply (proj1 (proj2 (rescaled_unfitted_errors echo_fit echo_predict
                           binary64 cpython_none_operand
                           true false tt [Fin 3] (Fin 3) [])));
      reflexivity.
Defined.

Lemma predict_clamps_finite_witness :
  exists (mn mx : Q) (res : list Q),
    py_min [3; 0; 10; 7]%Q = Ok mn /\ py_max [3; 0; 10; 7]%Q = Ok mx
    /\ predict echo_predict binary64 cpython_none_operand
         {| base := tt; constrain := true; rescale := false;
            y_min := Some 0%Q; y_max := Some 10%Q;
            yhat_mean := None; yhat_sd := None;
            y_mean := None; y_sd := None |} [Fin (-2); Fin 4; Fin 15]
       = Ok (map Fin res)
    /\ Forall2 (fun q q' => Qeq q' (Qmax mn (Qmin mx q)))
               [-2; 4; 15]%Q res.
Proof.
  apply (predict_clamps_finite echo_fit echo_predict binary64
           cpython_none_operand
           (init true false tt) _ [Fin 1] [Fin (-2); Fin 4; Fin 15]
           [3; 0; 10; 7]%Q [-2; 4; 15]%Q).
  - reflexivity.
  - reflexivity.
  - reflexivity.
  - reflexivity.
Defined.

(** ** [train_and_score]: the indices of the labels *)

Section LabelIndices.

Context {L : Type} `{Countable L}.

Lemma enumerate_dict_notin (l : list L) :
  forall (start : nat) (d : gmap L nat) (x : L),
    x ∉ l -> enumerate_dict l start d !! x = d !! x.
Proof.
  induction l as [|a l IH]; intros start d x Hx; [reflexivity|].
  apply not_elem_of_cons in Hx as [Hne Hx]. simpl.
  rewrite (IH _ _ _ Hx). now apply lookup_insert_ne.
Qed.

Lemma enumerate_dict_nodup (l : list L) :
  NoDup l ->
  forall (start : nat) (d : gmap L nat) (k : nat) (x : L),
    l !! k = Some x -> enumerate_dict l start d !! x = Some (start + k)%nat.
Proof.
  induction 1 as [|a l Ha _ IH]; intros start d k x Hk; [discriminate Hk|].
  simpl. destruct k as [|k].
  - injection Hk as <-. rewrite (enumerate_dict_notin l _ _ a Ha).
    rewrite lookup_insert_eq. f_equal. lia.
  - rewrite (IH (S start) _ k x Hk). f_equal. lia.
Qed.

Lemma enumerate_dict_in (l : list L) :
  forall (start : nat) (d : gmap L nat) (x : L),
    x ∈ l -> is_Some (enumerate_dict l start d !! x).
Proof.
  induction l as [|a l IH]; intros start d x Hx; [inversion Hx|].
  simpl. destruct (decide (x ∈ l)) as [Hin|Hnot]; [now apply IH|].
  apply elem_of_cons in Hx as [->|Hx]; [|contradiction].
  rewrite (enumerate_dict_notin l _ _ a Hnot), lookup_insert_eq. now eexists.
Qed.

Lemma enumerate_dict_ge (l : list L) :
  forall (start lo : nat) (d : gmap L nat),
    (lo <= start)%nat ->
    (forall x i, d !! x = Some i -> (lo <= i)%nat) ->
    forall x i, enumerate_dict l start d !! x = Some i -> (lo <= i)%nat.
Proof.
  induction l as [|a l IH]; intros start lo d Hlo Hd x i; simpl.
  - apply Hd.
  - apply (IH (S start) lo); [lia|].
    intros y j. destruct (decide (a = y)) as [->|Hne].
    + rewrite lookup_insert_eq. intros [= <-]. exact Hlo.
    + rewrite lookup_insert_ne by exact Hne. apply Hd.
Qed.

Lemma NoDup_List_filter (f : L -> bool) (l : list L) :
  NoDup l -> NoDup (List.filter f l).
Proof.
  induction 1 as [|a l Ha _ IH]; simpl; [constructor|].
  destruct (f a); [|exact IH]. constructor; [|exact IH].
  intros Hin. apply Ha.
  apply list_elem_of_In, filter_In in Hin as [Hin _].
  now apply list_elem_of_In.
Qed.

Variable np_unique : list L -> list L.

(** X17: in the mapping that [train_and_score] builds for scoring, a
    label of the learner's label list keeps the index the learner gives
    it; a label that only the test set has gets an index that is at
    least the number of the learner's labels, the k-th such label (when
    [np.unique] returns no label twice) exactly that number plus k; and
    when the learner's mapping covers its label list and [np.unique]
    returns every test label, every test label has an index. *)
Theorem merged_label_indices
    (d : gmap L nat) (learner_label_list test_labels : list L) :
  let unseen := unseen_labels np_unique learner_label_list test_labels in
  let merged := unseen ∪ d in
  (forall l : L, l ∈ learner_label_list -> merged !! l = d !! l)
  /\ (forall (l : L) (i : nat),
        unseen !! l = Some i ->
        (length learner_label_list <= i)%nat /\ merged !! l = Some i)
  /\ (NoDup (np_unique test_labels) ->
      forall (k : nat) (l : L),
        unseen_list np_unique learner_label_list test_labels !! k = Some l ->
        merged !! l = Some (length learner_label_list + k)%nat)
  /\ ((forall l : L, l ∈ test_labels -> l ∈ np_unique test_labels) ->
      (forall l : L, l ∈ learner_label_list -> is_Some (d !! l)) ->
      forall l : L, l ∈ test_labels -> is_Some (merged !! l)).
Proof.
  intros unseen merged. subst merged unseen. unfold unseen_labels.
  fold (unseen_list np_unique learner_label_list test_labels).
  set (ul := unseen_list np_unique learner_label_list test_labels).
  assert (Hul : forall l, l ∈ ul <-> l ∈ np_unique test_labels
                                     /\ l ∉ learner_label_list).
  { intros l. unfold ul, unseen_list.
    rewrite list_elem_of_In, filter_In, <- list_elem_of_In.
    now rewrite bool_decide_eq_true. }
  split; [|split; [|split]].
  - intros l Hl. apply lookup_union_r, enumerate_dict_notin.
    intros Hin. apply Hul in Hin as [_ Hnot]. exact (Hnot Hl).
  - intros l i Hi. split.
    + refine (enumerate_dict_ge ul _ _ ∅ (le_n _) _ l i Hi).
      intros x j Hx. rewrite lookup_empty in Hx. discriminate Hx.
    + now apply lookup_union_Some_l.
  - intros Hnd k l Hk. apply lookup_union_Some_l.
    apply enumerate_dict_nodup; [|exact Hk].
    unfold ul, unseen_list. now apply NoDup_List_filter.
  - intros Hcover Hdict l Hl.
    destruct (decide (l ∈ learner_label_list)) as [Hin|Hnot].
    + destruct (Hdict l Hin) as [i Hi]. exists i.
      rewrite lookup_union_r; [exact Hi|].
      apply enumerate_dict_notin. intros Hin'.
      apply Hul in Hin' as [_ Hn]. exact (Hn Hin).
    + destruct (enumerate_dict_in ul (length learner_label_list) ∅ l)
        as [i Hi]; [apply Hul; split; [now apply Hcover | exact Hnot]|].
      exists i. now apply lookup_union_Some_l.
Qed.

End LabelIndices.

Lemma merged_label_indices_witness :
  is_Some ((unseen_labels remove_dups ["a"; "b"] ["b"; "d"; "c"; "d"]
            ∪ {[ "a" := 0%nat; "b" := 1%nat ]}) !! "c").
Proof.
  apply (proj2 (proj2 (proj2
           (merged_label_indices remove_dups {[ "a" := 0%nat; "b" := 1%nat ]}
              ["a"; "b"] ["b"; "d"; "c"; "d"])))).
  - intros l Hl. now apply elem_of_remove_dups.
  - intros l Hl. apply (bool_decide_unpack _).
    apply elem_of_cons in Hl as [->|Hl]; [vm_compute; exact I|].
    apply elem_of_cons in Hl as [->|Hl]; [vm_compute; exact I|].
    inversion Hl.
  - apply elem_of_cons; right. apply elem_of_cons; right.
    apply elem_of_cons; left. reflexivity.
Defined.

Section TrainAndScoreResults.

Context {L : Type} `{Countable L}.
Context {Examples Preds Score Model : Type}.
Variable labels : Examples -> list L.
Variable train : Examples -> action L Model unit.
Variable predict_examples : Examples -> action L Model Preds.
Variable np_unique : list L -> list L.
Variable use_score_func : string -> list (L + nat) -> Preds -> result Score.

Lemma mapM_indices (m : gmap L nat) (ls : list L) :
  (forall l, l ∈ ls -> is_Some (m !! l)) ->
  exists idx : list (L + nat),
    mapM (fun label => match m !! label with
                       | Some i => Ok (inr i)
                       | None => Raise KeyError
                       end) ls = Ok idx
    /\ indices_in m ls idx.
Proof.
  induction ls as [|l ls IH]; intros Hall.
  - exists []. split; [reflexivity | constructor].
  - destruct IH as (idx & E & Hidx);
      [intros x Hx; apply Hall; now right|].
    destruct (Hall l) as [i Hi]; [left|].
    exists (inr i :: idx). simpl. rewrite Hi, E. split; [reflexivity|].
    constructor; [now exists i | exact Hidx].
Qed.

Lemma mapM_missing (m : gmap L nat) (ls : list L) (l : L) :
  l ∈ ls -> m !! l = None ->
  mapM (fun label => match m !! label with
                     | Some i => Ok (inr i : L + nat)
                     | None => Raise KeyError
                     end) ls = Raise KeyError.
Proof.
  intros Hin Hnone. induction ls as [|a ls IH]; [inversion Hin|].
  simpl. destruct (m !! a) as [i|] eqn:Ha; [|reflexivity]. simpl.
  apply elem_of_cons in Hin as [->|Hin]; [congruence|].
  rewrite (IH Hin). reflexivity.
Qed.

(** X18: for a classifier whose calls on the learner returned,
    [train_and_score] scores index sequences: each label of the train
    and of the test examples is replaced by its index in the learner's
    mapping extended with the unseen test labels, and the two scores are
    those of the scoring function on these sequences and the two
    predictions.  A train label without an index ends the call with
    [KeyError]. *)
Theorem train_and_score_classifier
    (train_examples test_examples : Examples) (metric : string)
    (w w1 : world L Model) (train_predictions test_predictions : Preds)
    (d : gmap L nat) :
  learner_calls train predict_examples train_examples test_examples w
  = (w1, Ok (train_predictions, test_predictions)) ->
  is_classifier w1 = true ->
  learner_mapping w1 = Some d ->
  let merged := unseen_labels np_unique (label_list w1) (labels test_examples)
                ∪ d in
  let outcome := snd (train_and_score labels train predict_examples np_unique
                        use_score_func train_examples test_examples metric w) in
  ((forall l, l ∈ labels train_examples -> is_Some (merged !! l)) ->
   (forall l, l ∈ labels test_examples -> is_Some (merged !! l)) ->
   exists train_labels test_labels : list (L + nat),
     indices_in merged (labels train_examples) train_labels
     /\ indices_in merged (labels test_examples) test_labels
     /\ outcome
        = (let* train_score :=
             use_score_func metric train_labels train_predictions in
           let* test_score :=
             use_score_func metric test_labels test_predictions in
           Ok (train_score, test_score)))
  /\ (forall l, l ∈ labels train_examples -> merged !! l = None ->
                outcome = Raise KeyError).
Proof.
  intros Hcalls Hcl Hd merged outcome. subst outcome.
  unfold learner_calls, and_then in Hcalls.
  unfold train_and_score, and_then.
  destruct (train train_examples w) as [wa [[]|e]]; [|discriminate Hcalls].
  destruct (predict_examples train_examples wa) as [wb [p1|e]];
    [|discriminate Hcalls].
  destruct (predict_examples test_examples wb) as [wc [p2|e]];
    [|discriminate Hcalls].
  unfold ret in Hcalls. injection Hcalls as -> -> ->.
  unfold get, ret, lift, dict_copy, dict_update, dict_getitems. simpl.
  unfold learner_mapping in Hd. rewrite Hcl, Hd. simpl.
  rewrite lookup_insert_eq. simpl. rewrite lookup_insert_eq.
  rewrite insert_insert_eq.
  fold (unseen_labels np_unique (label_list w1) (labels test_examples)).
  fold merged. split.
  - intros Htrain Htest.
    destruct (mapM_indices merged _ Htrain) as (tr & Etr & Htr).
    destruct (mapM_indices merged _ Htest) as (te & Ete & Hte).
    exists tr, te. split; [exact Htr|]. split; [exact Hte|].
    rewrite Etr. simpl. rewrite lookup_insert_eq, Ete. simpl.
    destruct (use_score_func metric tr train_predictions); [|reflexivity].
    simpl. destruct (use_score_func metric te test_predictions); reflexivity.
  - intros l Hl Hnone. rewrite (mapM_missing merged _ l Hl Hnone).
    reflexivity.
Qed.

(** X19: for a learner that is not a classifier, [train_and_score]
    creates no dictionary and scores the labels of the examples
    themselves. *)
Theorem train_and_score_regressor
    (train_examples test_examples : Examples) (metric : string)
    (w w1 : world L Model) (train_predictions test_predictions : Preds) :
  learner_calls train predict_examples train_examples test_examples w
  = (w1, Ok (train_predictions, test_predictions)) ->
  is_classifier w1 = false ->
  train_and_score labels train predict_examples np_unique use_score_func
    train_examples test_examples metric w
  = (w1,
     let* train_score :=
       use_score_func metric (map inl (labels train_examples))
         train_predictions in
     let* test_score :=
       use_score_func metric (map inl (labels test_examples))
         test_predictions in
     Ok (train_score, test_score)).
Proof.
  intros Hcalls Hcl.
  unfold learner_calls, and_then in Hcalls.
  unfold train_and_score, and_then.
  destruct (train train_examples w) as [wa [[]|e]]; [|discriminate Hcalls].
  destruct (predict_examples train_examples wa) as [wb [p1|e]];
    [|discriminate Hcalls].
  destruct (predict_examples test_examples wb) as [wc [p2|e]];
    [|discriminate Hcalls].
  unfold ret in Hcalls. injection Hcalls as -> -> ->.
  unfold get, ret, lift. simpl. rewrite Hcl. simpl.
  destruct (use_score_func metric _ train_predictions); [|reflexivity].
  simpl. destruct (use_score_func metric _ test_predictions); reflexivity.
Qed.

End TrainAndScoreResults.

Ltac each_label Hl :=
  repeat (apply elem_of_cons in Hl as [->|Hl];
          [apply (bool_decide_unpack _); vm_compute; exact I|]);
  inversion Hl.

Lemma train_and_score_classifier_witness :
  let merged := unseen_labels remove_dups ["a"; "b"] ["b"; "d"; "c"; "d"]
                ∪ {[ "a" := 0%nat; "b" := 1%nat ]} in
  exists train_labels test_labels : list (string + nat),
    indices_in merged ["a"; "b"; "a"] train_labels
    /\ indices_in merged ["b"; "d"; "c"; "d"] test_labels
    /\ snd (train_and_score id idle_train idle_predict remove_dups count_score
              ["a"; "b"; "a"] ["b"; "d"; "c"; "d"] "accuracy" two_label_world)
       = (let* train_score := count_score "accuracy" train_labels tt in
          let* test_score := count_score "accuracy" test_labels tt in
          Ok (train_score, test_score)).
Proof.
  apply (proj1 (train_and_score_classifier id idle_train idle_predict
                  remove_dups count_score ["a"; "b"; "a"]
                  ["b"; "d"; "c"; "d"] "accuracy" two_label_world
                  two_label_world tt tt {[ "a" := 0%nat; "b" := 1%nat ]}
                  eq_refl eq_refl eq_refl)).
  - intros l Hl. each_label Hl.
  - intros l Hl. each_label Hl.
Defined.

Lemma train_and_score_regressor_witness :
  train_and_score id idle_train idle_predict remove_dups count_score
    ["1.5"; "2.5"] ["3.5"] "pearson" regressor_world
  = (regressor_world, Ok (2%nat, 1%nat)).
Proof.
  apply (train_and_score_regressor id idle_train idle_predict remove_dups
           count_score ["1.5"; "2.5"] ["3.5"] "pearson" regressor_world
           regressor_world tt tt).
  - reflexivity.
  - reflexivity.
Defined.

(** ** [SelectByMinCount] *)

Lemma occurrences_app (j : nat) (l1 l2 : list nat) :
  occurrences j (l1 ++ l2) = (occurrences j l1 + occurrences j l2)%nat.
Proof. unfold occurrences. now rewrite List.filter_app, List.length_app. Qed.

Lemma occurrences_cons (j i : nat) (l : list nat) :
  occurrences j (i :: l)
  = ((if (j =? i)%nat then 1 else 0) + occurrences j l)%nat.
Proof. unfold occurrences. simpl. destruct (j =? i)%nat; reflexivity. Qed.

Lemma count_indices_spec (col_indices : list nat) :
  forall col_counts : list nat,
    Forall (fun i => (i < length col_counts)%nat) col_indices ->
    exists counted : list nat,
      count_indices col_indices col_counts = Ok counted
      /\ length counted = length col_counts
      /\ forall (j c : nat),
           col_counts !! j = Some c ->
           counted !! j = Some (c + occurrences j col_indices)%nat.
Proof.
  induction col_indices as [|i rest IH]; intros col_counts Hr.
  - exists col_counts. split; [reflexivity|]. split; [reflexivity|].
    intros j c Hj. rewrite Hj. f_equal. unfold occurrences. simpl. lia.
  - apply Forall_cons in Hr as [Hi Hr].
    destruct (lookup_lt_is_Some_2 _ _ Hi) as [ci Hci].
    simpl. unfold increment. rewrite Hci. simpl.
    destruct (IH (<[i := S ci]> col_counts)) as (counted & E & Hlen & Hall).
    { rewrite length_insert. exact Hr. }
    exists counted. split; [exact E|].
    split; [now rewrite Hlen, length_insert|].
    intros j c Hj. unfold occurrences. simpl.
    destruct (Nat.eqb_spec j i) as [->|Hne].
    + rewrite (Hall i (S ci)).
      * rewrite Hci in Hj. injection Hj as <-. simpl.
        f_equal. unfold occurrences. lia.
      * now apply list_lookup_insert_eq.
    + rewrite (Hall j c); [reflexivity|].
      rewrite list_lookup_insert_ne by congruence. exact Hj.
Qed.

Lemma nonzero_from (s : nat) (row : list Q) (j : nat) :
  let cols := map fst (List.filter
                         (fun jv : nat * Q => negb (Qeq_bool (snd jv) 0))
                         (combine (seq s (length row)) row)) in
  Forall (fun i => (s <= i < s + length row)%nat) cols
  /\ occurrences j cols
     = if (j <? s)%nat then 0%nat
       else match row !! (j - s)%nat with
            | Some v => if negb (Qeq_bool v 0) then 1%nat else 0%nat
            | None => 0%nat
            end.
Proof.
  revert s. induction row as [|v row IH]; intros s cols; subst cols.
  - simpl. split; [constructor|]. unfold occurrences. simpl.
    destruct (j <? s)%nat; [reflexivity|]. destruct (j - s)%nat; reflexivity.
  - cbn [length seq combine List.filter snd].
    destruct (IH (S s)) as [Hb Ho].
    assert (Hb' : Forall (fun i => (s <= i < s + S (length row))%nat)
                    (map fst (List.filter
                                (fun jv : nat * Q => negb (Qeq_bool (snd jv) 0))
                                (combine (seq (S s) (length row)) row)))).
    { eapply Forall_impl; [exact Hb|]. simpl. intros i Hi. lia. }
    destruct (negb (Qeq_bool v 0)) eqn:Hv; cbn [map fst].
    + split; [constructor; [simpl; lia | exact Hb']|].
      rewrite occurrences_cons, Ho.
      destruct (Nat.eqb_spec j s) as [->|Hne].
      * rewrite Nat.ltb_irrefl, Nat.sub_diag. simpl. rewrite Hv.
        destruct (s <? S s)%nat eqn:E; [reflexivity|].
        apply Nat.ltb_ge in E. lia.
      * destruct (j <? s)%nat eqn:E1.
        -- apply Nat.ltb_lt in E1.
           destruct (j <? S s)%nat eqn:E2; [reflexivity|].
           apply Nat.ltb_ge in E2. lia.
        -- apply Nat.ltb_ge in E1.
           destruct (j <? S s)%nat eqn:E2; [apply Nat.ltb_lt in E2; lia|].
           replace (j - s)%nat with (S (j - S s)) by lia. reflexivity.
    + split; [exact Hb'|]. rewrite Ho.
      destruct (Nat.eqb_spec j s) as [->|Hne].
      * rewrite Nat.ltb_irrefl, Nat.sub_diag. simpl. rewrite Hv.
        destruct (s <? S s)%nat eqn:E; [reflexivity|].
        apply Nat.ltb_ge in E. lia.
      * destruct (j <? s)%nat eqn:E1.
        -- apply Nat.ltb_lt in E1.
           destruct (j <? S s)%nat eqn:E2; [reflexivity|].
           apply Nat.ltb_ge in E2. lia.
        -- apply Nat.ltb_ge in E1.
           destruct (j <? S s)%nat eqn:E2; [apply Nat.ltb_lt in E2; lia|].
           replace (j - s)%nat with (S (j - S s)) by lia. reflexivity.
Qed.

Lemma nonzero_columns_spec (n : nat) (rows : list (list Q)) (j : nat) :
  Forall (fun row => length row = n) rows ->
  Forall (fun i => (i < n)%nat) (nonzero_columns rows)
  /\ occurrences j (nonzero_columns rows) = column_count j rows.
Proof.
  unfold nonzero_columns, column_count.
  induction 1 as [|row rows Hrow _ [IHb IHo]]; simpl.
  - split; [constructor | reflexivity].
  - destruct (nonzero_from 0 row j) as [Hb Ho].
    fold (row_nonzero row) in Hb, Ho.
    split.
    + apply Forall_app. split; [|exact IHb].
      eapply Forall_impl; [exact Hb|]. simpl. intros i Hi. lia.
    + rewrite occurrences_app, IHo, Ho, Nat.sub_0_r. simpl.
      destruct (row !! j) as [v|]; [|reflexivity].
      destruct (negb (Qeq_bool v 0)); reflexivity.
Qed.

Lemma todense_rows (m : sparse) :
  Forall (fun row => length row = snd (shape m)) (todense m).
Proof.
  unfold todense. apply Forall_map, Forall_forall. intros i _.
  now rewrite length_map, length_seq.
Qed.

Lemma input_rows_shaped (X : count_input) :
  well_formed_input X ->
  Forall (fun row => length row = n_columns X) (input_rows X).
Proof.
  destruct X as [m|a]; simpl; [intros _; apply todense_rows | now intros [_ ?]].
Qed.

(** X20: on well-formed data, sparse or dense, [fit] succeeds and
    leaves in [scores_] one count for each feature column: the number of
    examples with a nonzero value in that column.  What [scores_] held
    before plays no part. *)
Theorem SelectByMinCount_fit_counts (self : SelectByMinCount) (X : count_input) :
  well_formed_input X ->
  exists scores : list nat,
    SelectByMinCount_fit self X
    = Ok {| min_count := min_count self; scores_ := Some scores |}
    /\ length scores = n_columns X
    /\ forall j : nat,
         (j < n_columns X)%nat ->
         scores !! j = Some (column_count j (input_rows X)).
Proof.
  intros Hwf. pose proof (input_rows_shaped X Hwf) as Hrows.
  unfold SelectByMinCount_fit.
  assert (Hidx : (match X with
                  | CountSparse m => sp_find_columns m
                  | CountDense a => nonzero_columns (dense_rows a)
                  end) = nonzero_columns (input_rows X))
    by (destruct X; reflexivity).
  rewrite Hidx.
  destruct (count_indices_spec (nonzero_columns (input_rows X))
              (replicate (n_columns X) 0%nat)) as (scores & E & Hlen & Hall).
  { rewrite length_replicate.
    exact (proj1 (nonzero_columns_spec _ _ 0 Hrows)). }
  exists scores. rewrite E. split; [reflexivity|].
  rewrite length_replicate in Hlen. split; [exact Hlen|].
  intros j Hj. rewrite (Hall j 0%nat).
  - f_equal. exact (proj2 (nonzero_columns_spec _ _ j Hrows)).
  - now apply lookup_replicate_2.
Qed.

Lemma SelectByMinCount_fit_counts_witness :
  exists scores : list nat,
    SelectByMinCount_fit (SelectByMinCount_init 2) (CountDense example_counts)
    = Ok {| min_count := 2; scores_ := Some scores |}
    /\ length scores = 2%nat
    /\ forall j : nat,
         (j < 2)%nat ->
         scores !! j = Some (column_count j (dense_rows example_counts)).
Proof.
  apply (SelectByMinCount_fit_counts (SelectByMinCount_init 2)
           (CountDense example_counts)).
  split; [reflexivity|]. repeat constructor.
Defined.

(** X21: after [fit] on well-formed data the support mask keeps a
    feature exactly when at least [min_count] examples have a nonzero
    value in it; on a selector that was never fitted the mask query
    raises [AttributeError]. *)
Theorem SelectByMinCount_selects (k : Z) (self : SelectByMinCount)
    (X : count_input) :
  _get_support_mask (SelectByMinCount_init k) = Raise (AttributeError "shape")
  /\ (well_formed_input X ->
      exists (fitted : SelectByMinCount) (mask : list bool),
        SelectByMinCount_fit self X = Ok fitted
        /\ _get_support_mask fitted = Ok mask
        /\ length mask = n_columns X
        /\ forall j : nat,
             (j < n_columns X)%nat ->
             mask !! j
             = Some (bool_decide
                       (min_count self
                        <= Z.of_nat (column_count j (input_rows X)))%Z)).
Proof.
  split; [reflexivity|]. intros Hwf.
  destruct (SelectByMinCount_fit_counts self X Hwf) as (scores & E & Hlen & Hall).
  eexists _, _. split; [exact E|]. split; [reflexivity|]. simpl.
  split; [now rewrite length_map|].
  intros j Hj. rewrite list_lookup_fmap, (Hall j Hj). simpl. f_equal.
  destruct (Z.leb_spec (min_count self)
              (Z.of_nat (column_count j (input_rows X)))) as [Hle|Hgt].
  - symmetry. now apply bool_decide_eq_true.
  - symmetry. apply bool_decide_eq_false. lia.
Qed.

Lemma SelectByMinCount_selects_witness :
  exists (fitted : SelectByMinCount) (mask : list bool),
    SelectByMinCount_fit (SelectByMinCount_init 2) (CountDense example_counts)
    = Ok fitted
    /\ _get_support_mask fitted = Ok mask
    /\ length mask = 2%nat
    /\ forall j : nat,
         (j < 2)%nat ->
         mask !! j
         = Some (bool_decide
                   (2 <= Z.of_nat (column_count j (dense_rows example_counts)))%Z).
Proof.
  apply (SelectByMinCount_selects 2 (SelectByMinCount_init 2)
           (CountDense example_counts)).
  split; [reflexivity|]. repeat constructor.
Defined.

(** ** [load_cv_folds] *)

Section LoadFoldsProperties.

Context {F : Type} `{Countable F}.
Variable py_float : string -> option (float_value F).
Variable read_csv : string -> result (list (list string)).

Lemma load_rows_app (b : bool) (rows1 rows2 : list (list string)) :
  forall (n : nat) (res : gmap (fold_id F) string),
    load_rows py_float b (rows1 ++ rows2) n res
    = match load_rows py_float b rows1 n res with
      | Returns m => load_rows py_float b rows2 (n + length rows1) m
      | Raises e => Raises e
      end.
Proof.
  induction rows1 as [|row rows1 IH]; intros n res; simpl.
  - now rewrite Nat.add_0_r.
  - replace (n + S (length rows1))%nat with (S n + length rows1)%nat by lia.
    destruct b.
    + destruct (row !! 0%nat) as [id|]; [|reflexivity].
      destruct (py_float id); [|reflexivity].
      destruct (row !! 1%nat); [apply IH | reflexivity].
    + destruct (row !! 1%nat); [|reflexivity].
      destruct (row !! 0%nat); [apply IH | reflexivity].
Qed.

(** One row is stored under its key with its second column, or it ends
    the loading. *)
Lemma load_row (b : bool) (row : list string) (n : nat)
    (res m : gmap (fold_id F) string) :
  load_rows py_float b [row] n res = Returns m <->
  exists (id fold : string) (key : fold_id F),
    row !! 0%nat = Some id /\ row !! 1%nat = Some fold
    /\ fold_key py_float b n id = Some key /\ m = <[key := fold]> res.
Proof.
  unfold fold_key. simpl. destruct b.
  - destruct (row !! 0%nat) as [id|]; [|split; [discriminate|]].
    + destruct (py_float id) as [v|] eqn:Hv; [|split; [discriminate|]].
      * destruct (row !! 1%nat) as [fold|]; [|split; [discriminate|]].
        -- split.
           ++ intros [= <-]. exists id, fold, (key_of_float n v).
              rewrite Hv. repeat split.
           ++ intros (id' & fold' & key & [= <-] & [= <-] & Hk & ->).
              rewrite Hv in Hk. injection Hk as <-. reflexivity.
        -- intros (id' & fold' & key & _ & Hn & _). discriminate Hn.
      * intros (id' & fold' & key & [= <-] & _ & Hk & _).
        rewrite Hv in Hk. discriminate Hk.
    + intros (id' & fold' & key & Hn & _). discriminate Hn.
  - destruct (row !! 1%nat) as [fold|]; [|split; [discriminate|]].
    + destruct (row !! 0%nat) as [id|]; [|split; [discriminate|]].
      * split.
        -- intros [= <-]. exists id, fold, (str_key id). repeat split.
        -- intros (id' & fold' & key & [= <-] & [= <-] & [= <-] & ->).
           reflexivity.
      * intros (id' & fold' & key & Hn & _). discriminate Hn.
    + intros (id' & fold' & key & _ & Hn & _). discriminate Hn.
Qed.

(** The key of a NaN is the key of its row only. *)
Lemma fold_key_nan (b : bool) (i k : nat) (id : string) :
  fold_key py_float b i id = Some (nan_key k) -> i = k.
Proof.
  unfold fold_key. destruct b; [|discriminate].
  destruct (py_float id) as [[|f]|]; simpl; [|discriminate..].
  now intros [= ->].
Qed.

Lemma load_rows_lookup (b : bool) (rows : list (list string)) :
  forall m : gmap (fold_id F) string,
    load_rows py_float b rows 0 ∅ = Returns m ->
    forall (key : fold_id F) (fold : string),
      m !! key = Some fold <->
      exists (i : nat) (row : list string) (id : string),
        rows !! i = Some row /\ row !! 0%nat = Some id
        /\ row !! 1%nat = Some fold
        /\ fold_key py_float b i id = Some key
        /\ last_with_key py_float b rows i key.
Proof.
  induction rows as [|r rows IH] using rev_ind; intros m Hm key fold.
  - injection Hm as <-. rewrite lookup_empty. split; [discriminate|].
    intros (i & row & id & Hi & _). destruct i; discriminate Hi.
  - rewrite load_rows_app in Hm.
    destruct (load_rows py_float b rows 0 ∅) as [m0|e] eqn:Hm0; [|discriminate].
    apply load_row in Hm as (rid & rfold & rkey & Hr0 & Hr1 & Hrk & ->).
    simpl in Hrk. specialize (IH m0 eq_refl).
    destruct (decide (rkey = key)) as [->|Hne].
    + rewrite lookup_insert_eq. split.
      * intros [= <-]. exists (length rows), r, rid.
        split; [apply list_lookup_middle; reflexivity|].
        repeat (split; [assumption|]).
        intros i' row' id' Hlt Hi'. apply lookup_lt_Some in Hi'.
        rewrite length_app in Hi'. simpl in Hi'. lia.
      * intros (i & row & id' & Hi & H0 & H1 & Hk & Hlast).
        destruct (decide (i = length rows)) as [->|Hi'].
        -- rewrite list_lookup_middle in Hi by reflexivity.
           injection Hi as <-. congruence.
        -- exfalso. refine (Hlast (length rows) r rid _ _ Hr0 Hrk).
           ++ apply lookup_lt_Some in Hi. rewrite length_app in Hi.
              simpl in Hi. lia.
           ++ now apply list_lookup_middle.
    + rewrite lookup_insert_ne by exact Hne. rewrite IH. split.
      * intros (i & row & id' & Hi & H0 & H1 & Hk & Hlast).
        exists i, row, id'.
        split; [now apply lookup_app_l_Some|].
        repeat (split; [assumption|]).
        intros i' row' id'' Hlt Hi' H0'.
        destruct (decide (i' = length rows)) as [->|Hn].
        -- rewrite list_lookup_middle in Hi' by reflexivity.
           injection Hi' as <-. congruence.
        -- apply (Hlast i' row' id'' Hlt); [|exact H0'].
           rewrite lookup_app_l in Hi'; [exact Hi'|].
           apply lookup_lt_Some in Hi'. rewrite length_app in Hi'.
           simpl in Hi'. lia.
      * intros (i & row & id' & Hi & H0 & H1 & Hk & Hlast).
        destruct (decide (i = length rows)) as [->|Hn].
        -- rewrite list_lookup_middle in Hi by reflexivity.
           injection Hi as <-. congruence.
        -- assert (Hlt : (i < length rows)%nat).
           { apply lookup_lt_Some in Hi. rewrite length_app in Hi.
             simpl in Hi. lia. }
           rewrite lookup_app_l in Hi by exact Hlt.
           exists i, row, id'. repeat (split; [assumption|]).
           intros i' row' id'' Hlt' Hi' H0'.
           apply (Hlast i' row' id'' Hlt'); [|exact H0'].
           now apply lookup_app_l_Some.
Qed.

(** X22: the header row is never read, and a row added at the end of
    the file overrides what the rows before it gave for its ID and
    changes nothing else: when the shorter file loads to [m], the longer
    one loads to [m] with the key of the new row set to its fold.  When
    the ID of the new row is converted to a NaN the row overrides
    nothing: its key is not in [m]. *)
Theorem load_cv_folds_append
    (file1 file2 : string) (ids_to_floats : bool)
    (header1 header2 : list string) (rows : list (list string))
    (id fold : string) (extra : list string) (key : fold_id F)
    (m : gmap (fold_id F) string) :
  read_csv file1 = Ok (header1 :: rows) ->
  read_csv file2 = Ok (header2 :: rows ++ [id :: fold :: extra]) ->
  fold_key py_float ids_to_floats (length rows) id = Some key ->
  load_cv_folds py_float read_csv file1 ids_to_floats = Returns m ->
  load_cv_folds py_float read_csv file2 ids_to_floats
  = Returns (<[key := fold]> m)
  /\ (ids_to_floats = true -> py_float id = Some nan -> m !! key = None).
Proof.
  intros H1 H2 Hkey. unfold load_cv_folds. rewrite H1, H2.
  intros Hm. split.
  - rewrite load_rows_app, Hm.
    apply load_row. exists id, fold, key. repeat split. exact Hkey.
  - intros -> Hnan. unfold fold_key in Hkey. rewrite Hnan in Hkey.
    injection Hkey as <-. simpl.
    destruct (m !! nan_key (length rows)) as [old|] eqn:Hold; [|reflexivity].
    apply (load_rows_lookup true rows m Hm) in Hold
      as (i & row & id' & Hi & _ & _ & Hk & _).
    apply fold_key_nan in Hk. subst i.
    apply lookup_lt_Some in Hi. lia.
Qed.

(** X23: in the mapping that [load_cv_folds] returns, a key has a fold
    exactly when some row after the header has that key (its first
    column, as a float when the IDs are converted) and that fold (its
    second column) and is the last row with that key.  A row whose ID is
    converted to a NaN is always the last with its key: every such row
    has an entry of its own. *)
Theorem load_cv_folds_lookup
    (folds_file : string) (ids_to_floats : bool)
    (header : list string) (rows : list (list string))
    (m : gmap (fold_id F) string) (key : fold_id F) (fold : string) :
  read_csv folds_file = Ok (header :: rows) ->
  load_cv_folds py_float read_csv folds_file ids_to_floats = Returns m ->
  (m !! key = Some fold <->
   exists (i : nat) (row : list string) (id : string),
     rows !! i = Some row /\ row !! 0%nat = Some id
     /\ row !! 1%nat = Some fold
     /\ fold_key py_float ids_to_floats i id = Some key
     /\ forall (i' : nat) (row' : list string) (id' : string),
          (i < i')%nat -> rows !! i' = Some row' ->
          row' !! 0%nat = Some id' ->
          fold_key py_float ids_to_floats i' id' <> Some key)
  /\ (forall (i : nat) (row : list string) (id fold' : string),
        ids_to_floats = true ->
        rows !! i = Some row -> row !! 0%nat = Some id ->
        row !! 1%nat = Some fold' -> py_float id = Some nan ->
        m !! nan_key i = Some fold').
Proof.
  intros Hread. unfold load_cv_folds. rewrite Hread. intros Hm. split.
  - exact (load_rows_lookup ids_to_floats rows m Hm key fold).
  - intros i row id fold' -> Hi H0 H1 Hnan.
    apply (load_rows_lookup true rows m Hm). exists i, row, id.
    repeat (split; [assumption|]). split.
    + unfold fold_key. rewrite Hnan. reflexivity.
    + intros i' row' id' Hlt _ _ Hk. apply fold_key_nan in Hk. lia.
Qed.

(** X24: what [load_cv_folds] raises.  The error of opening the file is
    passed on; a file without any row raises [StopIteration] and a file
    with only a header gives the empty mapping; and when the rows before
    some row load, that row decides, whatever rows follow: with an ID
    that is no float (when the IDs are converted) it raises the
    [ValueError] that names the ID, and otherwise, with fewer than two
    columns, [IndexError]. *)
Theorem load_cv_folds_errors
    (folds_file : string) (ids_to_floats : bool) :
  (forall e : exn,
     read_csv folds_file = Raise e ->
     load_cv_folds py_float read_csv folds_file ids_to_floats
     = Raises (Builtin e))
  /\ (read_csv folds_file = Ok [] ->
      load_cv_folds py_float read_csv folds_file ids_to_floats
      = Raises StopIteration)
  /\ (forall header : list string,
        read_csv folds_file = Ok [header] ->
        load_cv_folds py_float read_csv folds_file ids_to_floats = Returns ∅)
  /\ (forall (header : list string) (good : list (list string))
             (bad : list string) (rest : list (list string))
             (m : gmap (fold_id F) string),
        read_csv folds_file = Ok (header :: good ++ bad :: rest) ->
        load_rows py_float ids_to_floats good 0 ∅ = Returns m ->
        ((length bad < 2)%nat ->
         (forall id : string,
            ids_to_floats = true -> bad !! 0%nat = Some id ->
            is_Some (py_float id)) ->
         load_cv_folds py_float read_csv folds_file ids_to_floats
         = Raises (Builtin IndexError))
        /\ (forall id : string,
              ids_to_floats = true ->
              bad !! 0%nat = Some id -> py_float id = None ->
              load_cv_folds py_float read_csv folds_file ids_to_floats
              = Raises (float_error id))).
Proof.
  unfold load_cv_folds. split; [|split; [|split]].
  - intros e ->. reflexivity.
  - intros ->. reflexivity.
  - intros header ->. reflexivity.
  - intros header good bad rest m -> Hgood.
    rewrite load_rows_app, Hgood. split.
    + intros Hshort Hparse. simpl.
      assert (H1 : bad !! 1%nat = None) by (apply lookup_ge_None; lia).
      rewrite H1. destruct ids_to_floats; [|reflexivity].
      destruct (bad !! 0%nat) as [id|]; [|reflexivity].
      destruct (Hparse id eq_refl eq_refl) as [f ->]. reflexivity.
    + intros id -> Hid Hf. simpl. rewrite Hid, Hf. reflexivity.
Qed.

End LoadFoldsProperties.

Lemma load_cv_folds_append_witness :
  load_cv_folds example_float
    (fun name => Ok [["example_id"; "fold_id"]; ["1"; "a"]; ["2"; "b"];
                     ["1.0"; "c"; "ignored"]]) "folds.csv" true
  = Returns (<[float_key 1%Z := "c"]>
               (<[float_key 2%Z := "b"]> (<[float_key 1%Z := "a"]> ∅)))
  /\ load_cv_folds example_float
       (fun name => Ok [["example_id"; "fold_id"]; ["nan"; "a"]; ["2"; "b"];
                        ["nan"; "c"]]) "folds.csv" true
     = Returns (<[nan_key 2%nat := "c"]>
                  (<[float_key 2%Z := "b"]> (<[nan_key 0%nat := "a"]> ∅))).
Proof.
  split.
  - apply (load_cv_folds_append example_float
             (fun name => if String.eqb name "short.csv"
                          then Ok [["id"; "fold"]; ["1"; "a"]; ["2"; "b"]]
                          else Ok [["example_id"; "fold_id"]; ["1"; "a"];
                                   ["2"; "b"]; ["1.0"; "c"; "ignored"]])
             "short.csv" "folds.csv" true ["id"; "fold"]
             ["example_id"; "fold_id"] [["1"; "a"]; ["2"; "b"]]
             "1.0" "c" ["ignored"] (float_key 1%Z)
             (<[float_key 2%Z := "b"]> (<[float_key 1%Z := "a"]> ∅)));
      reflexivity.
  - apply (load_cv_folds_append example_float
             (fun name => if String.eqb name "short.csv"
                          then Ok [["id"; "fold"]; ["nan"; "a"]; ["2"; "b"]]
                          else Ok [["example_id"; "fold_id"]; ["nan"; "a"];
                                   ["2"; "b"]; ["nan"; "c"]])
             "short.csv" "folds.csv" true ["id"; "fold"]
             ["example_id"; "fold_id"] [["nan"; "a"]; ["2"; "b"]]
             "nan" "c" [] (nan_key 2%nat)
             (<[float_key 2%Z := "b"]> (<[nan_key 0%nat := "a"]> ∅)));
      reflexivity.
Defined.

Lemma load_cv_folds_lookup_witness :
  ((<[str_key "1" := "c"]> (<[str_key "2" := "b"]> (<[str_key "1" := "a"]> ∅))
    : gmap (fold_id Z) string) !! str_key "1" = Some "c" <->
   exists (i : nat) (row : list string) (id : string),
     [["1"; "a"]; ["2"; "b"]; ["1"; "c"]] !! i = Some row
     /\ row !! 0%nat = Some id /\ row !! 1%nat = Some "c"
     /\ fold_key example_float false i id = Some (str_key "1")
     /\ forall (i' : nat) (row' : list string) (id' : string),
          (i < i')%nat ->
          [["1"; "a"]; ["2"; "b"]; ["1"; "c"]] !! i' = Some row' ->
          row' !! 0%nat = Some id' ->
          fold_key example_float false i' id' <> Some (str_key "1"))
  /\ (<[nan_key 1%nat := "b"]> (<[nan_key 0%nat := "a"]> ∅)
       : gmap (fold_id Z) string) !! nan_key 0%nat = Some "a".
Proof.
  split.
  - apply (load_cv_folds_lookup example_float example_folds_file "folds.csv"
             false ["id"; "fold"] [["1"; "a"]; ["2"; "b"]; ["1"; "c"]]);
      reflexivity.
  - apply (proj2 (load_cv_folds_lookup example_float
                    (fun name => Ok [["id"; "fold"]; ["nan"; "a"];
                                     ["nan"; "b"]])
                    "folds.csv" true ["id"; "fold"]
                    [["nan"; "a"]; ["nan"; "b"]]
                    (<[nan_key 1%nat := "b"]> (<[nan_key 0%nat := "a"]> ∅))
                    (nan_key 0%nat) "a" eq_refl eq_refl)
             0%nat ["nan"; "a"] "nan" "a"); reflexivity.
Defined.

Lemma load_cv_folds_errors_witness :
  load_cv_folds example_float
    (fun name => Ok [["id"; "fold"]; ["1"; "a"]; ["x7"]; ["2"; "b"]])
    "folds.csv" true
  = Raises (float_error "x7").
Proof.
  apply (proj2 (proj2 (proj2 (load_cv_folds_errors example_float
                 (fun name => Ok [["id"; "fold"]; ["1"; "a"]; ["x7"];
                                  ["2"; "b"]]) "folds.csv" true)))
           ["id"; "fold"] [["1"; "a"]] ["x7"] [["2"; "b"]]
           (<[float_key 1%Z := "a"]> ∅) eq_refl eq_refl).
  - reflexivity.
  - reflexivity.
  - reflexivity.
Defined.

(** ** [_munge_featureset_name] *)

Lemma leb_trans (a : string) :
  forall b c : string,
    String.leb a b = true -> String.leb b c = true -> String.leb a c = true.
Proof.
  unfold String.leb.
  induction a as [|x a IH]; intros [|y b] [|z c]; simpl;
    try reflexivity; try discriminate.
  unfold Ascii.compare.
  destruct (N.compare_spec (N_of_ascii x) (N_of_ascii y));
    destruct (N.compare_spec (N_of_ascii y) (N_of_ascii z));
    destruct (N.compare_spec (N_of_ascii x) (N_of_ascii z));
    try lia; try reflexivity; try discriminate;
    try (intros _ E; discriminate E).
  apply IH.
Qed.

#[local] Instance str_le_trans : Transitive str_le.
Proof. intros a b c. apply leb_trans. Qed.

#[local] Instance str_le_total : Total str_le.
Proof. intros a b. apply String.leb_total. Qed.

#[local] Instance str_le_antisym : AntiSymm (=) str_le.
Proof. intros a b. apply String.leb_antisym. Qed.

(** X25: a featureset given as a name is its own name; for a featureset
    given as a collection of names the name is the ['+']-join of these
    names in non-decreasing order, so it does not depend on the order in
    which the names are given. *)
Theorem _munge_featureset_name_order (l1 l2 : list string) (s : string) :
  _munge_featureset_name (FeaturesetName s) = s
  /\ (exists names : list string,
        _munge_featureset_name (FeaturesetNames l1) = str_join "+" names
        /\ names ≡ₚ l1 /\ Sorted str_le names)
  /\ (l1 ≡ₚ l2 ->
      _munge_featureset_name (FeaturesetNames l1)
      = _munge_featureset_name (FeaturesetNames l2)).
Proof.
  split; [reflexivity|]. split.
  - exists (sorted l1). split; [reflexivity|]. unfold sorted.
    split; [apply merge_sort_Permutation | apply Sorted_merge_sort; exact _].
  - intros Hp. simpl. f_equal. unfold sorted.
    apply (Sorted_unique str_le).
    + apply Sorted_merge_sort; exact _.
    + apply Sorted_merge_sort; exact _.
    + now rewrite !merge_sort_Permutation.
Qed.

Lemma _munge_featureset_name_order_witness :
  _munge_featureset_name (FeaturesetNames ["pos"; "ngrams"; "len"])
  = _munge_featureset_name (FeaturesetNames ["len"; "pos"; "ngrams"]).
Proof.
  apply (_munge_featureset_name_order ["pos"; "ngrams"; "len"]
           ["len"; "pos"; "ngrams"] "").
  apply (bool_decide_unpack _). vm_compute. exact I.
Defined.

Lemma FilteredLeaveOneGroupOut_warns_once_witness :
  let g := split_over example_splitter [([2; 3], [0; 1]); ([0; 1], [2; 3])] in
  _warned (final g) = true
  /\ final (split_over (final g) [([0; 1; 2], [3])]) = final g.
Proof.
  intros g. split; [reflexivity|].
  apply (FilteredLeaveOneGroupOut_warns_once example_splitter
           [([2; 3], [0; 1]); ([0; 1], [2; 3])]).
  reflexivity.
Defined.

Lemma rescaled_flags_off_transparent_witness :
  exists self' : rescaled_estimator unit,
    fit echo_fit echo_predict binary64 (init false false tt)
      [Fin 1; Fin 2] [3; 4]%Q = Ok self'
    /\ base self' = tt
    /\ y_min self' = None /\ y_max self' = None
    /\ yhat_mean self' = None /\ yhat_sd self' = None
    /\ y_mean self' = None /\ y_sd self' = None
    /\ predict echo_predict binary64 cpython_none_operand self' [Fin 9]
       = echo_predict tt [Fin 9].
Proof.
  apply (rescaled_flags_off_transparent echo_fit echo_predict binary64
           cpython_none_operand tt [Fin 1; Fin 2] [Fin 9] [3; 4]%Q).
  reflexivity.
Defined.

(** ** [load_custom_learner] *)

Lemma str_take_drop (n : nat) (s : string) :
  str_take n s +:+ str_drop n s = s.
Proof.
  revert s. induction n as [|n IH]; intros [|c s]; try reflexivity.
  change (String c (str_take n s +:+ str_drop n s) = String c s).
  now rewrite IH.
Qed.

Lemma str_take_app (pre post : string) :
  str_take (String.length pre) (pre +:+ post) = pre.
Proof.
  induction pre as [|c pre IH]; [now destruct post|].
  change (String c (str_take (String.length pre) (pre +:+ post)) = String c pre).
  now rewrite IH.
Qed.

Lemma str_drop_app (pre post : string) :
  str_drop (String.length pre) (pre +:+ post) = post.
Proof. induction pre as [|c pre IH]; [reflexivity | exact IH]. Qed.

Lemma str_take_length (n : nat) (s : string) :
  (n <= String.length s)%nat -> String.length (str_take n s) = n.
Proof.
  revert s. induction n as [|n IH]; intros [|c s] Hn; simpl in *; try lia.
  rewrite IH; lia.
Qed.

(** [endswith] is the occurrence of the suffix at the end. *)
Lemma endswith_spec (s suffix : string) :
  endswith s suffix = true <-> exists pre, s = pre +:+ suffix.
Proof.
  unfold endswith. rewrite andb_true_iff, Nat.leb_le, String.eqb_eq. split.
  - intros [Hle E]. exists (str_take (String.length s - String.length suffix) s).
    pose proof (str_take_drop (String.length s - String.length suffix) s) as Htd.
    rewrite E in Htd. now symmetry.
  - intros [pre ->]. rewrite string_length_app. split; [lia|].
    replace (String.length pre + String.length suffix - String.length suffix)%nat
      with (String.length pre) by lia.
    apply str_drop_app.
Qed.

Lemma basename_py (p : string) :
  (exists pre, p = pre +:+ ".py") -> exists pre', basename p = pre' +:+ ".py".
Proof.
  induction p as [|c p IH]; intros [pre E].
  - destruct pre; discriminate E.
  - simpl. destruct (str_contains p "/") eqn:Hc.
    + apply IH. destruct pre as [|d pre].
      * injection E as -> ->. discriminate Hc.
      * injection E as -> ->. now exists pre.
    + destruct (Ascii.eqb_spec c "/") as [Heq|Hne].
      * subst c. destruct pre as [|d pre]; [discriminate E|].
        injection E as _ ->. now exists pre.
      * now exists pre.
Qed.

Section CustomLearnerProperties.

Context {Obj : Type}.
Variable cwd : string.
Variable import_module :
  string -> interpreter Obj -> interpreter Obj * result unit.

(** X26: a path that is not set (absent or empty) and a path that does
    not end in [.py] are refused with [ValueError], the first naming the
    learner and the second the path, before anything is done: the
    interpreter is as it was, and what importing would do plays no
    part. *)
Theorem load_custom_learner_refuses
    (path name : string) (st : interpreter Obj) :
  load_custom_learner cwd import_module None name st
  = (st, Raise (ValueError ("custom_learner_path was not set and learner "
                            +:+ name +:+ " was not found.")))
  /\ load_custom_learner cwd import_module (Some "") name st
     = (st, Raise (ValueError ("custom_learner_path was not set and learner "
                               +:+ name +:+ " was not found.")))
  /\ (path <> "" -> (forall pre, path <> pre +:+ ".py") ->
      load_custom_learner cwd import_module (Some path) name st
      = (st, Raise (ValueError ("custom_learner_path must end in .py ("
                                +:+ path +:+ ")")))).
Proof.
  split; [reflexivity|]. split; [reflexivity|].
  intros Hne Hpy. unfold load_custom_learner.
  destruct path as [|c path]; [contradiction|].
  destruct (endswith (String c path) ".py") eqn:E; [|reflexivity].
  apply endswith_spec in E as [pre E]. destruct (Hpy pre E).
Qed.

Lemma load_valid (path name : string) (st : interpreter Obj) :
  path <> "" -> endswith path ".py" = true ->
  load_custom_learner cwd import_module (Some path) name st
  = let b := basename path in
    let module_name := str_take (String.length b - 3) b in
    match import_module module_name
            (sys_path_append (dirname (abspath cwd path)) st) with
    | (st2, Raise e) => (st2, Raise e)
    | (st2, Ok _) =>
        match sys_modules st2 !! module_name with
        | None => (st2, Raise KeyError)
        | Some module =>
            match module !! name with
            | None => (st2, Raise (AttributeError name))
            | Some learner => (st2, Ok learner)
            end
        end
    end.
Proof.
  intros Hne Hend. unfold load_custom_learner.
  destruct path as [|c rest]; [contradiction|].
  rewrite Hend. reflexivity.
Qed.

(** X27: for a path that ends in [.py], the directory of the absolute
    path is appended to [sys.path] and the module whose name is the
    basename of the path without its [.py] is imported, in that order.
    When the import raises, its error is the result and the new entry of
    [sys.path] is not taken back by the function; when it returns, the
    result is the attribute with the learner's name of that module, with
    [KeyError] for a module that is not in [sys.modules] and
    [AttributeError] for a name the module does not have. *)
Theorem load_custom_learner_imports
    (dir_and_stem name : string) (st : interpreter Obj) :
  let path := dir_and_stem +:+ ".py" in
  exists module_name : string,
    module_name +:+ ".py" = basename path
    /\ let st1 := sys_path_append (dirname (abspath cwd path)) st in
       load_custom_learner cwd import_module (Some path) name st
       = match import_module module_name st1 with
         | (st2, Raise e) => (st2, Raise e)
         | (st2, Ok _) =>
             (st2,
              match sys_modules st2 !! module_name with
              | None => Raise KeyError
              | Some module =>
                  match module !! name with
                  | None => Raise (AttributeError name)
                  | Some learner => Ok learner
                  end
              end)
         end.
Proof.
  intros path.
  assert (Hpy : exists pre, path = pre +:+ ".py") by (now exists dir_and_stem).
  destruct (basename_py path Hpy) as [m Hm].
  exists m. split; [now rewrite Hm|].
  intros st1. rewrite (load_valid path name st).
  - cbv zeta. rewrite Hm, string_length_app.
    replace (String.length m + String.length ".py" - 3)%nat
      with (String.length m) by (simpl; lia).
    rewrite str_take_app. fold st1.
    destruct (import_module m st1) as [st2 [[]|e]]; [|reflexivity].
    destruct (sys_modules st2 !! m) as [module|]; [|reflexivity].
    destruct (module !! name); reflexivity.
  - unfold path. destruct dir_and_stem; discriminate.
  - now apply endswith_spec.
Qed.

End CustomLearnerProperties.

Lemma load_custom_learner_refuses_witness :
  load_custom_learner "/home/u" example_import (Some "learners/my_learner.txt")
    "MyLearner" example_interpreter
  = (example_interpreter,
     Raise (ValueError
              "custom_learner_path must end in .py (learners/my_learner.txt)")).
Proof.
  apply (load_custom_learner_refuses "/home/u" example_import
           "learners/my_learner.txt" "MyLearner" example_interpreter).
  - discriminate.
  - intros pre E.
    assert (Hend : endswith "learners/my_learner.txt" ".py" = true)
      by (apply endswith_spec; now exists pre).
    vm_compute in Hend. discriminate Hend.
Defined.

(** ** The installed [_get_param_names] *)

(** X28: for an original constructor with the parameters [self],
    [params] and no [*args], the installed [_get_param_names] returns
    the names [params] together with the parameters after [self] of the
    constructor of the class, in non-decreasing order; for the
    constructor that the decorator installs these are [constrain] and
    [rescale].  An original constructor with [*args] raises
    [RuntimeError] whatever the class is, and one that cannot be
    inspected contributes no name. *)
Theorem _get_param_names_merges
    (self_name self_name' : string) (params flags : list string)
    (varargs' : option string) (star : string) (class_x_init : argspec) :
  (exists names : list string,
     _get_param_names (ArgSpec (self_name :: params) None)
       (ArgSpec (self_name' :: flags) varargs') = Returns names
     /\ names ≡ₚ params ++ flags
     /\ Sorted str_le names)
  /\ (exists names : list string,
        _get_param_names (ArgSpec (self_name :: params) None)
          rescaled_init_spec = Returns names
        /\ "constrain" ∈ names /\ "rescale" ∈ names
        /\ (forall p, p ∈ params -> p ∈ names)
        /\ length names = (length params + 2)%nat)
  /\ _get_param_names (ArgSpec (self_name :: params) (Some star)) class_x_init
     = Raises (RuntimeError varargs_message)
  /\ _get_param_names NotAFunction (ArgSpec (self_name' :: flags) varargs')
     = Returns (sorted flags).
Proof.
  split; [|split; [|split; reflexivity]].
  - exists (sorted (params ++ flags)). split; [reflexivity|]. unfold sorted.
    split; [apply merge_sort_Permutation | apply Sorted_merge_sort; exact _].
  - exists (sorted (params ++ ["constrain"; "rescale"])).
    split; [reflexivity|]. unfold sorted.
    pose proof (merge_sort_Permutation str_le
                  (params ++ ["constrain"; "rescale"])) as Hp.
    split; [rewrite Hp; apply elem_of_app; right; left|].
    split; [rewrite Hp; apply elem_of_app; right; right; left|].
    split; [intros p Hin; rewrite Hp; apply elem_of_app; now left|].
    rewrite Hp, length_app. reflexivity.
Qed.

(** ** The filtered splitter over leave-one-group-out *)

Lemma indices_where_bound (p : Z -> bool) (groups : list Z) :
  Forall (fun i => (i < length groups)%nat) (indices_where p groups).
Proof.
  unfold indices_where. apply Forall_forall. intros i Hi.
  apply list_elem_of_In, in_map_iff in Hi as ([j g] & <- & Hin).
  apply filter_In in Hin as [Hin _]. apply in_combine_l in Hin.
  apply in_seq in Hin. simpl. lia.
Qed.

(** X29: with one example ID for each row of the data, the filtered
    splitter over the leave-one-group-out folds never fails on an index:
    either there are fewer than two groups and it raises the
    [ValueError] of the underlying splitter without yielding anything or
    changing, or it raises nothing and yields one fold for each distinct
    group. *)
Theorem FilteredLeaveOneGroupOut_split_total
    (self : FilteredLeaveOneGroupOut) (groups : list Z) :
  length (example_ids self) = length groups ->
  let g := FilteredLeaveOneGroupOut_split self groups in
  ((length (np_unique_Z groups) <= 1)%nat
   /\ (exists msg, raised g = Some (ValueError msg))
   /\ yielded g = [] /\ final g = self)
  \/ ((2 <= length (np_unique_Z groups))%nat
      /\ raised g = None
      /\ length (yielded g) = length (np_unique_Z groups)).
Proof.
  intros Hlen g. subst g.
  unfold FilteredLeaveOneGroupOut_split, LeaveOneGroupOut_split.
  destruct (length (np_unique_Z groups) <=? 1)%nat eqn:E.
  - left. apply Nat.leb_le in E. split; [exact E|].
    split; [eexists; reflexivity|]. split; reflexivity.
  - right. apply Nat.leb_gt in E. split; [lia|].
    destruct (split_over_in_range
                (map (fun g => (indices_where (fun x => negb (x =? g)%Z) groups,
                                indices_where (fun x => (x =? g)%Z) groups))
                     (np_unique_Z groups)) self) as [Hr Hy].
    + unfold folds_in_range. apply Forall_map, Forall_forall.
      intros z _. simpl. rewrite Hlen.
      split; apply indices_where_bound.
    + split; [exact Hr|]. now rewrite Hy, !length_map.
Qed.

Lemma FilteredLeaveOneGroupOut_split_total_witness :
  let g := FilteredLeaveOneGroupOut_split example_splitter [1; 1; 2; 2]%Z in
  ((length (np_unique_Z [1; 1; 2; 2]%Z) <= 1)%nat
   /\ (exists msg, raised g = Some (ValueError msg))
   /\ yielded g = [] /\ final g = example_splitter)
  \/ ((2 <= length (np_unique_Z [1; 1; 2; 2]%Z))%nat
      /\ raised g = None
      /\ length (yielded g) = length (np_unique_Z [1; 1; 2; 2]%Z)).
Proof.
  apply (FilteredLeaveOneGroupOut_split_total example_splitter [1; 1; 2; 2]%Z).
  reflexivity.
Defined.
